(** * Full-page capture and stitching (app.py, class PageCapturer)

    A shallow embedding of [PageCapturer.capture_full_page] and of the
    library calls it makes.  The browser driver is a black box (an
    interface with three calls), the file system is a finite map from
    paths to bitmaps, Python exceptions are an outcome type, and the
    method is a function in a state-and-exception monad over the
    session: driver, files, the cached screenshot height and the local
    list [screenshots] that the [finally] clause reads. *)

From Stdlib Require Import ZArith Lia List Ascii String.
From stdpp Require Import base numbers option list strings gmap pretty.

Local Open Scope Z_scope.

(** ** Bitmaps (PIL.Image) *)

Definition Pixel : Type := (Z * Z * Z)%type.
Definition black : Pixel := (0, 0, 0).

(** [img.width], [img.height] and the pixel at column [x], row [y]. *)
Record Image : Type := mkImage {
  width : Z;
  height : Z;
  getpixel : Z -> Z -> Pixel
}.

Definition in_image (img : Image) (x y : Z) : bool :=
  (0 <=? x) && (x <? width img) && (0 <=? y) && (y <? height img).

(** [img.crop((left, upper, right, lower))]: a new image of size
    [(right - left, lower - upper)]; what lies outside the source is
    filled with zeros.  Every call below passes a box with
    [left <= right] and [upper <= lower]. *)
Definition crop (img : Image) (box : Z * Z * Z * Z) : Image :=
  let '(x_left, y_upper, x_right, y_lower) := box in
  mkImage (x_right - x_left) (y_lower - y_upper)
    (fun x y =>
       if in_image img (x + x_left) (y + y_upper)
       then getpixel img (x + x_left) (y + y_upper) else black).

(** [dst.paste(src, (x0, y0))]: the pixels of [src] overwrite the region
    of [dst] they cover; the size of [dst] does not change. *)
Definition paste (dst src : Image) (at_ : Z * Z) : Image :=
  let '(x0, y0) := at_ in
  mkImage (width dst) (height dst)
    (fun x y =>
       if in_image src (x - x0) (y - y0)
       then getpixel src (x - x0) (y - y0) else getpixel dst x y).

(** Two bitmaps are pixel-identical: same size, same pixel everywhere
    inside it. *)
Definition pixel_identical (a b : Image) : Prop :=
  width a = width b /\ height a = height b /\
  forall x y, in_image a x y = true -> getpixel a x y = getpixel b x y.

(** ** Exceptions and outcomes *)

Inductive Exn : Type :=
  | WebDriverException   (* raised by a driver call *)
  | FileNotFoundError
  | ValueError
  | ZeroDivisionError
  | TypeError.

Inductive Outcome (A : Type) : Type :=
  | Returned (a : A)
  | Raised (e : Exn).
Arguments Returned {A} a.
Arguments Raised {A} e.

(** Two outcomes agree up to [R] on what was returned. *)
Definition same_outcome {A} (R : A -> A -> Prop) (r1 r2 : Outcome A) : Prop :=
  match r1, r2 with
  | Returned a, Returned b => R a b
  | Raised e1, Raised e2 => e1 = e2
  | _, _ => False
  end.

(** ** The browser driver

    [execute_script] with the dimensions script, [execute_script] with
    [window.scrollTo(0, y)], and the bitmap [save_screenshot] writes.
    [None] is a raised [WebDriverException]; the driver's own state
    moves on either way. *)
Class WebDriver (D : Type) : Type := {
  script_page_dimensions : D -> option (Z * Z) * D;
  script_scroll_to : Z -> D -> option unit * D;
  screenshot_png : D -> option Image * D
}.

(** What the driver was asked to do, in order. *)
Inductive Event : Type :=
  | Scrolled (y : Z)
  | Captured (path : string) (img : Image)
  | HeightCached (h : Z).     (* self.actual_screenshot_height = h *)

Definition scroll_offsets (tr : list Event) : list Z :=
  omap (fun e => match e with Scrolled y => Some y | _ => None end) tr.

Definition captured_paths (tr : list Event) : list string :=
  omap (fun e => match e with Captured p _ => Some p | _ => None end) tr.

Definition cached_heights (tr : list Event) : list Z :=
  omap (fun e => match e with HeightCached h => Some h | _ => None end) tr.

Section Capture.

Context {D : Type} `{WebDriver D}.

(** ** Session state *)

Record Session : Type := mkSession {
  driver : D;                               (* self.driver *)
  actual_screenshot_height : option Z;      (* None until discovered *)
  files : gmap string Image;                (* the file system *)
  screenshots : list string;                (* local of capture_full_page *)
  trace : list Event
}.

Definition M (A : Type) : Type := Session -> Outcome A * Session.

Definition ret {A} (a : A) : M A := fun st => (Returned a, st).
Definition raise {A} (e : Exn) : M A := fun st => (Raised e, st).
Definition bind {A B} (m : M A) (k : A -> M B) : M B :=
  fun st =>
    match m st with
    | (Returned a, st') => k a st'
    | (Raised e, st') => (Raised e, st')
    end.

Global Instance M_ret : MRet M := @ret.
Global Instance M_bind : MBind M := fun A B k m => bind m k.

(** [try: body finally: fin]: [fin] runs on the state [body] left,
    whether it returned or raised. *)
Definition try_finally {A} (body : M A) (fin : M unit) : M A :=
  fun st =>
    match body st with
    | (r, st1) =>
        match fin st1 with
        | (Returned _, st2) => (r, st2)
        | (Raised e, st2) => (Raised e, st2)
        end
    end.

Fixpoint for_each {A} (l : list A) (body : A -> M unit) : M unit :=
  match l with
  | [] => ret tt
  | x :: l' => bind (body x) (fun _ => for_each l' body)
  end.

(** ** Primitive calls *)

Definition set_driver (d : D) (st : Session) : Session :=
  mkSession d (actual_screenshot_height st) (files st) (screenshots st) (trace st).
Definition set_height (h : option Z) (st : Session) : Session :=
  mkSession (driver st) h (files st) (screenshots st) (trace st).
Definition set_files (f : gmap string Image) (st : Session) : Session :=
  mkSession (driver st) (actual_screenshot_height st) f (screenshots st) (trace st).
Definition set_screenshots (l : list string) (st : Session) : Session :=
  mkSession (driver st) (actual_screenshot_height st) (files st) l (trace st).
Definition log (e : Event) (st : Session) : Session :=
  mkSession (driver st) (actual_screenshot_height st) (files st) (screenshots st)
            (trace st ++ [e]).

(** [self.get_page_dimensions()] *)
Definition get_page_dimensions : M (Z * Z) :=
  fun st =>
    match script_page_dimensions (driver st) with
    | (Some wh, d) => (Returned wh, set_driver d st)
    | (None, d) => (Raised WebDriverException, set_driver d st)
    end.

(** [self.driver.execute_script(f"window.scrollTo(0, {y})")] *)
Definition scrollTo (y : Z) : M unit :=
  fun st =>
    match script_scroll_to y (driver st) with
    | (Some _, d) => (Returned tt, log (Scrolled y) (set_driver d st))
    | (None, d) => (Raised WebDriverException, set_driver d st)
    end.

(** [self.driver.save_screenshot(path)] *)
Definition save_screenshot (path : string) : M unit :=
  fun st =>
    match screenshot_png (driver st) with
    | (Some img, d) =>
        (Returned tt,
         log (Captured path img)
             (set_files (<[path := img]> (files st)) (set_driver d st)))
    | (None, d) => (Raised WebDriverException, set_driver d st)
    end.

(** [Image.open(path)] *)
Definition Image_open (path : string) : M Image :=
  fun st =>
    match files st !! path with
    | Some img => (Returned img, st)
    | None => (Raised FileNotFoundError, st)
    end.

(** [img.save(path)] *)
Definition Image_save (img : Image) (path : string) : M unit :=
  fun st => (Returned tt, set_files (<[path := img]> (files st)) st).

(** [Image.new('RGB', (w, h))]: PIL refuses a negative size. *)
Definition Image_new (w h : Z) : M Image :=
  if (w <? 0) || (h <? 0) then raise ValueError
  else ret (mkImage w h (fun _ _ => black)).

(** [os.path.exists(path)] and [os.remove(path)] *)
Definition os_path_exists (path : string) : M bool :=
  fun st => (Returned (bool_decide (is_Some (files st !! path))), st).

Definition os_remove (path : string) : M unit :=
  fun st =>
    match files st !! path with
    | Some _ => (Returned tt, set_files (delete path (files st)) st)
    | None => (Raised FileNotFoundError, st)
    end.

(** [os.path.join(a, p)] on POSIX, for two components. *)
Definition starts_with_sep (p : string) : bool :=
  match p with
  | String c _ => Ascii.eqb c "/"
  | EmptyString => false
  end.

Fixpoint ends_with_sep (p : string) : bool :=
  match p with
  | EmptyString => false
  | String c EmptyString => Ascii.eqb c "/"
  | String _ rest => ends_with_sep rest
  end.

Definition os_path_join (a p : string) : string :=
  if starts_with_sep p then p
  else if String.eqb a "" || ends_with_sep a then a +:+ p
  else a +:+ "/" +:+ p.

(** The three file names the method builds. *)
Definition test_path (output_dir : string) : string :=
  os_path_join output_dir "test_screenshot.png".
Definition temp_path (output_dir crf_name : string) (i : Z) : string :=
  os_path_join output_dir ("temp_" +:+ crf_name +:+ "_" +:+ pretty i +:+ ".png").
Definition final_path (output_dir crf_name : string) : string :=
  os_path_join output_dir ("temp_" +:+ crf_name +:+ "_final.png").

(** ** capture_full_page *)

(** Python truth value of [self.actual_screenshot_height]: [None] and
    [0] are both false. *)
Definition truthy (h : option Z) : bool :=
  match h with
  | Some s => negb (s =? 0)
  | None => false
  end.

Definition get_screenshot_height : M (option Z) :=
  fun st => (Returned (actual_screenshot_height st), st).
Definition put_screenshot_height (h : Z) : M unit :=
  fun st => (Returned tt, log (HeightCached h) (set_height (Some h) st)).
Definition get_screenshots : M (list string) :=
  fun st => (Returned (screenshots st), st).
Definition put_screenshots (l : list string) : M unit :=
  fun st => (Returned tt, set_screenshots l st).
(** [screenshots.append(path)] *)
Definition screenshots_append (path : string) : M unit :=
  fun st => (Returned tt, set_screenshots (screenshots st ++ [path]) st).

(** Lines 141-145: one snapshot to [test_path], its height cached, the
    file removed. *)
Definition discover_screenshot_height (output_dir : string) : M unit :=
  save_screenshot (test_path output_dir);;
  img ← Image_open (test_path output_dir);
  put_screenshot_height (height img);;
  os_remove (test_path output_dir).

(** The attribute as the arithmetic of lines 147-148 needs it: an
    integer, and not zero. *)
Definition read_divisor : M Z :=
  h ← get_screenshot_height;
  match h with
  | None => raise TypeError
  | Some s => if s =? 0 then raise ZeroDivisionError else ret s
  end.

(** Lines 147-148; Python's [//] and [%] floor, as [Z.div] and
    [Z.modulo] do. *)
Definition num_full_scrolls (full_height s : Z) : Z := full_height / s.
Definition remaining_height (full_height s : Z) : Z := full_height mod s.

(** Lines 153-170, the body of [try] up to the stitching.  Nothing
    writes [self.actual_screenshot_height] after line 144, so the value
    [s] read at line 147 is the one lines 154 and 162 read. *)
Definition capture_slices (crf_name output_dir : string)
    (full_height s : Z) : M unit :=
  for_each (seqZ 0 (num_full_scrolls full_height s)) (fun i =>
    scrollTo (i * s);;
    save_screenshot (temp_path output_dir crf_name i);;
    screenshots_append (temp_path output_dir crf_name i));;
  if 0 <? remaining_height full_height s then
    scrollTo (full_height - s);;
    save_screenshot (final_path output_dir crf_name);;
    img ← Image_open (final_path output_dir crf_name);
    let crop_y := height img - remaining_height full_height s in
    let cropped := crop img (0, crop_y, width img, height img) in
    Image_save cropped (final_path output_dir crf_name);;
    screenshots_append (final_path output_dir crf_name)
  else ret tt.

(** [enumerate(l)] *)
Fixpoint enumerate_from {A} (i : Z) (l : list A) : list (Z * A) :=
  match l with
  | [] => []
  | x :: l' => (i, x) :: enumerate_from (i + 1) l'
  end.
Definition enumerate {A} (l : list A) : list (Z * A) := enumerate_from 0 l.

(** Lines 176-184: the paste loop, with its locals [final_image] and
    [y_offset] and its [break]. *)
Fixpoint stitch_loop (items : list (Z * string)) (len : Z)
    (full_height remaining : Z) (final_image : Image) (y_offset : Z)
    : M Image :=
  match items with
  | [] => ret final_image
  | (idx, path) :: rest =>
      img ← Image_open path;
      let img :=
        if (idx =? len - 1) && (0 <? remaining)
        then crop img (0, height img - remaining, width img, height img)
        else img in
      let paste_height := Z.min (height img) (full_height - y_offset) in
      let final_image := paste final_image img (0, y_offset) in
      let y_offset := y_offset + paste_height in
      if full_height <=? y_offset then ret final_image
      else stitch_loop rest len full_height remaining final_image y_offset
  end.

(** Lines 173-185.  [Some img] is the [return] inside [try]; [None]
    means control leaves the [try] block and reaches line 192. *)
Definition stitch (full_width full_height remaining : Z)
    : M (option Image) :=
  shots ← get_screenshots;
  match shots with
  | [] => ret None
  | _ :: _ =>
      blank ← Image_new full_width full_height;
      final_image ← stitch_loop (enumerate shots) (Z.of_nat (length shots))
                      full_height remaining blank 0;
      ret (Some (crop final_image (0, 0, full_width, full_height)))
  end.

(** Lines 186-190 *)
Definition cleanup : M unit :=
  shots ← get_screenshots;
  for_each shots (fun path =>
    present ← os_path_exists path;
    if (present : bool) then os_remove path else (ret tt : M unit)).

(** Lines 147-192, once the screenshot height [s] is known. *)
Definition capture_with_height (crf_name output_dir : string)
    (full_width full_height s : Z) : M (option Image) :=
  put_screenshots [];;
  try_finally
    (capture_slices crf_name output_dir full_height s;;
     stitch full_width full_height (remaining_height full_height s))
    cleanup.

(** A call starts with a fresh frame: the local [screenshots] is not
    bound yet, which the empty list stands for (nothing reads it before
    line 149 binds it). *)
Definition enter_frame : M unit := put_screenshots [].

(** The method.  [Returned None] is [return None] at line 192. *)
Definition capture_full_page (crf_name output_dir : string)
    : M (option Image) :=
  enter_frame;;
  '(full_width, full_height) ← get_page_dimensions;
  cached ← get_screenshot_height;
  (if negb (truthy cached) then discover_screenshot_height output_dir
   else ret tt);;
  s ← read_divisor;
  capture_with_height crf_name output_dir full_width full_height s.

(** The page loop of [main], as far as the capturer is concerned: each
    page is captured in turn, and a page that fails or raises is skipped
    ([except Exception ... continue]). *)
Fixpoint capture_pages (pages : list (string * string)) (st : Session)
    : Session :=
  match pages with
  | [] => st
  | (crf_name, output_dir) :: rest =>
      capture_pages rest (snd (capture_full_page crf_name output_dir st))
  end.

(** [PageCapturer(driver)] *)
Definition PageCapturer_init (d : D) (fs : gmap string Image) : Session :=
  mkSession d None fs [] [].

End Capture.

Arguments Session D : clear implicits.
Arguments M D A : clear implicits.

(** ** A scripted browser

    A driver to run the method on: a document of a given size whose
    pixel at [(x, y)] is [(x, y, 1)], a viewport of a given size, a
    scroll position that [scrollTo] clamps to the document as a browser
    does, and an optional number of calls after which every call
    raises. *)
Record Browser : Type := mkBrowser {
  doc_size : Z * Z;
  viewport : Z * Z;
  scroll_y : Z;
  calls_left : option nat
}.

Definition tick (b : Browser) : option Browser :=
  match calls_left b with
  | None => Some b
  | Some O => None
  | Some (S n) => Some (mkBrowser (doc_size b) (viewport b) (scroll_y b) (Some n))
  end.

Definition doc_pixel (b : Browser) (x y : Z) : Pixel :=
  if (0 <=? x) && (x <? fst (doc_size b)) && (0 <=? y) && (y <? snd (doc_size b))
  then (x, y, 1) else black.

#[export] Instance Browser_driver : WebDriver Browser := {
  script_page_dimensions b :=
    match tick b with
    | Some b' => (Some (doc_size b'), b')
    | None => (None, b)
    end;
  script_scroll_to y b :=
    match tick b with
    | Some b' =>
        let top := Z.max 0 (snd (doc_size b') - snd (viewport b')) in
        (Some tt, mkBrowser (doc_size b') (viewport b')
                            (Z.max 0 (Z.min y top)) (calls_left b'))
    | None => (None, b)
    end;
  screenshot_png b :=
    match tick b with
    | Some b' =>
        (Some (mkImage (fst (viewport b')) (snd (viewport b'))
                       (fun x y => doc_pixel b' x (scroll_y b' + y))), b')
    | None => (None, b)
    end
}.

(** A browser that never raises, showing a [w] x [h] document through a
    [vw] x [vh] viewport, and a fresh capturer on it. *)
Definition browser (w h vw vh : Z) : Browser := mkBrowser (w, h) (vw, vh) 0 None.
Definition fresh (b : Browser) : Session Browser := PageCapturer_init b ∅.

(** Two 2 x 2 bitmaps, and two sessions that recorded them under the
    same paths and differ in everything else. *)
Definition slice_a : Image := mkImage 2 2 (fun x y => (x, y, 1)).
Definition slice_b : Image := mkImage 2 2 (fun x y => (x, y + 2, 1)).
Definition recorded_1 : Session Browser :=
  mkSession (browser 2 3 2 2) (Some 2)
            (<["a" := slice_a]> (<["b" := slice_b]> ∅)) ["a"; "b"] [].
Definition recorded_2 : Session Browser :=
  mkSession (browser 9 9 9 9) None
            (<["c" := slice_b]> (<["a" := slice_a]> (<["b" := slice_b]> ∅)))
            ["a"; "b"] [Scrolled 7].

(** The image of an optional result, for reading its size. *)
Definition image_of (o : option Image) : Image :=
  default (mkImage 0 0 (fun _ _ => black)) o.

(** What a call returned, if it returned. *)
Definition returned_image (r : Outcome (option Image)) : option Image :=
  match r with
  | Returned v => v
  | Raised _ => None
  end.

Definition is_returned {A} (r : Outcome A) : bool :=
  match r with
  | Returned _ => true
  | Raised _ => false
  end.

Definition has_image (r : Outcome (option Image)) : bool :=
  match r with
  | Returned (Some _) => true
  | _ => false
  end.

(** ** The slice plan, read off the code

    What lines 153-162 ask of the driver when nothing raises: the
    offsets passed to [window.scrollTo] and the files the snapshots go
    to, in order. *)
Definition plan_offsets (full_height s : Z) : list Z :=
  ((fun i => i * s) <$> seqZ 0 (num_full_scrolls full_height s))
  ++ (if 0 <? remaining_height full_height s then [full_height - s] else []).

Definition plan_paths (crf_name output_dir : string) (full_height s : Z)
    : list string :=
  (temp_path output_dir crf_name <$> seqZ 0 (num_full_scrolls full_height s))
  ++ (if 0 <? remaining_height full_height s
      then [final_path output_dir crf_name] else []).

Definition plan_finals (full_height s : Z) : list bool :=
  ((fun _ => false) <$> seqZ 0 (num_full_scrolls full_height s))
  ++ (if 0 <? remaining_height full_height s then [true] else []).

(** The crop of lines 167-168 and of line 179. *)
Definition crop_bottom (img : Image) (remaining : Z) : Image :=
  crop img (0, height img - remaining, width img, height img).

(** ** Slices

    A record of one snapshot of a run: where the page was scrolled to,
    the file the snapshot went to, the bitmap the driver returned, and
    whether it is the final (cropped) one. *)
Record Slice : Type := mkSlice {
  scroll_offset : Z;
  slice_path : string;
  raw_image : Image;
  is_final : bool
}.

Definition slice_events (sl : Slice) : list Event :=
  [Scrolled (scroll_offset sl); Captured (slice_path sl) (raw_image sl)].

(** The bitmap a slice leaves in its file. *)
Definition slice_file (remaining : Z) (sl : Slice) : Image :=
  if is_final sl then crop_bottom (raw_image sl) remaining else raw_image sl.

Definition write_slices (remaining : Z) (fs : gmap string Image)
    (slices : list Slice) : gmap string Image :=
  foldl (fun fs sl => <[slice_path sl := slice_file remaining sl]> fs) fs slices.

(** The bitmap the paste loop pastes for the file at index [idx] of
    [len]: line 178-179 crop the last one when there is a remainder. *)
Definition effective (remaining len idx : Z) (img : Image) : Image :=
  if (idx =? len - 1) && (0 <? remaining)
  then crop_bottom img remaining else img.

Definition sum_heights (imgs : list Image) : Z :=
  foldr (fun e acc => height e + acc) 0 imgs.

(** Every snapshot of a trace is [s] rows high: the viewport did not
    change size. *)
Definition snapshots_have_height (s : Z) (tr : list Event) : bool :=
  forallb (fun e => match e with
                    | Captured _ img => height img =? s
                    | _ => true
                    end) tr.

(** No discovery of a trace measured a height of 0. *)
Definition heights_nonzero (tr : list Event) : bool :=
  forallb (fun h => negb (h =? 0)) (cached_heights tr).

(** The files left once every path of a list was removed. *)
Definition remove_all (paths : list string) (fs : gmap string Image)
    : gmap string Image :=
  foldl (fun fs p => delete p fs) fs paths.

(** * More of the capturer: what a stitched image shows *)

(** The bitmap [img] shows the rows of the document [doc] from row
    [offset] on. *)
Definition shows (doc : Z -> Z -> Pixel) (offset : Z) (img : Image) : Prop :=
  forall x y, in_image img x y = true -> getpixel img x y = doc x (offset + y).

(** Every snapshot of a trace that follows a scroll shows the document
    at the offset scrolled to. *)
Fixpoint slices_show (doc : Z -> Z -> Pixel) (tr : list Event) : Prop :=
  match tr with
  | [] => True
  | Scrolled o :: ((Captured _ img :: tr') as rest) =>
      shows doc o img /\ slices_show doc tr'
  | _ :: tr' => slices_show doc tr'
  end.

(** Every snapshot of a trace is at least [w] columns wide. *)
Definition snapshots_wide (w : Z) (tr : list Event) : bool :=
  forallb (fun e => match e with
                    | Captured _ img => w <=? width img
                    | _ => true
                    end) tr.

(** * sanitize_filename

    Line 76.  A Python string is read as the sequence of its code
    points, each below 256, which is what [string] holds. *)

(** The characters of the class in the pattern of line 76: the nine
    characters Windows refuses in a file name. *)
Definition invalid_chars : list ascii :=
  ["<"; ">"; ":"; "034"; "/"; "\"; "|"; "?"; "*"]%char.

Definition invalid_char (c : ascii) : bool :=
  existsb (Ascii.eqb c) invalid_chars.

(** [re.sub(pattern, '_', name)]: every match of the one-character class
    is replaced, the rest is kept. *)
Fixpoint re_sub_invalid (name : string) : string :=
  match name with
  | EmptyString => EmptyString
  | String c rest =>
      String (if invalid_char c then "_"%char else c) (re_sub_invalid rest)
  end.

(** [str.isspace] on one code point below 256: TAB to CR, FS to US,
    the space, NEL and the no-break space. *)
Definition isspace (c : ascii) : bool :=
  let n := N_of_ascii c in
  ((9 <=? n) && (n <=? 13) || (28 <=? n) && (n <=? 32)
   || (n =? 133) || (n =? 160))%N.

Fixpoint lstrip (s : string) : string :=
  match s with
  | EmptyString => EmptyString
  | String c rest => if isspace c then lstrip rest else s
  end.

Fixpoint rstrip (s : string) : string :=
  match s with
  | EmptyString => EmptyString
  | String c rest =>
      match rstrip rest with
      | EmptyString => if isspace c then EmptyString else String c EmptyString
      | kept => String c kept
      end
  end.

(** [s.strip()] *)
Definition strip (s : string) : string := rstrip (lstrip s).

Definition sanitize_filename (name : string) : string :=
  strip (re_sub_invalid name).

Definition first_char (s : string) : option ascii :=
  match s with
  | EmptyString => None
  | String c _ => Some c
  end.

Fixpoint last_char (s : string) : option ascii :=
  match s with
  | EmptyString => None
  | String c EmptyString => Some c
  | String _ rest => last_char rest
  end.

(** No character of [s] is one of the nine. *)
Fixpoint no_invalid_char (s : string) : bool :=
  match s with
  | EmptyString => true
  | String c rest => negb (invalid_char c) && no_invalid_char rest
  end.

(** [s] neither starts nor ends with white space. *)
Definition stripped (s : string) : bool :=
  negb (from_option isspace false (first_char s))
  && negb (from_option isspace false (last_char s)).

(** A name [sanitize_filename] has nothing to do on. *)
Definition clean_name (s : string) : bool := no_invalid_char s && stripped s.

(** * prepare_page and main *)

(** A cell of the sheet as [pandas] hands it over: text, or something
    else (a number; NaN for an empty cell). *)
Inductive Cell : Type :=
  | Text (s : string)
  | NotText.

(** What [prepare_page] and [main] ask of the driver beyond the three
    calls of the capturer.  [None] is a call that raised. *)
Class PageDriver (D : Type) : Type := {
  driver_get : Cell -> D -> option unit * D;        (* line 98 *)
  script_remove_overlays : D -> option unit * D;    (* lines 100-103 *)
  script_show_options : D -> option unit * D;       (* lines 104-114 *)
  script_hide_overflow : D -> option unit * D;      (* line 116 *)
  driver_quit : D -> D                              (* line 269 *)
}.

(** A file whose name ends in [.pdf]: a document PyPDF2 can read, with
    its pages and the titles of its top-level outline items, or anything
    else, the empty file among it. *)
Inductive PdfFile : Type :=
  | Unreadable
  | Document (pages : list Image) (outline : list string).

(** [img2pdf.convert] refuses some images; which ones is left open. *)
Class Img2pdf : Type := {
  img2pdf_accepts : Image -> bool
}.

(** What [main] prints. *)
Inductive Line : Type :=
  | Processing (crf_name : string)
  | Created (pdf_path : string)
  | FailedToCapture (crf_name : string)
  | ErrorProcessing (crf_name : string)
  | Merged (merged_pdf_path : string)
  | Completed.

(** How [main] can end other than by returning: [re.sub] on a CRF cell
    that is not text (line 229 is outside the [try]), or
    [merger.append] on a file that is no PDF, or on no file. *)
Inductive Crash : Type :=
  | CrfTypeError
  | PdfReadError (pdf : string)
  | PdfNotFound (pdf : string).

(** ** posixpath *)

(** [s.rfind(c)]: the last index of [c] in [s], or -1. *)
Fixpoint rfind (x : ascii) (s : string) : Z :=
  match s with
  | EmptyString => -1
  | String c rest =>
      let r := rfind x rest in
      if 0 <=? r then r + 1 else if Ascii.eqb c x then 0 else -1
  end.

(** [s[i:]] and [s[:i]] for an index in range *)
Fixpoint string_drop (n : nat) (s : string) : string :=
  match n, s with
  | S n', String _ rest => string_drop n' rest
  | _, _ => s
  end.

Fixpoint string_take (n : nat) (s : string) : string :=
  match n, s with
  | S n', String c rest => String c (string_take n' rest)
  | _, _ => EmptyString
  end.

(** [os.path.basename(p)]: [p[p.rfind('/') + 1:]] *)
Definition basename (p : string) : string :=
  string_drop (Z.to_nat (rfind "/" p + 1)) p.

(** The loop of [genericpath._splitext]: is one of the characters from
    [i] up to [j] not a dot? *)
Fixpoint all_dots (s : string) : bool :=
  match s with
  | EmptyString => true
  | String c rest => Ascii.eqb c "." && all_dots rest
  end.

(** [os.path.splitext(p)]: the extension starts at the last dot, unless
    that dot comes before the last separator or has only dots between
    the separator and itself. *)
Definition splitext (p : string) : string * string :=
  let sepIndex := rfind "/" p in
  let dotIndex := rfind "." p in
  if (sepIndex <? dotIndex)
     && negb (all_dots (string_take (Z.to_nat (dotIndex - (sepIndex + 1)))
                          (string_drop (Z.to_nat (sepIndex + 1)) p)))
  then (string_take (Z.to_nat dotIndex) p, string_drop (Z.to_nat dotIndex) p)
  else (p, EmptyString).

(** Line 257 *)
Definition bookmark_name (pdf : string) : string := fst (splitext (basename pdf)).

Definition png_path (output_dir crf_name : string) : string :=
  os_path_join output_dir (crf_name +:+ ".png").
Definition pdf_path (output_dir crf_name : string) : string :=
  os_path_join output_dir (crf_name +:+ ".pdf").
Definition merged_pdf_path (output_dir : string) : string :=
  os_path_join output_dir "Rave EDC - CRF Casebook.pdf".

Section Main.

Context {D : Type} `{WebDriver D} `{PageDriver D} `{Img2pdf}.

(** One driver call that returns nothing. *)
Definition driver_call (call : D -> option unit * D) : M D unit :=
  fun st =>
    match call (driver st) with
    | (Some _, d) => (Returned tt, set_driver d st)
    | (None, d) => (Raised WebDriverException, set_driver d st)
    end.

(** Lines 93-116 *)
Definition prepare_page (url : Cell) : M D unit :=
  driver_call (driver_get url);;
  driver_call script_remove_overlays;;
  driver_call script_show_options;;
  driver_call script_hide_overflow.

(** ** The state of main

    The capturer with its driver and the bitmap files, the files whose
    name ends in [.pdf], the local [pdf_files], and what was printed. *)
Record MainState : Type := mkMain {
  capturer : Session D;
  pdfs : gmap string PdfFile;
  pdf_files : list string;
  stdout : list Line
}.

Definition set_capturer (c : Session D) (ms : MainState) : MainState :=
  mkMain c (pdfs ms) (pdf_files ms) (stdout ms).
Definition set_pdfs (fs : gmap string PdfFile) (ms : MainState) : MainState :=
  mkMain (capturer ms) fs (pdf_files ms) (stdout ms).
Definition pdf_files_append (pdf : string) (ms : MainState) : MainState :=
  mkMain (capturer ms) (pdfs ms) (pdf_files ms ++ [pdf]) (stdout ms).
Definition print (l : Line) (ms : MainState) : MainState :=
  mkMain (capturer ms) (pdfs ms) (pdf_files ms) (stdout ms ++ [l]).

(** [stitched.save(png_path)] at line 243.  PIL takes the format from
    the extension that [os.path.splitext] finds in the path and raises
    [ValueError] when it knows none, before it opens the file.  The path
    ends in [.png], so the extension found is [.png], or nothing when
    the name before it consists of dots only. *)
Definition Image_save_png (img : Image) (path : string) : M D unit :=
  if String.eqb (snd (splitext path)) ".png" then Image_save img path
  else raise ValueError.

(** Lines 243-247, with the stitched image at hand: the bitmap is
    saved, the PDF file is opened for writing, which leaves it empty,
    and only then is the bitmap converted. *)
Definition save_page (output_dir crf_name : string) (stitched : Image)
    (ms : MainState) : MainState :=
  match Image_save_png stitched (png_path output_dir crf_name) (capturer ms) with
  | (Raised _, c) => print (ErrorProcessing crf_name) (set_capturer c ms)
  | (Returned _, c) =>
      let ms1 := set_capturer c ms in
      let ms2 := set_pdfs (<[pdf_path output_dir crf_name := Unreadable]> (pdfs ms1))
                   ms1 in
      if img2pdf_accepts stitched then
        print (Created (pdf_path output_dir crf_name))
          (pdf_files_append (pdf_path output_dir crf_name)
             (set_pdfs (<[pdf_path output_dir crf_name := Document [stitched] []]>
                          (pdfs ms2)) ms2))
      else print (ErrorProcessing crf_name) ms2
  end.

(** Lines 231-252, one row of the sheet once its name is sanitized.
    Whatever the [try] block raises is caught at line 250. *)
Definition process_named_row (output_dir crf_name : string) (url : Cell)
    (ms : MainState) : MainState :=
  if bool_decide (is_Some (pdfs ms !! pdf_path output_dir crf_name)) then
    pdf_files_append (pdf_path output_dir crf_name) ms
  else
    let ms0 := print (Processing crf_name) ms in
    match (prepare_page url;; capture_full_page crf_name output_dir)
            (capturer ms0) with
    | (Returned (Some stitched), c) =>
        save_page output_dir crf_name stitched (set_capturer c ms0)
    | (Returned None, c) =>
        print (FailedToCapture crf_name) (set_capturer c ms0)
    | (Raised _, c) =>
        print (ErrorProcessing crf_name) (set_capturer c ms0)
    end.

(** Lines 229-252, one row of the sheet.  Line 229 is not inside the
    [try]: on a CRF cell that is not text [re.sub] raises [TypeError],
    and that ends [main]. *)
Definition process_row (output_dir : string) (row : Cell * Cell)
    (ms : MainState) : option Crash * MainState :=
  match fst row with
  | Text name =>
      (None, process_named_row output_dir (sanitize_filename name) (snd row) ms)
  | NotText => (Some CrfTypeError, ms)
  end.

(** Lines 228-252: the loop ends at the first row that raises outside
    the [try]. *)
Fixpoint process_rows (output_dir : string) (rows : list (Cell * Cell))
    (ms : MainState) : option Crash * MainState :=
  match rows with
  | [] => (None, ms)
  | row :: rest =>
      match process_row output_dir row ms with
      | (Some crash, ms') => (Some crash, ms')
      | (None, ms') => process_rows output_dir rest ms'
      end
  end.

(** [merger.append(pdf, outline_item=bookmark_name)] on the pages and
    the outline gathered so far. *)
Definition merger_append (fs : gmap string PdfFile) (pdf : string)
    (merger : list Image * list string)
    : Crash + list Image * list string :=
  match fs !! pdf with
  | None => inl (PdfNotFound pdf)
  | Some Unreadable => inl (PdfReadError pdf)
  | Some (Document pages _) =>
      inr (fst merger ++ pages, snd merger ++ [bookmark_name pdf])
  end.

(** Lines 256-258 *)
Fixpoint merger_append_all (fs : gmap string PdfFile) (listed : list string)
    (merger : list Image * list string)
    : Crash + list Image * list string :=
  match listed with
  | [] => inr merger
  | pdf :: rest =>
      match merger_append fs pdf merger with
      | inl crash => inl crash
      | inr merger' => merger_append_all fs rest merger'
      end
  end.

(** Lines 254-262.  The sources are read when they are appended, as
    PyPDF2 3 does; this matters only when the casebook's own path is one
    of the listed files. *)
Definition merge_pdfs (output_dir : string) (ms : MainState)
    : option Crash * MainState :=
  match pdf_files ms with
  | [] => (None, ms)
  | _ :: _ =>
      match merger_append_all (pdfs ms) (pdf_files ms) ([], []) with
      | inl crash => (Some crash, ms)
      | inr (pages, outline) =>
          (None,
           print (Merged (merged_pdf_path output_dir))
             (set_pdfs (<[merged_pdf_path output_dir := Document pages outline]>
                          (pdfs ms)) ms))
      end
  end.

(** Lines 265-267 *)
Definition cleanup_pdfs (ms : MainState) : MainState :=
  foldl (fun ms pdf =>
           if bool_decide (is_Some (pdfs ms !! pdf))
           then set_pdfs (delete pdf (pdfs ms)) ms else ms)
        ms (pdf_files ms).

(** Lines 225-270: [main] from the point where the browser is logged
    in, the output directory exists and the sheet was read.  [None] is
    the normal end. *)
Definition main (output_dir : string) (rows : list (Cell * Cell))
    (d : D) (bitmaps : gmap string Image) (documents : gmap string PdfFile)
    : option Crash * MainState :=
  let ms0 := mkMain (PageCapturer_init d bitmaps) documents [] [] in
  match process_rows output_dir rows ms0 with
  | (Some crash, ms1) => (Some crash, ms1)
  | (None, ms1) =>
      match merge_pdfs output_dir ms1 with
      | (Some crash, ms2) => (Some crash, ms2)
      | (None, ms2) =>
          let ms3 := cleanup_pdfs ms2 in
          (None,
           print Completed
             (set_capturer (set_driver (driver_quit (driver (capturer ms3)))
                              (capturer ms3)) ms3))
      end
  end.

End Main.

Arguments MainState D : clear implicits.

(** Does the character occur in the string? *)
Fixpoint occurs (x : ascii) (s : string) : bool :=
  match s with
  | EmptyString => false
  | String c rest => Ascii.eqb c x || occurs x rest
  end.

(** The sanitized name of a row of the sheet and its PDF file, when the
    CRF cell is text. *)
Definition row_name (row : Cell * Cell) : option string :=
  match fst row with
  | Text name => Some (sanitize_filename name)
  | NotText => None
  end.

Definition row_pdf (output_dir : string) (row : Cell * Cell) : option string :=
  pdf_path output_dir <$> row_name row.

(** The pages of the document at [pdf]; none when there is no document. *)
Definition pages_of (fs : gmap string PdfFile) (pdf : string) : list Image :=
  match fs !! pdf with
  | Some (Document pages _) => pages
  | _ => []
  end.

(** There is a document at [pdf] that PyPDF2 can read. *)
Definition readable (fs : gmap string PdfFile) (pdf : string) : Prop :=
  exists pages outline, fs !! pdf = Some (Document pages outline).

(** ** The scripted browser under main

    Every page of the sheet shows the same document; loading a page
    scrolls back to the top, and a URL cell that is not text makes
    [get] raise.  [img2pdf] is taken as it comes: a PNG that PIL wrote
    carries no resolution, so a pixel is 1/96 inch, which is 0.75
    points; a page with a side under 3 points is refused, and a page
    above 200 inches is scaled, not refused. *)
Definition scripted_call (b : Browser) : option unit * Browser :=
  match tick b with
  | Some b' => (Some tt, b')
  | None => (None, b)
  end.

#[export] Instance Browser_pages : PageDriver Browser := {
  driver_get url b :=
    match url, tick b with
    | Text _, Some b' =>
        (Some tt, mkBrowser (doc_size b') (viewport b') 0 (calls_left b'))
    | _, _ => (None, b)
    end;
  script_remove_overlays := scripted_call;
  script_show_options := scripted_call;
  script_hide_overflow := scripted_call;
  driver_quit b := b
}.

#[export] Instance img2pdf_default : Img2pdf := {
  img2pdf_accepts img :=
    (3 * 96 <=? 72 * width img) && (3 * 96 <=? 72 * height img)
}.

(** What one row prints: nothing when its PDF was there, and otherwise
    the announcement and one verdict. *)
Definition row_report (output_dir : string) (row : Cell * Cell)
    (report : list Line) : Prop :=
  exists crf_name,
    row_name row = Some crf_name /\
    (report = [] \/
     report = [Processing crf_name; Created (pdf_path output_dir crf_name)] \/
     report = [Processing crf_name; FailedToCapture crf_name] \/
     report = [Processing crf_name; ErrorProcessing crf_name]).

(** The reports after which the PDF of the row is listed. *)
Definition lists_row (report : list Line) : bool :=
  match report with
  | [] => true
  | [_; Created _] => true
  | _ => false
  end.

Definition listed_rows (output_dir : string)
    (rows : list (Cell * Cell)) (reports : list (list Line)) : list string :=
  omap (fun '(row, report) =>
          if lists_row report then row_pdf output_dir row else None)
       (zip rows reports).

(** * The file names are distinct *)

Lemma string_length_app (s1 s2 : string) :
  String.length (s1 +:+ s2) = (String.length s1 + String.length s2)%nat.
Proof. induction s1 as [|c s1 IH]; simpl; [done|]. by rewrite IH. Qed.

Lemma string_app_inj_r (s1 s2 t : string) :
  s1 +:+ t = s2 +:+ t -> s1 = s2.
Proof.
  revert s2. induction s1 as [|c s1 IH]; intros [|c2 s2] Heq; simpl in Heq.
  - done.
  - apply (f_equal String.length) in Heq.
    rewrite !string_length_app in Heq. simpl in Heq. lia.
  - apply (f_equal String.length) in Heq.
    rewrite !string_length_app in Heq. simpl in Heq. lia.
  - injection Heq as -> Heq. f_equal. by apply IH.
Qed.

Lemma os_path_join_inj (a p q : string) :
  starts_with_sep p = false -> starts_with_sep q = false ->
  os_path_join a p = os_path_join a q -> p = q.
Proof.
  unfold os_path_join. intros -> ->.
  destruct (String.eqb a "" || ends_with_sep a); intros Heq.
  - by apply (inj (String.app a)) in Heq.
  - apply (inj (String.app a)) in Heq. by apply (inj (String.app "/")) in Heq.
Qed.

(** A decimal numeral does not start with a letter. *)
Lemma pretty_N_go_no_letter (x : N) (s s' : string) :
  s <> String "f" s' -> pretty_N_go x s <> String "f" s'.
Proof.
  revert s. induction (N.lt_wf_0 x) as [x _ IH]; intros s Hs.
  destruct (decide (x = 0)%N) as [->|Hx].
  - by rewrite pretty_N_go_0.
  - rewrite pretty_N_go_step by lia.
    apply IH; [apply N.div_lt; lia|].
    unfold pretty_N_char. repeat case_match; discriminate.
Qed.

Lemma pretty_Z_not_final (i : Z) : pretty i <> "final".
Proof.
  destruct i as [|x|x]; [done| |done].
  unfold pretty, pretty_Z, pretty, pretty_positive, pretty, pretty_N.
  case_decide; [done|]. by apply pretty_N_go_no_letter.
Qed.

Lemma temp_path_inj output_dir crf_name : Inj (=) (=) (temp_path output_dir crf_name).
Proof.
  intros i j Heq. unfold temp_path in Heq.
  apply os_path_join_inj in Heq; [|done..].
  apply (inj (String.app "temp_")) in Heq.
  apply (inj (String.app crf_name)) in Heq.
  apply (inj (String.app "_")) in Heq.
  apply string_app_inj_r in Heq.
  by apply (inj pretty) in Heq.
Qed.

Lemma temp_path_not_final output_dir crf_name i :
  temp_path output_dir crf_name i <> final_path output_dir crf_name.
Proof.
  intros Heq. unfold temp_path, final_path in Heq.
  apply os_path_join_inj in Heq; [|done..].
  apply (inj (String.app "temp_")) in Heq.
  apply (inj (String.app crf_name)) in Heq.
  apply (inj (String.app "_")) in Heq.
  change "final.png" with ("final" +:+ ".png") in Heq.
  apply string_app_inj_r in Heq.
  by apply pretty_Z_not_final in Heq.
Qed.

(** The discovery snapshot does not go to the file of a slice. *)
Lemma test_path_not_final output_dir crf_name :
  test_path output_dir <> final_path output_dir crf_name.
Proof.
  intros Heq. unfold test_path, final_path in Heq.
  by apply os_path_join_inj in Heq.
Qed.

Lemma test_path_not_temp output_dir crf_name i :
  test_path output_dir <> temp_path output_dir crf_name i.
Proof.
  intros Heq. unfold test_path, temp_path in Heq.
  by apply os_path_join_inj in Heq.
Qed.

Lemma plan_paths_NoDup crf_name output_dir full_height s :
  NoDup (plan_paths crf_name output_dir full_height s).
Proof.
  unfold plan_paths. apply NoDup_app. split; [|split].
  - pose proof (temp_path_inj output_dir crf_name) as Hinj.
    apply (NoDup_fmap_2 _), NoDup_seqZ.
  - intros p Hp Hfin. apply list_elem_of_fmap in Hp as (i & -> & _).
    destruct (0 <? remaining_height full_height s).
    + apply list_elem_of_singleton in Hfin. by apply temp_path_not_final in Hfin.
    + by apply elem_of_nil in Hfin.
  - destruct (0 <? remaining_height full_height s).
    + apply NoDup_singleton.
    + apply NoDup_nil_2.
Qed.

(** * Reasoning about runs *)

Section Runs.

Context {D : Type} `{WebDriver D}.

Implicit Types st sta : Session D.

(** Weakest precondition: [Q] holds of the outcome and final state. *)
Definition wp {A} (m : M D A) (Q : Outcome A -> Session D -> Prop) st : Prop :=
  Q (fst (m st)) (snd (m st)).

Lemma wp_bind {A B} (m : M D A) (k : A -> M D B) Q st :
  wp m (fun r st1 =>
          match r with
          | Returned a => wp (k a) Q st1
          | Raised e => Q (Raised e) st1
          end) st ->
  wp (m ≫= k) Q st.
Proof.
  unfold wp, mbind, M_bind, bind.
  destruct (m st) as [[a|e] st1]; simpl; auto.
Qed.

Lemma wp_ret {A} (a : A) (Q : Outcome A -> Session D -> Prop) st :
  Q (Returned a) st -> wp (ret a) Q st.
Proof. auto. Qed.

Lemma wp_raise {A} e (Q : Outcome A -> Session D -> Prop) st :
  Q (Raised e) st -> wp (raise e) Q st.
Proof. auto. Qed.

Lemma wp_mono {A} (m : M D A) (Q Q' : Outcome A -> Session D -> Prop) st :
  wp m Q st -> (forall r st', Q r st' -> Q' r st') -> wp m Q' st.
Proof. unfold wp. auto. Qed.

Lemma wp_run {A} (m : M D A) Q st r st' :
  wp m Q st -> m st = (r, st') -> Q r st'.
Proof. unfold wp. intros HQ E. rewrite E in HQ. exact HQ. Qed.

(** A [for] loop: [I done] holds after the items [done] were processed;
    an iteration that raises must establish [E]. *)
Lemma wp_for_each {A} (body : A -> M D unit) (I : list A -> Session D -> Prop)
    (E : Exn -> Session D -> Prop) l :
  (forall done x st, I done st ->
     wp (body x) (fun r st1 =>
                    match r with
                    | Returned _ => I (done ++ [x]) st1
                    | Raised e => E e st1
                    end) st) ->
  forall done st, I done st ->
    wp (for_each l body) (fun r st1 =>
                            match r with
                            | Returned _ => I (done ++ l) st1
                            | Raised e => E e st1
                            end) st.
Proof.
  intros Hbody. induction l as [|x l IH]; intros done st HI.
  - apply wp_ret. by rewrite List.app_nil_r.
  - cbn [for_each]. apply (wp_bind (body x) (fun _ => for_each l body)).
    eapply wp_mono; [exact (Hbody done x st HI)|].
    intros [[]|e] st1; [|done].
    intros HI1. specialize (IH (done ++ [x]) st1 HI1).
    by rewrite <- List.app_assoc in IH.
Qed.

(** [try ... finally]: the [finally] block sees the state the body
    left; when it returns, the body's outcome stands. *)
Lemma wp_try_finally {A} (body : M D A) (fin : M D unit) Q st :
  wp body (fun r st1 =>
             wp fin (fun r2 st2 =>
                       match r2 with
                       | Returned _ => Q r st2
                       | Raised e => Q (Raised e) st2
                       end) st1) st ->
  wp (try_finally body fin) Q st.
Proof.
  unfold wp, try_finally.
  destruct (body st) as [r st1]; simpl.
  destruct (fin st1) as [[u|e] st2]; simpl; auto.
Qed.

(** ** Acquisition (lines 153-170) *)

(** [st1] is [st0] after the snapshots [slices] were taken and
    recorded. *)
Definition captured (remaining : Z) (slices : list Slice) st0 st1 : Prop :=
  trace st1 = trace st0 ++ flat_map slice_events slices /\
  screenshots st1 = screenshots st0 ++ (slice_path <$> slices) /\
  files st1 = write_slices remaining (files st0) slices /\
  actual_screenshot_height st1 = actual_screenshot_height st0.

(** What every run of the acquisition keeps, raised or not. *)
Definition frame st0 st1 : Prop :=
  actual_screenshot_height st1 = actual_screenshot_height st0 /\
  cached_heights (trace st1) = cached_heights (trace st0).

Lemma cached_heights_app tr1 tr2 :
  cached_heights (tr1 ++ tr2) = cached_heights tr1 ++ cached_heights tr2.
Proof. apply omap_app. Qed.

Lemma scroll_offsets_app tr1 tr2 :
  scroll_offsets (tr1 ++ tr2) = scroll_offsets tr1 ++ scroll_offsets tr2.
Proof. apply omap_app. Qed.

Lemma captured_paths_app tr1 tr2 :
  captured_paths (tr1 ++ tr2) = captured_paths tr1 ++ captured_paths tr2.
Proof. apply omap_app. Qed.

Lemma cached_heights_slices slices :
  cached_heights (flat_map slice_events slices) = [].
Proof. induction slices as [|sl slices IH]; [done|]. simpl. exact IH. Qed.

Lemma scroll_offsets_slices slices :
  scroll_offsets (flat_map slice_events slices) = scroll_offset <$> slices.
Proof. induction slices as [|sl slices IH]; [done|]. simpl. by rewrite IH. Qed.

Lemma captured_paths_slices slices :
  captured_paths (flat_map slice_events slices) = slice_path <$> slices.
Proof. induction slices as [|sl slices IH]; [done|]. simpl. by rewrite IH. Qed.

Lemma captured_frame remaining slices st0 st1 :
  captured remaining slices st0 st1 -> frame st0 st1.
Proof.
  intros (Htr & _ & _ & Hh). split; [done|].
  by rewrite Htr, cached_heights_app, cached_heights_slices, List.app_nil_r.
Qed.

Lemma captured_nil remaining st : captured remaining [] st st.
Proof.
  unfold captured. simpl.
  by rewrite (List.app_nil_r (trace st)), (List.app_nil_r (screenshots st)).
Qed.

Lemma write_slices_snoc remaining fs slices sl :
  write_slices remaining fs (slices ++ [sl])
  = <[slice_path sl := slice_file remaining sl]> (write_slices remaining fs slices).
Proof. unfold write_slices. by rewrite foldl_app. Qed.

Lemma captured_snoc remaining slices sl st0 st1 st2 :
  captured remaining slices st0 st1 ->
  trace st2 = trace st1 ++ slice_events sl ->
  screenshots st2 = screenshots st1 ++ [slice_path sl] ->
  files st2 = <[slice_path sl := slice_file remaining sl]> (files st1) ->
  actual_screenshot_height st2 = actual_screenshot_height st1 ->
  captured remaining (slices ++ [sl]) st0 st2.
Proof.
  intros (Htr & Hsh & Hfs & Hh) Htr2 Hsh2 Hfs2 Hh2. unfold captured.
  rewrite Htr2, Hsh2, Hfs2, Hh2, Htr, Hsh, Hfs, Hh.
  rewrite flat_map_app, fmap_app, write_slices_snoc. simpl.
  by rewrite ?List.app_nil_r, <- ?List.app_assoc.
Qed.

(** One full scroll: lines 154-158. *)
Lemma full_scroll_spec crf_name output_dir s remaining i slices st0 st :
  captured remaining slices st0 st ->
  wp (scrollTo (i * s);;
      save_screenshot (temp_path output_dir crf_name i);;
      screenshots_append (temp_path output_dir crf_name i))
     (fun r st1 =>
        match r with
        | Returned _ =>
            exists img,
              captured remaining
                (slices ++ [mkSlice (i * s) (temp_path output_dir crf_name i) img false])
                st0 st1
        | Raised e => e = WebDriverException /\ frame st0 st1
        end) st.
Proof.
  intros Hc. pose proof (captured_frame _ _ _ _ Hc) as [Hf1 Hf2].
  unfold wp, mbind, M_bind, bind, scrollTo, save_screenshot, screenshots_append.
  destruct (script_scroll_to (i * s) (driver st)) as [[[]|] d1]; simpl.
  - destruct (screenshot_png d1) as [[img|] d2]; simpl.
    + exists img. eapply captured_snoc; [exact Hc|..]; simpl; try done.
      by rewrite <- List.app_assoc.
    + split; [done|]. split; simpl; [done|].
      by rewrite cached_heights_app, List.app_nil_r.
  - by split.
Qed.

(** The leftover part: lines 162-170. *)
Lemma final_scroll_spec crf_name output_dir full_height s slices st0 st :
  captured (remaining_height full_height s) slices st0 st ->
  wp (scrollTo (full_height - s);;
      save_screenshot (final_path output_dir crf_name);;
      img ← Image_open (final_path output_dir crf_name);
      let crop_y := height img - remaining_height full_height s in
      let cropped := crop img (0, crop_y, width img, height img) in
      Image_save cropped (final_path output_dir crf_name);;
      screenshots_append (final_path output_dir crf_name))
     (fun r st1 =>
        match r with
        | Returned _ =>
            exists raw,
              captured (remaining_height full_height s)
                (slices ++ [mkSlice (full_height - s)
                                    (final_path output_dir crf_name) raw true])
                st0 st1
        | Raised e => e = WebDriverException /\ frame st0 st1
        end) st.
Proof.
  intros Hc. pose proof (captured_frame _ _ _ _ Hc) as [Hf1 Hf2].
  unfold wp, mbind, M_bind, bind, scrollTo, save_screenshot, Image_open,
    Image_save, screenshots_append.
  destruct (script_scroll_to (full_height - s) (driver st)) as [[[]|] d1]; simpl.
  - destruct (screenshot_png d1) as [[raw|] d2]; simpl.
    + rewrite lookup_insert_eq. simpl.
      exists raw. eapply captured_snoc; [exact Hc|..]; simpl; try done.
      * by rewrite <- List.app_assoc.
      * by rewrite insert_insert_eq.
    + split; [done|]. split; simpl; [done|].
      by rewrite cached_heights_app, List.app_nil_r.
  - by split.
Qed.

(** A run of the acquisition followed the plan. *)
Definition planned (crf_name output_dir : string) (full_height s : Z)
    (slices : list Slice) : Prop :=
  scroll_offset <$> slices = plan_offsets full_height s /\
  slice_path <$> slices = plan_paths crf_name output_dir full_height s /\
  is_final <$> slices = plan_finals full_height s.

Lemma capture_slices_spec crf_name output_dir full_height s st :
  wp (capture_slices crf_name output_dir full_height s)
     (fun r st1 =>
        match r with
        | Returned _ =>
            exists slices,
              captured (remaining_height full_height s) slices st st1 /\
              planned crf_name output_dir full_height s slices
        | Raised e => e = WebDriverException /\ frame st st1
        end) st.
Proof.
  unfold capture_slices. apply wp_bind.
  set (rem := remaining_height full_height s).
  set (I := fun (done : list Z) (st1 : Session D) =>
              exists slices,
                captured rem slices st st1 /\
                scroll_offset <$> slices = (fun i => i * s) <$> done /\
                slice_path <$> slices = temp_path output_dir crf_name <$> done /\
                is_final <$> slices = (fun _ => false) <$> done).
  eapply wp_mono.
  - apply (wp_for_each _ I (fun e st1 => e = WebDriverException /\ frame st st1)
             (seqZ 0 (num_full_scrolls full_height s))) with (done := []).
    + intros done i st1 (slices & Hc & Ho & Hp & Hf).
      eapply wp_mono; [exact (full_scroll_spec _ _ s _ i _ _ _ Hc)|].
      intros [[]|e] st2; [|done].
      intros [img Hc2]. eexists. split; [exact Hc2|].
      rewrite !fmap_app, Ho, Hp, Hf. done.
    + exists []. split; [apply captured_nil|done].
  - intros [[]|e] st1; [|done]. simpl.
    intros (slices & Hc & Ho & Hp & Hf).
    fold rem. destruct (0 <? rem) eqn:Hrem.
    + eapply wp_mono; [exact (final_scroll_spec _ _ _ _ _ _ _ Hc)|].
      intros [[]|e] st2; [|done].
      intros [raw Hc2]. eexists. split; [exact Hc2|].
      unfold planned, plan_offsets, plan_paths, plan_finals. fold rem.
      rewrite Hrem, !fmap_app, Ho, Hp, Hf. done.
    + apply wp_ret. exists slices. split; [done|].
      unfold planned, plan_offsets, plan_paths, plan_finals. fold rem.
      rewrite Hrem, !List.app_nil_r. done.
Qed.

(** ** Cleanup (lines 186-190) *)

Lemma remove_all_lookup_None paths fs p :
  fs !! p = None -> remove_all paths fs !! p = None.
Proof.
  revert fs. induction paths as [|q paths IH]; intros fs Hp; [done|].
  simpl. apply IH. rewrite lookup_delete_None. by right.
Qed.

Lemma remove_all_removes paths fs p :
  p ∈ paths -> remove_all paths fs !! p = None.
Proof.
  revert fs. induction paths as [|q paths IH]; intros fs Hin.
  - by apply elem_of_nil in Hin.
  - apply elem_of_cons in Hin as [->|Hin]; simpl.
    + apply remove_all_lookup_None, lookup_delete_eq.
    + by apply IH.
Qed.

Lemma remove_all_other paths fs p :
  p ∉ paths -> remove_all paths fs !! p = fs !! p.
Proof.
  revert fs. induction paths as [|q paths IH]; intros fs Hin; [done|].
  apply not_elem_of_cons in Hin as [Hne Hin]. simpl.
  rewrite IH by done. by apply lookup_delete_ne.
Qed.

(** [st2] is [st1] with every recorded screenshot removed. *)
Definition cleaned st1 st2 : Prop :=
  st2 = set_files (remove_all (screenshots st1) (files st1)) st1.

Lemma cleanup_spec st :
  wp cleanup (fun r st2 => r = Returned tt /\ cleaned st st2) st.
Proof.
  unfold cleanup. apply wp_bind. unfold wp at 1. simpl.
  set (I := fun (done : list string) (st1 : Session D) =>
              st1 = set_files (remove_all done (files st)) st).
  eapply wp_mono.
  - apply (wp_for_each _ I (fun _ _ => False) (screenshots st)) with (done := []).
    + intros done p st1 ->.
      unfold wp, mbind, M_bind, bind, os_path_exists, os_remove. simpl.
      unfold I, remove_all. rewrite foldl_app. simpl.
      destruct (remove_all done (files st) !! p) as [img|] eqn:E;
        unfold remove_all in E; rewrite E; simpl; rewrite ?E; simpl.
      * done.
      * by rewrite delete_id.
    + unfold I. by destruct st.
  - intros [[]|e] st2; [|done]. by intros ->.
Qed.

Lemma cleaned_no_artifact st1 st2 :
  cleaned st1 st2 ->
  Forall (fun p => files st2 !! p = None) (screenshots st2).
Proof.
  intros ->. simpl. apply Forall_forall. intros p Hin.
  by apply remove_all_removes.
Qed.

(** ** Stitching (lines 173-185) *)

Lemma stitch_loop_cons idx path rest len full_height remaining acc y st :
  stitch_loop ((idx, path) :: rest) len full_height remaining acc y st
  = match files st !! path with
    | None => (Raised FileNotFoundError, st)
    | Some img =>
        let img := effective remaining len idx img in
        let acc' := paste acc img (0, y) in
        let y' := y + Z.min (height img) (full_height - y) in
        if full_height <=? y' then (Returned acc', st)
        else stitch_loop rest len full_height remaining acc' y' st
    end.
Proof.
  cbn [stitch_loop]. unfold mbind, M_bind, bind, Image_open.
  destruct (files st !! path) as [img|]; [|done].
  cbv zeta. unfold crop_bottom.
  by destruct (full_height <=? _).
Qed.

(** The paste loop only reads. *)
Lemma stitch_loop_state items len full_height remaining acc y st :
  snd (stitch_loop items len full_height remaining acc y st) = st.
Proof.
  revert acc y. induction items as [|[idx path] rest IH]; intros acc y; [done|].
  rewrite stitch_loop_cons.
  destruct (files st !! path) as [img|]; [|done].
  cbv zeta. destruct (full_height <=? _); [done|apply IH].
Qed.

(** It raises only when a file is missing. *)
Lemma stitch_loop_returns items len full_height remaining acc y st :
  Forall (fun ip => is_Some (files st !! snd ip)) items ->
  exists out, fst (stitch_loop items len full_height remaining acc y st)
              = Returned out /\
              width out = width acc /\ height out = height acc.
Proof.
  intros Hfiles. revert acc y.
  induction Hfiles as [|[idx path] rest [img Hp] _ IH]; intros acc y.
  - by exists acc.
  - rewrite stitch_loop_cons. simpl in Hp. rewrite Hp. cbv zeta.
    destruct (full_height <=? _).
    + by eexists.
    + destruct (IH (paste acc (effective remaining len idx img) (0, y))
                   (y + Z.min (height (effective remaining len idx img))
                              (full_height - y)))
        as (out & Hout & Hw & Hh).
      exists out. by split.
Qed.

Lemma enumerate_from_snd {A} (i : Z) (l : list A) :
  snd <$> enumerate_from i l = l.
Proof.
  revert i. induction l as [|x l IH]; intros i; [done|].
  simpl. by rewrite IH.
Qed.

Lemma Forall_enumerate_from {A} (P : A -> Prop) (i : Z) (l : list A) :
  Forall P l -> Forall (fun ip => P (snd ip)) (enumerate_from i l).
Proof.
  intros HP. revert i. induction HP as [|x l Hx _ IH]; intros i; simpl.
  - constructor.
  - constructor; [done|apply IH].
Qed.

Lemma stitch_eq full_width full_height remaining st :
  stitch full_width full_height remaining st
  = match screenshots st with
    | [] => (Returned None, st)
    | _ :: _ =>
        if (full_width <? 0) || (full_height <? 0) then (Raised ValueError, st)
        else
          match stitch_loop (enumerate (screenshots st))
                  (Z.of_nat (length (screenshots st))) full_height remaining
                  (mkImage full_width full_height (fun _ _ => black)) 0 st with
          | (Returned out, st1) =>
              (Returned (Some (crop out (0, 0, full_width, full_height))), st1)
          | (Raised e, st1) => (Raised e, st1)
          end
    end.
Proof.
  unfold stitch, mbind, M_bind, bind, get_screenshots, Image_new.
  destruct (screenshots st) as [|p shots]; [done|].
  by destruct ((full_width <? 0) || (full_height <? 0)).
Qed.

Lemma stitch_state full_width full_height remaining st :
  snd (stitch full_width full_height remaining st) = st.
Proof.
  rewrite stitch_eq.
  destruct (screenshots st) as [|p shots]; [done|].
  destruct ((full_width <? 0) || (full_height <? 0)); [done|].
  pose proof (stitch_loop_state (enumerate (p :: shots))
                (Z.of_nat (length (p :: shots))) full_height remaining
                (mkImage full_width full_height (fun _ _ => black)) 0 st) as Hst.
  by destruct (stitch_loop _ _ _ _ _ _ st) as [[out|e] st1].
Qed.

(** A stitched image has the size of the document. *)
Lemma stitch_size full_width full_height remaining st out :
  fst (stitch full_width full_height remaining st) = Returned (Some out) ->
  width out = full_width /\ height out = full_height.
Proof.
  rewrite stitch_eq.
  destruct (screenshots st) as [|p shots]; [done|].
  destruct ((full_width <? 0) || (full_height <? 0)); [done|].
  destruct (stitch_loop _ _ _ _ _ _ st) as [[o|e] s1]; simpl; [|done].
  intros [= <-]. simpl. lia.
Qed.

(** No recorded screenshot, no image: control leaves the [try] block. *)
Lemma stitch_nothing full_width full_height remaining st :
  screenshots st = [] ->
  stitch full_width full_height remaining st = (Returned None, st).
Proof. intros Hs. by rewrite stitch_eq, Hs. Qed.

(** With a screenshot recorded, a document size PIL accepts and every
    recorded file in place, stitching returns an image. *)
Lemma stitch_something full_width full_height remaining st :
  screenshots st <> [] ->
  0 <= full_width -> 0 <= full_height ->
  Forall (fun p => is_Some (files st !! p)) (screenshots st) ->
  exists out, stitch full_width full_height remaining st
              = (Returned (Some out), st).
Proof.
  intros Hne Hw Hh Hfiles.
  pose proof (stitch_state full_width full_height remaining st) as Hst.
  revert Hst. rewrite stitch_eq.
  destruct (screenshots st) as [|p shots]; [done|].
  replace ((full_width <? 0) || (full_height <? 0)) with false by lia.
  destruct (stitch_loop_returns (enumerate (p :: shots))
              (Z.of_nat (length (p :: shots))) full_height remaining
              (mkImage full_width full_height (fun _ _ => black)) 0 st
              (Forall_enumerate_from _ 0 _ Hfiles)) as (out & Hout & _).
  destruct (stitch_loop _ _ _ _ _ _ st) as [[o|e] s1]; simpl in *; [|done].
  intros ->. eexists. reflexivity.
Qed.

(** A recorded screenshot is never answered with [None]. *)
Lemma stitch_not_none full_width full_height remaining st :
  screenshots st <> [] ->
  fst (stitch full_width full_height remaining st) <> Returned None.
Proof.
  intros Hne. rewrite stitch_eq.
  destruct (screenshots st) as [|p shots]; [done|].
  destruct ((full_width <? 0) || (full_height <? 0)); [done|].
  by destruct (stitch_loop _ _ _ _ _ _ st) as [[o|e] s1].
Qed.

(** ** The method as a whole *)

(** The [try] block ran from [st0] to [st1] with outcome [r]: either a
    driver call raised during acquisition, or the acquisition followed
    the plan and [r] is what stitching the recorded files gives. *)
Definition acquired (crf_name output_dir : string) (full_width full_height s : Z)
    st0 st1 (r : Outcome (option Image)) : Prop :=
  (r = Raised WebDriverException /\ frame st0 st1) \/
  (exists slices,
     captured (remaining_height full_height s) slices st0 st1 /\
     planned crf_name output_dir full_height s slices /\
     stitch full_width full_height (remaining_height full_height s) st1
     = (r, st1)).

Lemma capture_with_height_spec crf_name output_dir full_width full_height s st :
  screenshots st = [] ->
  wp (capture_with_height crf_name output_dir full_width full_height s)
     (fun r st' =>
        exists st1,
          acquired crf_name output_dir full_width full_height s st st1 r /\
          cleaned st1 st') st.
Proof.
  intros Hempty. unfold capture_with_height.
  apply wp_bind. unfold wp at 1. simpl.
  apply wp_try_finally, wp_bind.
  eapply wp_mono; [apply capture_slices_spec|].
  intros [[]|e] st1.
  - intros (slices & Hc & Hp).
    assert (captured (remaining_height full_height s) slices st st1) as Hc'.
    { destruct Hc as (? & ? & ? & ?). unfold captured. simpl in *.
      by rewrite Hempty. }
    pose proof (stitch_state full_width full_height
                  (remaining_height full_height s) st1) as Hst.
    unfold wp at 1.
    destruct (stitch _ _ _ st1) as [r st1'] eqn:Hstitch.
    simpl in Hst. subst st1'. simpl.
    eapply wp_mono; [apply cleanup_spec|].
    intros r2 st2 [-> Hcl]. exists st1. split; [|done].
    right. by exists slices.
  - intros [-> Hf].
    eapply wp_mono; [apply cleanup_spec|].
    intros r2 st2 [-> Hcl]. exists st1. split; [|done].
    left. split; [done|]. destruct Hf as [? ?]. by split.
Qed.

(** The state at line 147: the height [s] is cached, either from an
    earlier call or by the discovery of lines 141-145. *)
Definition discovered (output_dir : string) st (s : Z) sta : Prop :=
  actual_screenshot_height sta = Some s /\ s <> 0 /\ screenshots sta = [] /\
  ((actual_screenshot_height st = Some s /\
    trace sta = trace st /\ files sta = files st)
   \/
   (truthy (actual_screenshot_height st) = false /\
    exists d img d',
      screenshot_png d = (Some img, d') /\ s = height img /\
      trace sta = trace st ++ [Captured (test_path output_dir) img; HeightCached s] /\
      files sta = delete (test_path output_dir) (files st))).

(** The call raised before line 147. *)
Definition failed_early st (r : Outcome (option Image)) st' : Prop :=
  screenshots st' = [] /\
  scroll_offsets (trace st') = scroll_offsets (trace st) /\
  ((r = Raised WebDriverException /\ frame st st') \/
   (r = Raised ZeroDivisionError /\
    truthy (actual_screenshot_height st) = false /\
    actual_screenshot_height st' = Some 0 /\
    cached_heights (trace st') = cached_heights (trace st) ++ [0])).

Lemma capture_full_page_spec crf_name output_dir st r st' :
  capture_full_page crf_name output_dir st = (r, st') ->
  failed_early st r st' \/
  exists full_width full_height d s sta st1,
    script_page_dimensions (driver st) = (Some (full_width, full_height), d) /\
    discovered output_dir st s sta /\
    acquired crf_name output_dir full_width full_height s sta st1 r /\
    cleaned st1 st'.
Proof.
  unfold capture_full_page, enter_frame.
  unfold mbind at 1 2 3 4 5, M_bind at 1 2 3 4 5, bind at 1 2 3 4 5.
  unfold put_screenshots at 1, get_page_dimensions, get_screenshot_height.
  simpl.
  destruct (script_page_dimensions (driver st)) as [[[full_width full_height]|] d];
    simpl.
  2: { intros ?; simplify_eq. left. unfold failed_early, frame. simpl. tauto. }
  destruct (truthy (actual_screenshot_height st)) eqn:Htruthy; simpl.
  - (* the height is cached *)
    unfold read_divisor, mbind, M_bind, bind, get_screenshot_height. simpl.
    destruct (actual_screenshot_height st) as [s|] eqn:Hs; [|done].
    simpl in Htruthy. destruct (s =? 0) eqn:Hs0; [done|].
    intros Hrun. right.
    exists full_width, full_height, d, s.
    eexists. 
    pose proof (capture_with_height_spec crf_name output_dir full_width
                  full_height s
                  (set_driver d (set_screenshots [] st)) eq_refl) as Hwp.
    apply (wp_run _ _ _ _ _ Hwp) in Hrun as (st1 & Hacq & Hcl).
    exists st1. split; [done|]. split; [|done].
    unfold discovered. simpl. split; [done|]. split; [lia|]. split; [done|].
    left. done.
  - (* discovery *)
    unfold discover_screenshot_height, read_divisor.
    unfold mbind, M_bind, bind, save_screenshot, Image_open,
      put_screenshot_height, os_remove, get_screenshot_height. simpl.
    destruct (screenshot_png d) as [[img|] d'] eqn:Hshot; simpl.
    2: { intros ?; simplify_eq. left. unfold failed_early, frame. simpl. tauto. }
    rewrite lookup_insert_eq. simpl. rewrite lookup_insert_eq. simpl.
    destruct (height img =? 0) eqn:Hh0; unfold raise, ret; simpl.
    { intros ?; simplify_eq. left. unfold failed_early. simpl.
      rewrite !scroll_offsets_app, !cached_heights_app. simpl.
      rewrite !List.app_nil_r.
      split; [done|]. split; [done|]. right.
      assert (height img = 0) as -> by lia. done. }
    intros Hrun. right.
    exists full_width, full_height, d, (height img).
    eexists.
    match type of Hrun with
    | capture_with_height _ _ _ _ _ ?st0 = _ =>
        pose proof (capture_with_height_spec crf_name output_dir full_width
                      full_height (height img) st0 eq_refl) as Hwp
    end.
    apply (wp_run _ _ _ _ _ Hwp) in Hrun as (st1 & Hacq & Hcl).
    exists st1. split; [done|]. split; [|done].
    unfold discovered. simpl. split; [done|]. split; [lia|]. split; [done|].
    right. split; [done|]. exists d, img, d'.
    rewrite <- List.app_assoc, delete_insert_eq. done.
Qed.

(** *** Consequences used by several properties *)

Lemma cleaned_same st1 st2 :
  cleaned st1 st2 ->
  screenshots st2 = screenshots st1 /\ trace st2 = trace st1 /\
  actual_screenshot_height st2 = actual_screenshot_height st1.
Proof. by intros ->. Qed.

Lemma write_slices_keeps remaining fs slices p :
  is_Some (fs !! p) -> is_Some (write_slices remaining fs slices !! p).
Proof.
  revert fs. induction slices as [|sl slices IH]; intros fs Hp; [done|].
  simpl. apply IH. rewrite lookup_insert_is_Some.
  destruct (decide (slice_path sl = p)); auto.
Qed.

Lemma write_slices_present remaining fs slices :
  Forall (fun p => is_Some (write_slices remaining fs slices !! p))
         (slice_path <$> slices).
Proof.
  revert fs. induction slices as [|sl slices IH]; intros fs; simpl.
  - constructor.
  - constructor; [|apply IH].
    apply write_slices_keeps. rewrite lookup_insert_eq. eauto.
Qed.

(** A call that got past line 147 and did not fail in a driver call:
    the state [sta] at line 147, the state [st1] at the end of the
    [try] block, and the slices taken in between. *)
Lemma capture_completed crf_name output_dir st r st' :
  capture_full_page crf_name output_dir st = (r, st') ->
  r <> Raised WebDriverException -> r <> Raised ZeroDivisionError ->
  exists full_width full_height d s sta st1 slices,
    script_page_dimensions (driver st) = (Some (full_width, full_height), d) /\
    discovered output_dir st s sta /\
    captured (remaining_height full_height s) slices sta st1 /\
    planned crf_name output_dir full_height s slices /\
    stitch full_width full_height (remaining_height full_height s) st1
    = (r, st1) /\
    cleaned st1 st'.
Proof.
  intros Hrun Hwde Hzde.
  destruct (capture_full_page_spec _ _ _ _ _ Hrun)
    as [(_ & _ & [[-> _]|[-> _]])
       |(full_width & full_height & d & s & sta & st1 & Hdims & Hdisc & Hacq & Hcl)];
    [done|done|].
  destruct Hacq as [[-> _]|(slices & Hc & Hp & Hst)]; [done|].
  by exists full_width, full_height, d, s, sta, st1, slices.
Qed.

(** The height the session holds after such a call is the one the call
    divided by. *)
Lemma completed_height output_dir remaining slices st s sta st1 st' :
  discovered output_dir st s sta ->
  captured remaining slices sta st1 ->
  cleaned st1 st' ->
  actual_screenshot_height st' = Some s.
Proof.
  intros (Hs & _) (_ & _ & _ & Hh) Hcl.
  apply cleaned_same in Hcl as (_ & _ & ->). by rewrite Hh.
Qed.

Lemma discovered_scrolls output_dir st s sta :
  discovered output_dir st s sta ->
  scroll_offsets (trace sta) = scroll_offsets (trace st).
Proof.
  intros (_ & _ & _ & [(_ & -> & _)|(_ & d & img & d' & _ & _ & -> & _)]); [done|].
  rewrite scroll_offsets_app. simpl. by rewrite List.app_nil_r.
Qed.

(** The scroll offsets of a completed call and the files it recorded
    are those of the plan. *)
Lemma capture_follows_plan crf_name output_dir st res st'
    full_width full_height d s :
  script_page_dimensions (driver st) = (Some (full_width, full_height), d) ->
  capture_full_page crf_name output_dir st = (Returned res, st') ->
  actual_screenshot_height st' = Some s ->
  scroll_offsets (trace st')
  = scroll_offsets (trace st) ++ plan_offsets full_height s /\
  screenshots st' = plan_paths crf_name output_dir full_height s.
Proof.
  intros Hdims Hrun Hs.
  destruct (capture_completed _ _ _ _ _ Hrun)
    as (W & Hh & d0 & s0 & sta & st1 & slices & Hdims0 & Hdisc & Hc & Hp & _ & Hcl);
    [done|done|].
  rewrite Hdims in Hdims0. simplify_eq.
  pose proof (completed_height _ _ _ _ _ _ _ _ Hdisc Hc Hcl) as Hs0.
  rewrite Hs in Hs0. simplify_eq.
  apply cleaned_same in Hcl as (-> & -> & _).
  pose proof (discovered_scrolls _ _ _ _ Hdisc) as Hsc.
  destruct Hc as (-> & -> & _ & _), Hp as (Ho & Hpa & _).
  destruct Hdisc as (_ & _ & -> & _). simpl.
  by rewrite scroll_offsets_app, scroll_offsets_slices, Ho, Hpa, Hsc.
Qed.

(** ** What the paste loop puts where *)

Lemma paste_outside acc img x0 y0 x y :
  y < y0 -> getpixel (paste acc img (x0, y0)) x y = getpixel acc x y.
Proof.
  intros Hy. unfold paste, in_image. simpl.
  by replace (0 <=? y - y0) with false by lia; rewrite andb_false_r.
Qed.

Lemma paste_inside acc img x0 y0 x y :
  in_image img (x - x0) (y - y0) = true ->
  getpixel (paste acc img (x0, y0)) x y = getpixel img (x - x0) (y - y0).
Proof. intros Hin. unfold paste. simpl. by rewrite Hin. Qed.

Lemma in_image_rows img x y :
  in_image img x y = true -> 0 <= y < height img.
Proof. unfold in_image. lia. Qed.

Lemma sum_heights_nonneg imgs :
  Forall (fun e => 0 < height e) imgs -> 0 <= sum_heights imgs.
Proof. induction 1 as [|e es He _ IH]; simpl; lia. Qed.

(** When the bitmaps [effs] pasted for [items] are not empty and fit in
    the document below [y], the loop returns, leaves the rows above [y]
    alone, and the [j]-th bitmap is found at the sum of the heights
    before it. *)
Lemma stitch_loop_content items len full_height remaining st :
  forall effs acc y,
    Forall2 (fun ip e =>
               exists img, files st !! snd ip = Some img /\
                           e = effective remaining len (fst ip) img)
            items effs ->
    Forall (fun e => 0 < height e) effs ->
    y + sum_heights effs <= full_height ->
    exists out,
      fst (stitch_loop items len full_height remaining acc y st) = Returned out /\
      width out = width acc /\ height out = height acc /\
      (forall x yy, yy < y -> getpixel out x yy = getpixel acc x yy) /\
      (forall (j : nat) e, effs !! j = Some e ->
         forall x yy,
           in_image e x (yy - (y + sum_heights (take j effs))) = true ->
           getpixel out x yy
           = getpixel e x (yy - (y + sum_heights (take j effs)))).
Proof.
  induction items as [|[idx path] rest IH]; intros effs acc y Hitems Hpos Hfit.
  - apply Forall2_nil_inv_l in Hitems as ->.
    exists acc. repeat split; try done; by intros [|j] e Hj.
  - apply Forall2_cons_inv_l in Hitems as (e & es & (img & Himg & He) & Hrest & ->).
    apply Forall_cons in Hpos as [Hepos Hespos].
    pose proof (sum_heights_nonneg es Hespos) as Hes.
    simpl in Hfit, Himg, He.
    rewrite stitch_loop_cons, Himg. cbv zeta. rewrite <- He.
    replace (Z.min (height e) (full_height - y)) with (height e) by lia.
    destruct (full_height <=? y + height e) eqn:Hbreak.
    + (* the document is full: nothing is left to paste *)
      assert (es = []) as ->.
      { destruct es as [|e2 es]; [done|].
        apply Forall_cons in Hespos as [He2 Hes2].
        pose proof (sum_heights_nonneg es Hes2). simpl in Hfit. lia. }
      exists (paste acc e (0, y)). repeat split; try done.
      * intros x yy Hyy. by apply paste_outside.
      * intros [|j] e' Hj x yy; [|done]. injection Hj as <-.
        cbn [take sum_heights foldr].
        replace (yy - (y + 0)) with (yy - y) by lia. intros Hin.
        rewrite paste_inside; rewrite Z.sub_0_r; done.
    + destruct (IH es (paste acc e (0, y)) (y + height e) Hrest Hespos
                  ltac:(lia))
        as (out & Hout & Hw & Hh & Hframe & Hbands).
      exists out. split; [done|]. split; [done|]. split; [done|]. split.
      * intros x yy Hyy. rewrite Hframe by lia. by apply paste_outside.
      * intros [|j] e' Hj x yy.
        -- injection Hj as <-. cbn [take sum_heights foldr].
           replace (yy - (y + 0)) with (yy - y) by lia. intros Hin.
           pose proof (in_image_rows _ _ _ Hin).
           rewrite Hframe by lia.
           rewrite paste_inside; rewrite Z.sub_0_r; done.
        -- cbn [take sum_heights foldr]. fold (sum_heights (take j es)).
           replace (yy - (y + (height e + sum_heights (take j es))))
             with (yy - (y + height e + sum_heights (take j es))) by lia.
           by apply Hbands.
Qed.

(** ** From the slices of a run to the pasted bitmaps *)

Lemma write_slices_lookup remaining fs slices (j : nat) sl :
  NoDup (slice_path <$> slices) ->
  slices !! j = Some sl ->
  write_slices remaining fs slices !! slice_path sl
  = Some (slice_file remaining sl).
Proof.
  revert j. induction slices as [|sl' slices IH] using rev_ind; intros j Hnd Hj.
  - done.
  - rewrite write_slices_snoc.
    rewrite fmap_app in Hnd. apply NoDup_app in Hnd as (Hnd1 & Hnd2 & _).
    destruct (decide (j < length slices)%nat) as [Hlt|Hge].
    + rewrite lookup_app_l in Hj by done.
      rewrite lookup_insert_ne; [by eapply IH|].
      intros Heq. apply (Hnd2 (slice_path sl)).
      * apply list_elem_of_fmap. exists sl. split; [done|].
        by eapply list_elem_of_lookup_2.
      * rewrite <- Heq. simpl. apply list_elem_of_here.
    + rewrite lookup_app_r in Hj by lia.
      destruct (j - length slices)%nat; [|done].
      simpl in Hj. simplify_eq. apply lookup_insert_eq.
Qed.

Lemma slices_heights s pre slices :
  snapshots_have_height s (pre ++ flat_map slice_events slices) = true ->
  Forall (fun sl => height (raw_image sl) = s) slices.
Proof.
  unfold snapshots_have_height. rewrite forallb_app.
  intros [_ Hall]%andb_prop.
  induction slices as [|sl slices IH]; [constructor|].
  simpl in Hall. apply andb_prop in Hall as [Hsl Hall].
  constructor; [lia|by apply IH].
Qed.

Lemma enumerate_from_app {A} (i : Z) (l1 l2 : list A) :
  enumerate_from i (l1 ++ l2)
  = enumerate_from i l1 ++ enumerate_from (i + Z.of_nat (length l1)) l2.
Proof.
  revert i. induction l1 as [|x l1 IH]; intros i; simpl.
  - by rewrite Z.add_0_r.
  - rewrite IH. do 3 f_equal. lia.
Qed.

(** The files of full slices are pasted as they are. *)
Lemma full_items remaining len st fulls :
  forall i,
    Forall (fun sl => files st !! slice_path sl = Some (raw_image sl)) fulls ->
    i + Z.of_nat (length fulls) <= len - 1 ->
    Forall2 (fun ip e =>
               exists img, files st !! snd ip = Some img /\
                           e = effective remaining len (fst ip) img)
            (enumerate_from i (slice_path <$> fulls)) (raw_image <$> fulls).
Proof.
  induction fulls as [|sl fulls IH]; intros i Hfiles Hlen; [constructor|].
  apply Forall_cons in Hfiles as [Hsl Hfiles]. simpl in *.
  constructor.
  - exists (raw_image sl). split; [done|]. simpl. unfold effective.
    by replace (i =? len - 1) with false by lia.
  - apply IH; [done|lia].
Qed.

Lemma sum_heights_cons e es :
  sum_heights (e :: es) = height e + sum_heights es.
Proof. done. Qed.

Lemma sum_heights_app l1 l2 :
  sum_heights (l1 ++ l2) = sum_heights l1 + sum_heights l2.
Proof. induction l1 as [|e l1 IH]; simpl; [done|]. rewrite IH. lia. Qed.

Lemma sum_heights_full s (fulls : list Slice) :
  Forall (fun sl => height (raw_image sl) = s) fulls ->
  sum_heights (raw_image <$> fulls) = Z.of_nat (length fulls) * s.
Proof.
  induction 1 as [|sl fulls Hsl _ IH]; [done|].
  rewrite fmap_cons, sum_heights_cons, IH, Hsl, length_cons, Nat2Z.inj_succ.
  lia.
Qed.

(** Cropping the bottom rows, once and (as lines 168 and 179 do to the
    final slice) twice. *)
Lemma crop_bottom_size img remaining :
  width (crop_bottom img remaining) = width img /\
  height (crop_bottom img remaining) = remaining.
Proof. unfold crop_bottom. simpl. lia. Qed.

Lemma crop_bottom_pixel img remaining x y :
  0 <= x < width img -> 0 <= y < remaining -> remaining <= height img ->
  getpixel (crop_bottom img remaining) x y
  = getpixel img x (height img - remaining + y).
Proof.
  intros Hx Hy Hrem. unfold crop_bottom, crop, in_image. simpl.
  replace (x + 0) with x by lia.
  replace (y + (height img - remaining)) with (height img - remaining + y) by lia.
  by replace ((0 <=? x) && (x <? width img)
              && (0 <=? height img - remaining + y)
              && (height img - remaining + y <? height img)) with true by lia.
Qed.

Lemma crop_bottom_twice img remaining x y :
  0 <= x < width img -> 0 <= y < remaining -> remaining <= height img ->
  in_image (crop_bottom (crop_bottom img remaining) remaining) x y = true /\
  getpixel (crop_bottom (crop_bottom img remaining) remaining) x y
  = getpixel img x (height img - remaining + y).
Proof.
  intros Hx Hy Hrem.
  destruct (crop_bottom_size img remaining) as [Hw Hh].
  destruct (crop_bottom_size (crop_bottom img remaining) remaining) as [Hw2 Hh2].
  split.
  - unfold in_image. rewrite Hw2, Hh2, Hw. lia.
  - rewrite crop_bottom_pixel by lia.
    rewrite Hh. replace (remaining - remaining + y) with y by lia.
    by apply crop_bottom_pixel.
Qed.

Lemma fmap_const_Forall {A B C} (f : A -> B) (c : B) (l : list A) (k : list C) :
  f <$> l = (fun _ => c) <$> k -> Forall (fun x => f x = c) l.
Proof.
  revert k. induction l as [|x l IH]; intros [|z k] Heq; simplify_eq/=.
  - constructor.
  - constructor; [done|by eapply IH].
Qed.

(** With a remainder, the slices of a run are the full ones and then
    the final one. *)
Lemma planned_with_remainder crf_name output_dir full_height s slices :
  0 < remaining_height full_height s ->
  planned crf_name output_dir full_height s slices ->
  exists fulls fin,
    slices = fulls ++ [fin] /\
    length fulls = Z.to_nat (num_full_scrolls full_height s) /\
    Forall (fun sl => is_final sl = false) fulls /\
    is_final fin = true /\
    slice_path fin = final_path output_dir crf_name /\
    scroll_offset fin = full_height - s.
Proof.
  intros Hrem (Hoff & Hpaths & Hfin).
  unfold plan_offsets, plan_paths, plan_finals in *.
  replace (0 <? remaining_height full_height s) with true in * by lia.
  apply fmap_app_inv in Hfin as (fulls & fins & Hfulls & Hfins & ->).
  symmetry in Hfins. apply fmap_cons_inv in Hfins as (fin & rest & Hf & Hrest & ->).
  symmetry in Hrest. apply fmap_nil_inv in Hrest as ->.
  assert (length fulls = Z.to_nat (num_full_scrolls full_height s)) as Hlen.
  { apply (f_equal length) in Hfulls.
    by rewrite !length_fmap, length_seqZ in Hfulls. }
  exists fulls, fin. split; [done|]. split; [done|]. split.
  { eapply fmap_const_Forall. by symmetry. }
  split; [done|].
  rewrite fmap_app in Hoff. rewrite fmap_app in Hpaths.
  apply app_inj_2 in Hoff as [_ Hoff]; [|done].
  apply app_inj_2 in Hpaths as [_ Hpaths]; [|done].
  simpl in Hoff, Hpaths. by simplify_eq.
Qed.

Lemma stitch_eq_recorded full_width full_height remaining st :
  screenshots st <> [] ->
  stitch full_width full_height remaining st
  = if (full_width <? 0) || (full_height <? 0) then (Raised ValueError, st)
    else
      match stitch_loop (enumerate (screenshots st))
              (Z.of_nat (length (screenshots st))) full_height remaining
              (mkImage full_width full_height (fun _ _ => black)) 0 st with
      | (Returned out, st1) =>
          (Returned (Some (crop out (0, 0, full_width, full_height))), st1)
      | (Raised e, st1) => (Raised e, st1)
      end.
Proof. intros Hne. rewrite stitch_eq. by destruct (screenshots st). Qed.

(** The crop of line 185 changes nothing inside the document. *)
Lemma crop_document_pixel out full_width full_height x y :
  width out = full_width -> height out = full_height ->
  0 <= x < full_width -> 0 <= y < full_height ->
  getpixel (crop out (0, 0, full_width, full_height)) x y = getpixel out x y.
Proof.
  intros Hw Hh Hx Hy. unfold crop, in_image. simpl.
  rewrite Hw, Hh, !Z.add_0_r.
  by replace ((0 <=? x) && (x <? full_width) && (0 <=? y) && (y <? full_height))
    with true by lia.
Qed.

(** ** Arithmetic of the plan *)

Lemma full_scrolls_and_remainder full_height s :
  s <> 0 ->
  num_full_scrolls full_height s * s + remaining_height full_height s
  = full_height.
Proof.
  intros Hs. unfold num_full_scrolls, remaining_height.
  pose proof (Z.div_mod full_height s Hs). lia.
Qed.

Lemma plan_offsets_bound full_height s :
  0 < s -> 0 < remaining_height full_height s ->
  Forall (fun y => y <= full_height - s) (plan_offsets full_height s).
Proof.
  intros Hs Hrem. unfold plan_offsets.
  pose proof (full_scrolls_and_remainder full_height s ltac:(lia)) as Hdiv.
  apply Forall_app. split.
  - apply Forall_fmap, Forall_forall. intros i Hi.
    apply elem_of_seqZ in Hi. simpl. nia.
  - destruct (0 <? remaining_height full_height s); repeat constructor. lia.
Qed.

Lemma plan_short_page full_height s :
  0 < full_height < s ->
  num_full_scrolls full_height s = 0 /\
  remaining_height full_height s = full_height.
Proof.
  intros Hlt. unfold num_full_scrolls, remaining_height.
  by rewrite Z.div_small, Z.mod_small by lia.
Qed.

Lemma plan_one_viewport s :
  0 < s -> num_full_scrolls s s = 1 /\ remaining_height s s = 0.
Proof.
  intros Hs. unfold num_full_scrolls, remaining_height.
  by rewrite Z.div_same, Z.mod_same by lia.
Qed.

Lemma plan_paths_nonempty crf_name output_dir full_height s :
  0 < full_height -> 0 < s ->
  plan_paths crf_name output_dir full_height s <> [].
Proof.
  intros Hh Hs. unfold plan_paths.
  pose proof (full_scrolls_and_remainder full_height s ltac:(lia)) as Hdiv.
  pose proof (Z.mod_pos_bound full_height s Hs) as Hmod.
  fold (remaining_height full_height s) in Hmod.
  destruct (0 <? remaining_height full_height s) eqn:Hrem.
  - by destruct (_ <$> _).
  - assert (0 < num_full_scrolls full_height s) as Hq by nia.
    rewrite List.app_nil_r.
    assert (length (seqZ 0 (num_full_scrolls full_height s)) <> 0%nat) as Hlen.
    { rewrite length_seqZ. lia. }
    by destruct (seqZ 0 _).
Qed.

(** What a stitched image shows when there is a remainder and the
    viewport keeps its height: the full slices at their offsets, then
    the bottom rows of the final snapshot. *)
Lemma stitched_content crf_name output_dir st img st' full_width full_height d s :
  0 < s -> 0 < remaining_height full_height s ->
  script_page_dimensions (driver st) = (Some (full_width, full_height), d) ->
  capture_full_page crf_name output_dir st = (Returned (Some img), st') ->
  actual_screenshot_height st' = Some s ->
  snapshots_have_height s (trace st') = true ->
  exists pre fulls raw,
    trace st' = pre ++ flat_map slice_events fulls
                ++ [Scrolled (full_height - s);
                    Captured (final_path output_dir crf_name) raw] /\
    length fulls = Z.to_nat (num_full_scrolls full_height s) /\
    (forall x y,
       0 <= x < Z.min full_width (width raw) ->
       num_full_scrolls full_height s * s <= y < full_height ->
       getpixel img x y
       = getpixel raw x (height raw - remaining_height full_height s
                         + (y - num_full_scrolls full_height s * s))) /\
    (forall (j : nat) sl,
       fulls !! j = Some sl ->
       forall x y,
         0 <= x < Z.min full_width (width (raw_image sl)) ->
         Z.of_nat j * s <= y < (Z.of_nat j + 1) * s ->
         getpixel img x y = getpixel (raw_image sl) x (y - Z.of_nat j * s)).
Proof.
  intros Hs Hrem Hdims Hrun Hcache Hheights.
  destruct (capture_completed _ _ _ _ _ Hrun)
    as (W & Hh & d0 & s0 & sta & st1 & slices
        & Hdims0 & Hdisc & Hc & Hp & Hst & Hcl); [done|done|].
  rewrite Hdims in Hdims0. simplify_eq.
  pose proof (completed_height _ _ _ _ _ _ _ _ Hdisc Hc Hcl) as Hs0.
  rewrite Hcache in Hs0. simplify_eq.
  set (rem := remaining_height Hh s0) in *.
  set (q := num_full_scrolls Hh s0) in *.
  pose proof (full_scrolls_and_remainder Hh s0 ltac:(lia)) as Hdiv.
  fold q rem in Hdiv.
  assert (rem < s0) as Hrem_lt by (apply Z.mod_pos_bound; lia).
  pose proof (plan_paths_NoDup crf_name output_dir Hh s0) as Hnd.
  destruct Hp as (Hoff & Hpaths & Hfinals).
  rewrite <- Hpaths in Hnd.
  destruct (planned_with_remainder crf_name output_dir Hh s0 slices Hrem
              (conj Hoff (conj Hpaths Hfinals)))
    as (fulls & fin & -> & Hlen & Hnf & Hfin & Hfpath & Hfoff).
  apply cleaned_same in Hcl as (_ & Htr' & _).
  destruct Hc as (Htr & Hshots & Hfiles & _).
  destruct Hdisc as (_ & _ & Hempty & _).
  rewrite Hempty in Hshots. simpl in Hshots.
  (* the snapshots are [s0] rows high *)
  rewrite Htr', Htr in Hheights.
  apply slices_heights in Hheights.
  apply Forall_app in Hheights as [Hfull_h Hfin_h].
  rewrite Forall_singleton in Hfin_h.
  (* the files behind the recorded paths *)
  assert (Forall (fun sl => files st1 !! slice_path sl = Some (raw_image sl)) fulls)
    as Hfull_files.
  { apply Forall_lookup. intros j sl Hj. rewrite Hfiles.
    rewrite (write_slices_lookup rem (files sta) (fulls ++ [fin]) j sl Hnd).
    - unfold slice_file. by rewrite (Forall_lookup_1 _ _ _ _ Hnf Hj).
    - by apply lookup_app_l_Some. }
  assert (files st1 !! slice_path fin = Some (crop_bottom (raw_image fin) rem))
    as Hfin_file.
  { rewrite Hfiles.
    rewrite (write_slices_lookup rem (files sta) (fulls ++ [fin]) (length fulls) fin Hnd).
    - unfold slice_file. by rewrite Hfin.
    - by apply list_lookup_middle. }
  (* the paste loop *)
  assert (screenshots st1 <> []) as Hne.
  { rewrite Hshots, fmap_app. by destruct (slice_path <$> fulls). }
  rewrite (stitch_eq_recorded _ _ _ _ Hne) in Hst.
  destruct ((W <? 0) || (Hh <? 0)) eqn:Hneg; [done|].
  assert (0 <= q) as Hq by (apply Z.div_pos; lia).
  assert (Z.of_nat (length fulls) = q) as Hlenq.
  { rewrite Hlen. fold q. lia. }
  set (cc := crop_bottom (crop_bottom (raw_image fin) rem) rem).
  destruct (stitch_loop_content (enumerate (screenshots st1))
              (Z.of_nat (length (screenshots st1))) Hh rem st1
              ((raw_image <$> fulls) ++ [cc])
              (mkImage W Hh (fun _ _ => black)) 0)
    as (out & Hout & Hw & Hhh & _ & Hbands).
  { rewrite Hshots, fmap_app. unfold enumerate. rewrite enumerate_from_app.
    apply Forall2_app.
    - apply full_items; [done|]. rewrite length_app, !length_fmap. simpl. lia.
    - simpl. constructor; [|constructor].
      exists (crop_bottom (raw_image fin) rem). split; [done|]. simpl.
      unfold effective, cc.
      rewrite length_app, !length_fmap. simpl.
      rewrite (proj2 (Z.eqb_eq _ _)) by lia.
      by rewrite (proj2 (Z.ltb_lt _ _)) by lia. }
  { apply Forall_app. split.
    - apply Forall_fmap. eapply Forall_impl; [exact Hfull_h|].
      simpl. intros sl Hsl. lia.
    - apply Forall_singleton. unfold cc.
      destruct (crop_bottom_size (crop_bottom (raw_image fin) rem) rem) as [_ ->].
      done. }
  { rewrite sum_heights_app, (sum_heights_full s0), Hlenq by done.
    rewrite sum_heights_cons. change (sum_heights []) with 0.
    unfold cc.
    destruct (crop_bottom_size (crop_bottom (raw_image fin) rem) rem) as [_ ->].
    lia. }
  destruct (stitch_loop _ _ _ _ _ _ st1) as [[o|e] s1]; [|done].
  cbn [fst] in Hout.
  assert (o = out) as -> by congruence.
  assert (img = crop out (0, 0, W, Hh)) as -> by congruence.
  clear Hst Hout. simpl in Hw, Hhh.
  exists (trace sta), fulls, (raw_image fin).
  split.
  { rewrite Htr', Htr, flat_map_app. simpl.
    unfold slice_events at 2. by rewrite Hfoff, Hfpath. }
  split; [done|]. split.
  - (* the tail of the final snapshot *)
    intros x y Hx Hy.
    rewrite crop_document_pixel by lia.
    assert (((raw_image <$> fulls) ++ [cc]) !! length fulls = Some cc) as Hj.
    { apply list_lookup_middle. by rewrite length_fmap. }
    specialize (Hbands _ _ Hj x y).
    rewrite take_app_length' in Hbands by (by rewrite length_fmap).
    rewrite (sum_heights_full s0), Hlenq, Z.add_0_l in Hbands by done.
    destruct (crop_bottom_twice (raw_image fin) rem x (y - q * s0))
      as [Hin Hpx]; [lia..|].
    fold cc in Hin, Hpx. by rewrite Hbands, Hpx.
  - (* the full slices *)
    intros j sl Hj x y Hx Hy.
    pose proof (lookup_lt_Some _ _ _ Hj) as Hjlt.
    rewrite crop_document_pixel by nia.
    assert (((raw_image <$> fulls) ++ [cc]) !! j = Some (raw_image sl)) as Hj'.
    { rewrite lookup_app_l by (by rewrite length_fmap).
      by rewrite list_lookup_fmap, Hj. }
    specialize (Hbands _ _ Hj' x y).
    rewrite take_app_le in Hbands by (rewrite length_fmap; lia).
    rewrite <- fmap_take in Hbands.
    rewrite (sum_heights_full s0) in Hbands by (by apply Forall_take).
    rewrite length_take in Hbands.
    replace (y - (0 + Z.of_nat (j `min` length fulls) * s0))
      with (y - Z.of_nat j * s0) in Hbands by lia.
    apply Hbands. unfold in_image.
    rewrite (Forall_lookup_1 _ _ _ _ Hfull_h Hj). lia.
Qed.

(** * The properties

    In the statements below [full_height] is the height the dimensions
    probe reported to the call, and [s] the screenshot height the
    session holds after it, which is the one the call divided by
    ([completed_height]). *)

(** C1. For a document height [H > 0] and a snapshot height [S > 0],
    a call that returns scrolled to [0, S, ..., (H div S - 1) * S] and
    then, exactly when [H mod S > 0], once more to [H - S], recording
    one file per scroll; [H div S * S + (H - H div S * S) = H], and with
    a final slice no offset of the plan exceeds [H - S]. *)
Theorem slice_plan crf_name output_dir st res st' full_width full_height d s :
  0 < full_height -> 0 < s ->
  script_page_dimensions (driver st) = (Some (full_width, full_height), d) ->
  capture_full_page crf_name output_dir st = (Returned res, st') ->
  actual_screenshot_height st' = Some s ->
  scroll_offsets (trace st')
  = scroll_offsets (trace st)
    ++ ((fun i => i * s) <$> seqZ 0 (full_height / s))
    ++ (if 0 <? full_height mod s then [full_height - s] else []) /\
  screenshots st'
  = (temp_path output_dir crf_name <$> seqZ 0 (full_height / s))
    ++ (if 0 <? full_height mod s then [final_path output_dir crf_name] else []) /\
  full_height / s * s + (full_height - full_height / s * s) = full_height /\
  full_height / s * s + full_height mod s = full_height /\
  (0 < full_height mod s ->
   Forall (fun y => y <= full_height - s)
     (((fun i => i * s) <$> seqZ 0 (full_height / s)) ++ [full_height - s])).
Proof.
  intros Hh Hs Hdims Hrun Hcache.
  destruct (capture_follows_plan _ _ _ _ _ _ _ _ _ Hdims Hrun Hcache)
    as [Hoff Hpaths].
  split; [exact Hoff|]. split; [exact Hpaths|]. split; [lia|].
  split; [apply (full_scrolls_and_remainder full_height s); lia|].
  intros Hrem.
  pose proof (plan_offsets_bound full_height s Hs Hrem) as Hb.
  unfold plan_offsets, remaining_height, num_full_scrolls in Hb.
  by replace (0 <? full_height mod s) with true in Hb by lia.
Qed.

(** A page no higher than the viewport.  For [0 < H <= S] a call that
    returns took exactly one slice.  When [H < S] it is the final slice,
    asked for at [scrollTo(0, H - S)] with [H - S < 0], the remainder is
    [H], and the image is the bottom [H] rows of that snapshot; when
    [H = S] it is a full slice at offset 0 and the remainder is 0. *)
Lemma short_page_slices crf_name output_dir st res st' full_width full_height d s :
  0 < full_height <= s ->
  script_page_dimensions (driver st) = (Some (full_width, full_height), d) ->
  capture_full_page crf_name output_dir st = (Returned res, st') ->
  actual_screenshot_height st' = Some s ->
  length (screenshots st') = 1%nat /\
  (full_height < s ->
   scroll_offsets (trace st') = scroll_offsets (trace st) ++ [full_height - s] /\
   screenshots st' = [final_path output_dir crf_name] /\
   remaining_height full_height s = full_height /\
   (snapshots_have_height s (trace st') = true ->
    forall img, res = Some img ->
      exists pre raw,
        trace st' = pre ++ [Scrolled (full_height - s);
                            Captured (final_path output_dir crf_name) raw] /\
        forall x y,
          0 <= x < Z.min full_width (width raw) -> 0 <= y < full_height ->
          getpixel img x y = getpixel raw x (height raw - full_height + y))) /\
  (full_height = s ->
   scroll_offsets (trace st') = scroll_offsets (trace st) ++ [0] /\
   screenshots st' = [temp_path output_dir crf_name 0] /\
   remaining_height full_height s = 0).
Proof.
  intros Hle Hdims Hrun Hcache.
  destruct (capture_follows_plan _ _ _ _ _ _ _ _ _ Hdims Hrun Hcache)
    as [Hoff Hpaths].
  rewrite Hoff, Hpaths. unfold plan_offsets, plan_paths.
  destruct (decide (full_height = s)) as [->|Hne].
  - destruct (plan_one_viewport s ltac:(lia)) as [-> ->].
    split; [done|]. split; [lia|]. done.
  - destruct (plan_short_page full_height s ltac:(lia)) as [Hq Hrem].
    rewrite Hq, Hrem.
    replace (0 <? full_height) with true by lia.
    split; [done|]. split; [|lia]. intros _.
    split; [done|]. split; [done|]. split; [done|].
    intros Hheights img ->.
    destruct (stitched_content crf_name output_dir st img st' full_width
                full_height d s ltac:(lia) ltac:(lia) Hdims Hrun Hcache Hheights)
      as (pre & fulls & raw & Htr & Hlen & Htail & _).
    rewrite Hq in Hlen, Htail. rewrite Hrem in Htail.
    destruct fulls as [|sl fulls]; [|done]. simpl in Htr.
    exists pre, raw. split; [done|]. intros x y Hx Hy.
    rewrite (Htail x y) by lia. f_equal. lia.
Qed.

(** C3. With a remainder and a viewport that keeps its height [S],
    the stitched image shows below [y_offset = H div S * S] the rows of
    the final snapshot from [crop_y = height - remainder] on, and above
    it the full slices, each at its own offset: of the final snapshot
    only the bottom [remainder] rows are used. *)
Theorem final_slice_tail crf_name output_dir st img st' full_width full_height d s :
  0 < s -> 0 < remaining_height full_height s ->
  script_page_dimensions (driver st) = (Some (full_width, full_height), d) ->
  capture_full_page crf_name output_dir st = (Returned (Some img), st') ->
  actual_screenshot_height st' = Some s ->
  snapshots_have_height s (trace st') = true ->
  exists pre fulls raw,
    trace st' = pre ++ flat_map slice_events fulls
                ++ [Scrolled (full_height - s);
                    Captured (final_path output_dir crf_name) raw] /\
    length fulls = Z.to_nat (num_full_scrolls full_height s) /\
    (forall x y,
       0 <= x < Z.min full_width (width raw) ->
       num_full_scrolls full_height s * s <= y < full_height ->
       getpixel img x y
       = getpixel raw x (height raw - remaining_height full_height s
                         + (y - num_full_scrolls full_height s * s))) /\
    (forall (j : nat) sl,
       fulls !! j = Some sl ->
       forall x y,
         0 <= x < Z.min full_width (width (raw_image sl)) ->
         Z.of_nat j * s <= y < (Z.of_nat j + 1) * s ->
         getpixel img x y = getpixel (raw_image sl) x (y - Z.of_nat j * s)).
Proof. apply stitched_content. Qed.

(** C4. A stitched image has exactly the width and the height the
    dimensions probe reported. *)
Theorem stitched_image_size crf_name output_dir st img st' full_width full_height d :
  script_page_dimensions (driver st) = (Some (full_width, full_height), d) ->
  capture_full_page crf_name output_dir st = (Returned (Some img), st') ->
  width img = full_width /\ height img = full_height.
Proof.
  intros Hdims Hrun.
  destruct (capture_completed _ _ _ _ _ Hrun)
    as (W & Hh & d0 & s & sta & st1 & slices & Hdims0 & _ & _ & _ & Hst & _);
    [done|done|].
  rewrite Hdims in Hdims0. simplify_eq.
  eapply stitch_size. by rewrite Hst.
Qed.

(** C5. A call that recorded no slice does not return an image: it
    returns [None] or raises. *)
Theorem no_slice_no_image crf_name output_dir st r st' :
  capture_full_page crf_name output_dir st = (r, st') ->
  screenshots st' = [] ->
  r = Returned None \/ exists e, r = Raised e.
Proof.
  intros Hrun Hnone.
  destruct (capture_full_page_spec _ _ _ _ _ Hrun)
    as [(_ & _ & [[-> _]|[-> _]])
       |(W & Hh & d & s & sta & st1 & _ & _ & Hacq & Hcl)]; [eauto..|].
  destruct Hacq as [[-> _]|(slices & _ & _ & Hst)]; [eauto|].
  apply cleaned_same in Hcl as (Hsame & _). rewrite Hsame in Hnone.
  rewrite (stitch_nothing _ _ _ _ Hnone) in Hst. left. congruence.
Qed.

(** C6. After a call, however it ended, no file recorded in
    [screenshots] is left. *)
Theorem cleanup_unconditional crf_name output_dir st :
  let st' := snd (capture_full_page crf_name output_dir st) in
  Forall (fun p => files st' !! p = None) (screenshots st').
Proof.
  destruct (capture_full_page crf_name output_dir st) as [r st'] eqn:Hrun.
  simpl.
  destruct (capture_full_page_spec _ _ _ _ _ Hrun)
    as [(Hnone & _)|(W & Hh & d & s & sta & st1 & _ & _ & _ & Hcl)].
  - rewrite Hnone. constructor.
  - by apply (cleaned_no_artifact st1).
Qed.

(** C10. With [H > 0] and [S > 0] a call records at least one slice
    and never returns [None]; with a width PIL accepts it returns an
    image unless a driver call raised. *)
Theorem positive_page_is_stitched crf_name output_dir st r st'
    full_width full_height d s :
  0 < full_height -> 0 < s ->
  script_page_dimensions (driver st) = (Some (full_width, full_height), d) ->
  capture_full_page crf_name output_dir st = (r, st') ->
  actual_screenshot_height st' = Some s ->
  r <> Returned None /\
  (r <> Raised WebDriverException -> screenshots st' <> []) /\
  (0 <= full_width ->
   (exists img, r = Returned (Some img)) \/ r = Raised WebDriverException).
Proof.
  intros Hh Hs Hdims Hrun Hcache.
  destruct (capture_full_page_spec _ _ _ _ _ Hrun)
    as [(_ & _ & [[-> _]|(-> & _ & Hzero & _)])
       |(W & Hh0 & d0 & s0 & sta & st1 & Hdims0 & Hdisc & Hacq & Hcl)].
  - split; [done|]. split; [done|]. by right.
  - rewrite Hcache in Hzero. simplify_eq. lia.
  - rewrite Hdims in Hdims0. simplify_eq.
    destruct Hacq as [[-> _]|(slices & Hc & Hp & Hst)].
    { split; [done|]. split; [done|]. by right. }
    pose proof (completed_height _ _ _ _ _ _ _ _ Hdisc Hc Hcl) as Hs0.
    rewrite Hcache in Hs0. simplify_eq.
    apply cleaned_same in Hcl as (Hsame & _).
    destruct Hc as (_ & Hshots & Hfiles & _), Hp as (_ & Hpaths & _).
    destruct Hdisc as (_ & _ & Hempty & _).
    rewrite Hempty, Hpaths in Hshots. simpl in Hshots.
    assert (screenshots st1 <> []) as Hne.
    { rewrite Hshots. by apply plan_paths_nonempty. }
    split; [|split].
    + pose proof (stitch_not_none W Hh0 (remaining_height Hh0 s0) st1 Hne) as Hn.
      by rewrite Hst in Hn.
    + intros _. by rewrite Hsame.
    + intros Hw. left.
      destruct (stitch_something W Hh0 (remaining_height Hh0 s0) st1 Hne Hw
                  ltac:(lia)) as [img Himg].
      { rewrite Hshots, <- Hpaths, Hfiles. apply write_slices_present. }
      exists img. congruence.
Qed.

(** C7. With [S = 400]: a document of height 1000 is captured at
    offsets 0, 400 and then 600 for the final slice, remainder 200; one
    of height 800 at offsets 0 and 400, no final slice, remainder 0. *)
Theorem worked_examples crf_name output_dir st res st' full_width full_height d :
  script_page_dimensions (driver st) = (Some (full_width, full_height), d) ->
  capture_full_page crf_name output_dir st = (Returned res, st') ->
  actual_screenshot_height st' = Some 400 ->
  (full_height = 1000 ->
   scroll_offsets (trace st') = scroll_offsets (trace st) ++ [0; 400; 600] /\
   screenshots st' = [temp_path output_dir crf_name 0;
                      temp_path output_dir crf_name 1;
                      final_path output_dir crf_name] /\
   num_full_scrolls full_height 400 = 2 /\
   remaining_height full_height 400 = 200) /\
  (full_height = 800 ->
   scroll_offsets (trace st') = scroll_offsets (trace st) ++ [0; 400] /\
   screenshots st' = [temp_path output_dir crf_name 0;
                      temp_path output_dir crf_name 1] /\
   num_full_scrolls full_height 400 = 2 /\
   remaining_height full_height 400 = 0).
Proof.
  intros Hdims Hrun Hcache.
  destruct (capture_follows_plan _ _ _ _ _ _ _ _ _ Hdims Hrun Hcache)
    as [Hoff Hpaths].
  split; intros ->; rewrite Hoff, Hpaths; done.
Qed.

(** ** Pixel identity through the compositor *)

Lemma pixel_identical_refl a : pixel_identical a a.
Proof. by repeat split. Qed.

Lemma in_image_identical a b x y :
  pixel_identical a b -> in_image a x y = in_image b x y.
Proof. intros (Hw & Hh & _). unfold in_image. by rewrite Hw, Hh. Qed.

Lemma crop_identical a b box :
  pixel_identical a b -> pixel_identical (crop a box) (crop b box).
Proof.
  intros Hab. destruct box as [[[x0 y0] x1] y1]. unfold crop.
  repeat split. simpl. intros x y _.
  rewrite <- (in_image_identical a b) by done.
  destruct (in_image a (x + x0) (y + y0)) eqn:Hin; [|done].
  by apply Hab.
Qed.

Lemma crop_bottom_identical a b remaining :
  pixel_identical a b ->
  pixel_identical (crop_bottom a remaining) (crop_bottom b remaining).
Proof.
  intros Hab. unfold crop_bottom.
  destruct Hab as (Hw & Hh & Hpx). rewrite Hw, Hh.
  by apply crop_identical.
Qed.

Lemma paste_identical a b i j at_ :
  pixel_identical a b -> pixel_identical i j ->
  pixel_identical (paste a i at_) (paste b j at_).
Proof.
  intros Hab Hij. destruct at_ as [x0 y0]. unfold paste.
  destruct Hab as (Hw & Hh & Hpx).
  repeat split; simpl; [done..|]. intros x y Hin.
  rewrite <- (in_image_identical i j) by done.
  destruct (in_image i (x - x0) (y - y0)) eqn:Hi.
  - by apply Hij.
  - by apply Hpx.
Qed.

Lemma stitch_loop_identical items len full_height remaining acc1 acc2 y st1 st2 :
  Forall (fun ip => option_Forall2 pixel_identical
                      (files st1 !! snd ip) (files st2 !! snd ip)) items ->
  pixel_identical acc1 acc2 ->
  same_outcome pixel_identical
    (fst (stitch_loop items len full_height remaining acc1 y st1))
    (fst (stitch_loop items len full_height remaining acc2 y st2)).
Proof.
  intros Hfiles. revert acc1 acc2 y.
  induction Hfiles as [|[idx path] rest Hp _ IH]; intros acc1 acc2 y Hacc.
  - done.
  - rewrite !stitch_loop_cons. simpl in Hp.
    destruct Hp as [img1 img2 Himg|]; [|done]. cbv zeta.
    set (c1 := effective remaining len idx img1).
    set (c2 := effective remaining len idx img2).
    assert (pixel_identical c1 c2) as Hc.
    { unfold c1, c2, effective.
      destruct ((idx =? len - 1) && (0 <? remaining)); [|done].
      by apply crop_bottom_identical. }
    assert (height c1 = height c2) as -> by apply Hc.
    destruct (full_height <=? _).
    + by apply paste_identical.
    + by apply IH, paste_identical.
Qed.

(** C8. Stitching reads and does not write, so stitching again gives
    the same outcome; and two sessions that recorded the same paths
    with pixel-identical bitmaps behind them get pixel-identical
    images. *)
Theorem restitching_is_pixel_identical full_width full_height remaining st1 st2 :
  screenshots st1 = screenshots st2 ->
  Forall (fun p => option_Forall2 pixel_identical
                     (files st1 !! p) (files st2 !! p)) (screenshots st1) ->
  same_outcome (option_Forall2 pixel_identical)
    (fst (stitch full_width full_height remaining st1))
    (fst (stitch full_width full_height remaining st2)) /\
  stitch full_width full_height remaining
    (snd (stitch full_width full_height remaining st1))
  = stitch full_width full_height remaining st1.
Proof.
  intros Hshots Hfiles. split; [|by rewrite stitch_state].
  rewrite !stitch_eq, <- Hshots.
  destruct (screenshots st1) as [|p shots]; [simpl; constructor|].
  destruct ((full_width <? 0) || (full_height <? 0)); [done|].
  pose proof (stitch_loop_identical (enumerate (p :: shots))
                (Z.of_nat (length (p :: shots))) full_height remaining
                (mkImage full_width full_height (fun _ _ => black))
                (mkImage full_width full_height (fun _ _ => black)) 0 st1 st2
                (Forall_enumerate_from _ 0 _ Hfiles)
                (pixel_identical_refl _)) as Hsame.
  destruct (stitch_loop _ _ _ _ _ _ st1) as [[o1|e1] s1],
           (stitch_loop _ _ _ _ _ _ st2) as [[o2|e2] s2];
    cbn [fst same_outcome] in *; try done.
  constructor. by apply crop_identical.
Qed.

(** ** Which snapshots a call takes *)

Definition is_slice_path (crf_name output_dir p : string) : Prop :=
  p = final_path output_dir crf_name \/
  exists i, p = temp_path output_dir crf_name i.

(** From [st0] to [st1] snapshots went to slice files only. *)
Definition only_slices (crf_name output_dir : string) st0 st1 : Prop :=
  exists ps,
    captured_paths (trace st1) = captured_paths (trace st0) ++ ps /\
    Forall (is_slice_path crf_name output_dir) ps.

Lemma only_slices_same crf_name output_dir st0 st1 :
  trace st1 = trace st0 -> only_slices crf_name output_dir st0 st1.
Proof.
  intros Htr. exists []. rewrite Htr, List.app_nil_r. by split.
Qed.

Lemma only_slices_trans crf_name output_dir st0 st1 st2 :
  only_slices crf_name output_dir st0 st1 ->
  only_slices crf_name output_dir st1 st2 ->
  only_slices crf_name output_dir st0 st2.
Proof.
  intros (ps1 & H1 & Hp1) (ps2 & H2 & Hp2). exists (ps1 ++ ps2).
  rewrite H2, H1, List.app_assoc. split; [done|by apply Forall_app].
Qed.

Lemma only_slices_snapshot crf_name output_dir p st0 st st1 :
  is_slice_path crf_name output_dir p ->
  only_slices crf_name output_dir st0 st ->
  captured_paths (trace st1) = captured_paths (trace st) ++ [p] ->
  only_slices crf_name output_dir st0 st1.
Proof.
  intros Hp Hst Htr. eapply only_slices_trans; [exact Hst|].
  exists [p]. split; [done|]. by constructor.
Qed.

Lemma full_scroll_only_slices crf_name output_dir s i st0 st :
  only_slices crf_name output_dir st0 st ->
  wp (scrollTo (i * s);;
      save_screenshot (temp_path output_dir crf_name i);;
      screenshots_append (temp_path output_dir crf_name i))
     (fun _ st1 => only_slices crf_name output_dir st0 st1) st.
Proof.
  intros Hst.
  unfold wp, mbind, M_bind, bind, scrollTo, save_screenshot, screenshots_append.
  destruct (script_scroll_to (i * s) (driver st)) as [[[]|] d1]; simpl.
  - destruct (screenshot_png d1) as [[img|] d2]; simpl.
    + eapply (only_slices_snapshot _ _ (temp_path output_dir crf_name i));
        [right; by exists i|exact Hst|].
      simpl. rewrite !captured_paths_app. simpl. by rewrite List.app_nil_r.
    + eapply only_slices_trans; [exact Hst|]. exists []. simpl.
      rewrite captured_paths_app. simpl. by rewrite !List.app_nil_r.
  - eapply only_slices_trans; [exact Hst|]. by apply only_slices_same.
Qed.

Lemma final_scroll_only_slices crf_name output_dir full_height s st0 st :
  only_slices crf_name output_dir st0 st ->
  wp (scrollTo (full_height - s);;
      save_screenshot (final_path output_dir crf_name);;
      img ← Image_open (final_path output_dir crf_name);
      let crop_y := height img - remaining_height full_height s in
      let cropped := crop img (0, crop_y, width img, height img) in
      Image_save cropped (final_path output_dir crf_name);;
      screenshots_append (final_path output_dir crf_name))
     (fun _ st1 => only_slices crf_name output_dir st0 st1) st.
Proof.
  intros Hst.
  unfold wp, mbind, M_bind, bind, scrollTo, save_screenshot, Image_open,
    Image_save, screenshots_append.
  destruct (script_scroll_to (full_height - s) (driver st)) as [[[]|] d1]; simpl.
  - destruct (screenshot_png d1) as [[raw|] d2]; simpl.
    + rewrite lookup_insert_eq. simpl.
      eapply (only_slices_snapshot _ _ (final_path output_dir crf_name));
        [by left|exact Hst|].
      simpl. rewrite !captured_paths_app. simpl. by rewrite List.app_nil_r.
    + eapply only_slices_trans; [exact Hst|]. exists []. simpl.
      rewrite captured_paths_app. simpl. by rewrite !List.app_nil_r.
  - eapply only_slices_trans; [exact Hst|]. by apply only_slices_same.
Qed.

Lemma capture_slices_only_slices crf_name output_dir full_height s st :
  wp (capture_slices crf_name output_dir full_height s)
     (fun _ st1 => only_slices crf_name output_dir st st1) st.
Proof.
  unfold capture_slices. apply wp_bind.
  eapply wp_mono.
  - apply (wp_for_each _ (fun _ st1 => only_slices crf_name output_dir st st1)
             (fun _ st1 => only_slices crf_name output_dir st st1)
             (seqZ 0 (num_full_scrolls full_height s))) with (done := []).
    + intros _ i st1 Hst1.
      eapply wp_mono; [by apply full_scroll_only_slices|].
      by intros [[]|e] st2.
    + by apply only_slices_same.
  - intros [[]|e] st1 Hst1; [|done].
    destruct (0 <? remaining_height full_height s).
    + by apply final_scroll_only_slices.
    + by apply wp_ret.
Qed.

Lemma capture_with_height_only_slices crf_name output_dir
    full_width full_height s st :
  wp (capture_with_height crf_name output_dir full_width full_height s)
     (fun _ st' => only_slices crf_name output_dir st st') st.
Proof.
  unfold capture_with_height.
  apply wp_bind. unfold wp at 1. simpl.
  apply wp_try_finally, wp_bind.
  eapply wp_mono; [apply capture_slices_only_slices|].
  intros r st1 Hst1.
  assert (only_slices crf_name output_dir st st1) as Hst.
  { destruct Hst1 as (ps & Hps & Hall). by exists ps. }
  assert (forall r0 : Outcome (option Image),
            wp cleanup
              (fun r2 st2 =>
                 match r2 with
                 | Returned _ | Raised _ => only_slices crf_name output_dir st st2
                 end) st1) as Hclean.
  { intros _. eapply wp_mono; [apply cleanup_spec|].
    intros r2 st2 [-> ->]. simpl. destruct Hst as (ps & Hps & Hall).
    by exists ps. }
  destruct r as [[]|e].
  - pose proof (stitch_state full_width full_height
                  (remaining_height full_height s) st1) as Hsame.
    unfold wp at 1.
    destruct (stitch _ _ _ st1) as [r1 st1'] eqn:Hstitch.
    simpl in Hsame. subst st1'. simpl.
    eapply wp_mono; [exact (Hclean r1)|]. by intros [?|?] st2.
  - eapply wp_mono; [exact (Hclean (Raised e))|]. by intros [?|?] st2.
Qed.

(** A call that finds the height cached takes no discovery snapshot:
    every snapshot of the call goes to a slice file. *)
Lemma cached_call_only_slices crf_name output_dir st :
  truthy (actual_screenshot_height st) = true ->
  only_slices crf_name output_dir st
    (snd (capture_full_page crf_name output_dir st)).
Proof.
  intros Htruthy.
  unfold capture_full_page, enter_frame.
  unfold mbind at 1 2 3 4 5, M_bind at 1 2 3 4 5, bind at 1 2 3 4 5.
  unfold put_screenshots at 1, get_page_dimensions, get_screenshot_height.
  simpl.
  destruct (script_page_dimensions (driver st)) as [[[full_width full_height]|] d];
    simpl; [|by apply only_slices_same].
  rewrite Htruthy. simpl.
  unfold read_divisor, mbind, M_bind, bind, get_screenshot_height. simpl.
  destruct (actual_screenshot_height st) as [s|] eqn:Hs; [|done].
  simpl in Htruthy. destruct (s =? 0) eqn:Hs0; [done|]. unfold ret. simpl.
  pose proof (capture_with_height_only_slices crf_name output_dir full_width
                full_height s (set_driver d (set_screenshots [] st))) as Hwp.
  unfold wp in Hwp. destruct Hwp as (ps & Hps & Hall). by exists ps.
Qed.

Lemma test_path_not_slice crf_name output_dir :
  ~ is_slice_path crf_name output_dir (test_path output_dir).
Proof.
  intros [Hfin|[i Htemp]].
  - by apply test_path_not_final in Hfin.
  - by apply test_path_not_temp in Htemp.
Qed.

(** ** The cached screenshot height *)

(** What one call does to the cached height: nothing when it is set
    (and not zero); otherwise it is left alone or written once. *)
Lemma cache_step crf_name output_dir st :
  let st' := snd (capture_full_page crf_name output_dir st) in
  (truthy (actual_screenshot_height st) = true /\ frame st st') \/
  (truthy (actual_screenshot_height st) = false /\
   (frame st st' \/
    exists h, actual_screenshot_height st' = Some h /\
              cached_heights (trace st') = cached_heights (trace st) ++ [h])).
Proof.
  destruct (capture_full_page crf_name output_dir st) as [r st'] eqn:Hrun.
  simpl.
  destruct (capture_full_page_spec _ _ _ _ _ Hrun)
    as [(_ & _ & [[-> Hf]|(-> & Hfalsy & Hzero & Hlog)])
       |(W & Hh & d & s & sta & st1 & _ & Hdisc & Hacq & Hcl)].
  - destruct (truthy (actual_screenshot_height st)); [left|right]; auto.
  - right. split; [done|]. right. by exists 0.
  - assert (frame sta st1) as [Hf1 Hf2].
    { destruct Hacq as [[_ Hf]|(slices & Hc & _)]; [done|].
      by eapply captured_frame. }
    apply cleaned_same in Hcl as (_ & Htr & Hh').
    destruct Hdisc as (Hs & Hs0 & _ & [(Hold & Htr0 & _)|(Hfalsy & d0 & img & d' & _ & _ & Htr0 & _)]).
    + left. split.
      * rewrite Hold. simpl. apply negb_true_iff. lia.
      * split; [by rewrite Hh', Hf1, Hs, Hold|by rewrite Htr, Hf2, Htr0].
    + right. split; [done|]. right. exists s. split.
      * by rewrite Hh', Hf1.
      * rewrite Htr, Hf2, Htr0, cached_heights_app. simpl. done.
Qed.

(** The cached height is the one discovery the session made, if any. *)
Definition height_invariant st : Prop :=
  actual_screenshot_height st = head (cached_heights (trace st)) /\
  (length (cached_heights (trace st)) <= 1)%nat.

Lemma call_heights_grow crf_name output_dir st :
  exists ext,
    cached_heights (trace (snd (capture_full_page crf_name output_dir st)))
    = cached_heights (trace st) ++ ext.
Proof.
  destruct (cache_step crf_name output_dir st)
    as [[_ [_ Hf]]|[_ [[_ Hf]|(h & _ & Hf)]]]; simpl in Hf; rewrite Hf.
  - exists []. by rewrite List.app_nil_r.
  - exists []. by rewrite List.app_nil_r.
  - by exists [h].
Qed.

Lemma pages_heights_grow pages st :
  exists ext,
    cached_heights (trace (capture_pages pages st))
    = cached_heights (trace st) ++ ext.
Proof.
  revert st. induction pages as [|[crf_name output_dir] rest IH]; intros st.
  - exists []. by rewrite List.app_nil_r.
  - simpl.
    destruct (IH (snd (capture_full_page crf_name output_dir st))) as [ext2 ->].
    destruct (call_heights_grow crf_name output_dir st) as [ext1 ->].
    exists (ext1 ++ ext2). by rewrite List.app_assoc.
Qed.

Lemma heights_nonzero_Forall tr :
  heights_nonzero tr = true <-> Forall (fun h => h <> 0) (cached_heights tr).
Proof.
  unfold heights_nonzero. induction (cached_heights tr) as [|h hs IH]; simpl.
  - split; [constructor|done].
  - rewrite andb_true_iff, Forall_cons, IH, negb_true_iff, Z.eqb_neq. done.
Qed.

Lemma call_keeps_invariant crf_name output_dir st :
  let st' := snd (capture_full_page crf_name output_dir st) in
  height_invariant st ->
  Forall (fun h => h <> 0) (cached_heights (trace st')) ->
  height_invariant st'.
Proof.
  intros st' [Hhead Hlen] Hnz. subst st'.
  destruct (cache_step crf_name output_dir st)
    as [[_ [Hc Hf]]|[Hfalsy [[Hc Hf]|(h & Hc & Hf)]]]; simpl in *.
  - unfold height_invariant. by rewrite Hc, Hf.
  - unfold height_invariant. by rewrite Hc, Hf.
  - rewrite Hf in Hnz. apply Forall_app in Hnz as [Hnz _].
    destruct (cached_heights (trace st)) as [|h0 hs] eqn:Hhs.
    + unfold height_invariant. rewrite Hc, Hf. simpl. split; [done|lia].
    + simpl in Hhead. rewrite Hhead in Hfalsy. simpl in Hfalsy.
      apply Forall_cons in Hnz as [Hh0 _].
      apply negb_false_iff in Hfalsy. lia.
Qed.

Lemma pages_keep_invariant pages st :
  height_invariant st ->
  Forall (fun h => h <> 0) (cached_heights (trace (capture_pages pages st))) ->
  height_invariant (capture_pages pages st).
Proof.
  revert st. induction pages as [|[crf_name output_dir] rest IH]; intros st Hinv Hnz.
  - done.
  - simpl in *. apply IH; [|done].
    apply call_keeps_invariant; [done|].
    destruct (pages_heights_grow rest (snd (capture_full_page crf_name output_dir st)))
      as [ext Hext].
    rewrite Hext in Hnz. by apply Forall_app in Hnz as [Hnz _].
Qed.

(** C9. In a session that starts with a fresh capturer and whose
    discoveries measured a height other than 0, the height is cached at
    most once; the cached value is that discovery; and a call that finds
    the height cached neither rewrites it nor discovers again: it takes
    no snapshot to [test_screenshot.png]. *)
Theorem height_discovered_once pages d fs crf_name output_dir :
  let st := capture_pages pages (PageCapturer_init d fs) in
  let st' := snd (capture_full_page crf_name output_dir st) in
  heights_nonzero (trace st') = true ->
  (length (cached_heights (trace st')) <= 1)%nat /\
  actual_screenshot_height st' = head (cached_heights (trace st')) /\
  (forall s, actual_screenshot_height st = Some s ->
     actual_screenshot_height st' = Some s /\
     cached_heights (trace st') = cached_heights (trace st) /\
     exists ps, captured_paths (trace st') = captured_paths (trace st) ++ ps /\
                test_path output_dir ∉ ps).
Proof.
  intros st st' Hnz. apply heights_nonzero_Forall in Hnz.
  assert (Forall (fun h => h <> 0) (cached_heights (trace st))) as Hnz0.
  { destruct (call_heights_grow crf_name output_dir st) as [ext Hext].
    fold st' in Hext. rewrite Hext in Hnz.
    by apply Forall_app in Hnz as [Hnz _]. }
  assert (height_invariant st) as Hinv.
  { apply pages_keep_invariant; [|done]. split; simpl; [done|lia]. }
  destruct (call_keeps_invariant crf_name output_dir st Hinv Hnz) as [Hhead Hlen].
  fold st' in Hhead, Hlen.
  split; [done|]. split; [done|]. intros s Hs.
  destruct Hinv as [Hhead0 _]. rewrite Hs in Hhead0.
  assert (s <> 0) as Hs0.
  { destruct (cached_heights (trace st)) as [|h hs]; [done|].
    simpl in Hhead0. apply Forall_cons in Hnz0 as [Hh _]. congruence. }
  destruct (cache_step crf_name output_dir st)
    as [[Htruthy [Hc Hf]]|[Hfalsy _]].
  - fold st' in Hc, Hf. rewrite Hc, Hf. split; [done|]. split; [done|].
    destruct (cached_call_only_slices crf_name output_dir st Htruthy)
      as (ps & Hps & Hall).
    exists ps. split; [done|]. intros Hin.
    apply (test_path_not_slice crf_name output_dir).
    by apply (proj1 (Forall_forall _ _) Hall).
  - rewrite Hs in Hfalsy. simpl in Hfalsy.
    apply negb_false_iff in Hfalsy. lia.
Qed.

End Runs.

(** * The properties on the scripted browser *)

Lemma run_returned {S} (p : Outcome (option Image) * S) :
  is_returned (fst p) = true ->
  p = (Returned (returned_image (fst p)), snd p).
Proof. by destruct p as [[v|e] s]. Qed.

Lemma run_has_image {S} (p : Outcome (option Image) * S) :
  has_image (fst p) = true ->
  p = (Returned (Some (image_of (returned_image (fst p)))), snd p).
Proof. by destruct p as [[[img|]|e] s]. Qed.

(** A 1920 x 1000 document through a 1920 x 400 viewport. *)
Lemma slice_plan_witness :
  let st := fresh (browser 1920 1000 1920 400) in
  let st' := snd (capture_full_page "crf" "out" st) in
  scroll_offsets (trace st')
  = scroll_offsets (trace st)
    ++ ((fun i => i * 400) <$> seqZ 0 (1000 / 400))
    ++ (if 0 <? 1000 mod 400 then [1000 - 400] else []) /\
  screenshots st'
  = (temp_path "out" "crf" <$> seqZ 0 (1000 / 400))
    ++ (if 0 <? 1000 mod 400 then [final_path "out" "crf"] else []) /\
  1000 / 400 * 400 + (1000 - 1000 / 400 * 400) = 1000 /\
  1000 / 400 * 400 + 1000 mod 400 = 1000 /\
  (0 < 1000 mod 400 ->
   Forall (fun y => y <= 1000 - 400)
     (((fun i => i * 400) <$> seqZ 0 (1000 / 400)) ++ [1000 - 400])).
Proof.
  intros st st'.
  apply (slice_plan "crf" "out" st
           (returned_image (fst (capture_full_page "crf" "out" st))) st'
           1920 1000 (browser 1920 1000 1920 400) 400).
  - lia.
  - lia.
  - reflexivity.
  - refine (run_returned (capture_full_page "crf" "out" st) _).
    vm_compute. reflexivity.
  - vm_compute. reflexivity.
Defined.

(** C2.  The specification's own example, a 1920 x 300 document
    through a 1920 x 400 viewport, on a browser that, as browsers do,
    keeps the page at the top when asked to scroll above it.  The call
    does not scroll to 0: it asks for offset -100.  The one snapshot
    shows the page from its top, and the crop keeps its bottom 300 rows:
    row [y] of the image is row [y + 100] of the document, so the top
    100 rows of the page are lost, and the last 100 rows of the image
    lie below the end of the document and are blank. *)
Theorem short_page_loses_rows :
  let b := browser 1920 300 1920 400 in
  let run := capture_full_page "crf" "out" (fresh b) in
  let img := image_of (returned_image (fst run)) in
  fst run = Returned (Some img) /\
  actual_screenshot_height (snd run) = Some 400 /\
  scroll_offsets (trace (snd run)) = [-100] /\
  screenshots (snd run) = [final_path "out" "crf"] /\
  (width img, height img) = (1920, 300) /\
  (forall x y, 0 <= x < 1920 -> 0 <= y < 300 ->
     getpixel img x y = doc_pixel b x (100 + y)) /\
  getpixel img 0 0 = (0, 100, 1) /\
  getpixel img 0 199 = (0, 299, 1) /\
  getpixel img 0 200 = black.
Proof.
  intros b run img.
  assert (run = (Returned (Some img), snd run)) as Hrun.
  { refine (run_has_image run _). vm_compute. reflexivity. }
  assert (actual_screenshot_height (snd run) = Some 400) as Hcache
    by (vm_compute; reflexivity).
  assert (last (trace (snd run))
          = Some (Captured (final_path "out" "crf")
                    (mkImage 1920 400 (fun x y => doc_pixel b x (0 + y)))))
    as Hlast by (vm_compute; reflexivity).
  assert (script_page_dimensions (driver (fresh b)) = (Some (1920, 300), b))
    as Hdims by reflexivity.
  destruct (short_page_slices "crf" "out" (fresh b) (Some img) (snd run)
              1920 300 b 400 ltac:(lia) Hdims Hrun Hcache)
    as (_ & Hshort & _).
  destruct (Hshort ltac:(lia)) as (_ & _ & _ & Hpixels).
  destruct (Hpixels ltac:(vm_compute; reflexivity) img eq_refl)
    as (pre & raw & Htrace & Hraw).
  rewrite Htrace in Hlast.
  change (pre ++ [Scrolled (300 - 400); Captured (final_path "out" "crf") raw])
    with (pre ++ [Scrolled (300 - 400)] ++ [Captured (final_path "out" "crf") raw])
    in Hlast.
  rewrite List.app_assoc, last_snoc in Hlast.
  injection Hlast as Hlast.
  assert (forall x y, 0 <= x < 1920 -> 0 <= y < 300 ->
            getpixel img x y = doc_pixel b x (100 + y)) as Hall.
  { intros x y Hx Hy. rewrite (Hraw x y); [|rewrite Hlast; simpl; lia|done].
    rewrite Hlast. reflexivity. }
  split; [by rewrite Hrun at 1|]. split; [done|].
  split; [vm_compute; reflexivity|]. split; [vm_compute; reflexivity|].
  split; [vm_compute; reflexivity|]. split; [exact Hall|].
  split; [by rewrite Hall by lia|]. split; by rewrite Hall by lia.
Qed.

Lemma final_slice_tail_witness :
  let st := fresh (browser 1920 1000 1920 400) in
  let run := capture_full_page "crf" "out" st in
  let img := image_of (returned_image (fst run)) in
  exists pre fulls raw,
    trace (snd run) = pre ++ flat_map slice_events fulls
                      ++ [Scrolled (1000 - 400);
                          Captured (final_path "out" "crf") raw] /\
    length fulls = Z.to_nat (num_full_scrolls 1000 400) /\
    (forall x y,
       0 <= x < Z.min 1920 (width raw) ->
       num_full_scrolls 1000 400 * 400 <= y < 1000 ->
       getpixel img x y
       = getpixel raw x (height raw - remaining_height 1000 400
                         + (y - num_full_scrolls 1000 400 * 400))) /\
    (forall (j : nat) sl,
       fulls !! j = Some sl ->
       forall x y,
         0 <= x < Z.min 1920 (width (raw_image sl)) ->
         Z.of_nat j * 400 <= y < (Z.of_nat j + 1) * 400 ->
         getpixel img x y = getpixel (raw_image sl) x (y - Z.of_nat j * 400)).
Proof.
  intros st run img.
  apply (final_slice_tail "crf" "out" st img (snd run)
           1920 1000 (browser 1920 1000 1920 400) 400).
  - lia.
  - reflexivity.
  - reflexivity.
  - refine (run_has_image (capture_full_page "crf" "out" st) _).
    vm_compute. reflexivity.
  - vm_compute. reflexivity.
  - vm_compute. reflexivity.
Defined.

Lemma stitched_image_size_witness :
  let st := fresh (browser 1920 1000 1920 400) in
  let img := image_of (returned_image (fst (capture_full_page "crf" "out" st))) in
  width img = 1920 /\ height img = 1000.
Proof.
  intros st img.
  apply (stitched_image_size "crf" "out" st img
           (snd (capture_full_page "crf" "out" st))
           1920 1000 (browser 1920 1000 1920 400)).
  - reflexivity.
  - refine (run_has_image (capture_full_page "crf" "out" st) _).
    vm_compute. reflexivity.
Defined.

(** A document the probe reports as 0 rows high. *)
Lemma no_slice_no_image_witness :
  let run := capture_full_page "crf" "out" (fresh (browser 1920 0 1920 400)) in
  screenshots (snd run) = [] /\
  (fst run = Returned None \/ exists e, fst run = Raised e).
Proof.
  intros run. split; [vm_compute; reflexivity|].
  apply (no_slice_no_image "crf" "out" (fresh (browser 1920 0 1920 400))
           (fst run) (snd run)).
  - exact (surjective_pairing run).
  - vm_compute. reflexivity.
Defined.

(** A browser that raises at its sixth call: the call raises, and the
    snapshot it had recorded is gone. *)
Example cleanup_after_failure :
  let run := capture_full_page "crf" "out"
               (fresh (mkBrowser (10, 1000) (10, 400) 0 (Some 5%nat))) in
  fst run = Raised WebDriverException /\
  screenshots (snd run) = [temp_path "out" "crf" 0] /\
  files (snd run) = ∅.
Proof. vm_compute. repeat split. Qed.

Lemma worked_examples_witness :
  let st1000 := fresh (browser 1920 1000 1920 400) in
  let st800 := fresh (browser 1920 800 1920 400) in
  let st1000' := snd (capture_full_page "crf" "out" st1000) in
  let st800' := snd (capture_full_page "crf" "out" st800) in
  (scroll_offsets (trace st1000') = scroll_offsets (trace st1000) ++ [0; 400; 600] /\
   screenshots st1000' = [temp_path "out" "crf" 0; temp_path "out" "crf" 1;
                          final_path "out" "crf"] /\
   num_full_scrolls 1000 400 = 2 /\ remaining_height 1000 400 = 200) /\
  (scroll_offsets (trace st800') = scroll_offsets (trace st800) ++ [0; 400] /\
   screenshots st800' = [temp_path "out" "crf" 0; temp_path "out" "crf" 1] /\
   num_full_scrolls 800 400 = 2 /\ remaining_height 800 400 = 0).
Proof.
  intros st1000 st800 st1000' st800'. split.
  - apply (worked_examples "crf" "out" st1000
             (returned_image (fst (capture_full_page "crf" "out" st1000)))
             st1000' 1920 1000 (browser 1920 1000 1920 400));
      [reflexivity
      |refine (run_returned (capture_full_page "crf" "out" st1000) _);
       vm_compute; reflexivity
      |vm_compute; reflexivity|reflexivity].
  - apply (worked_examples "crf" "out" st800
             (returned_image (fst (capture_full_page "crf" "out" st800)))
             st800' 1920 800 (browser 1920 800 1920 400));
      [reflexivity
      |refine (run_returned (capture_full_page "crf" "out" st800) _);
       vm_compute; reflexivity
      |vm_compute; reflexivity|reflexivity].
Defined.

Lemma restitching_is_pixel_identical_witness :
  same_outcome (option_Forall2 pixel_identical)
    (fst (stitch 2 3 1 recorded_1)) (fst (stitch 2 3 1 recorded_2)) /\
  stitch 2 3 1 (snd (stitch 2 3 1 recorded_1)) = stitch 2 3 1 recorded_1.
Proof.
  apply (restitching_is_pixel_identical 2 3 1 recorded_1 recorded_2).
  - reflexivity.
  - repeat (constructor; [vm_compute; constructor; repeat split; reflexivity|]).
    constructor.
Defined.

(** Three pages in one session. *)
Lemma height_discovered_once_witness :
  let st := capture_pages [("a", "out"); ("b", "out")]
              (PageCapturer_init (browser 1920 1000 1920 400) ∅) in
  let st' := snd (capture_full_page "c" "out" st) in
  (length (cached_heights (trace st')) <= 1)%nat /\
  actual_screenshot_height st' = head (cached_heights (trace st')) /\
  (forall s, actual_screenshot_height st = Some s ->
     actual_screenshot_height st' = Some s /\
     cached_heights (trace st') = cached_heights (trace st) /\
     exists ps, captured_paths (trace st') = captured_paths (trace st) ++ ps /\
                test_path "out" ∉ ps).
Proof.
  apply (height_discovered_once [("a", "out"); ("b", "out")]
           (browser 1920 1000 1920 400) ∅ "c" "out").
  vm_compute. reflexivity.
Defined.

Lemma positive_page_is_stitched_witness :
  let run := capture_full_page "crf" "out" (fresh (browser 1920 1000 1920 400)) in
  fst run <> Returned None /\
  (fst run <> Raised WebDriverException -> screenshots (snd run) <> []) /\
  (0 <= 1920 ->
   (exists img, fst run = Returned (Some img)) \/
   fst run = Raised WebDriverException).
Proof.
  intros run.
  apply (positive_page_is_stitched "crf" "out"
           (fresh (browser 1920 1000 1920 400)) (fst run) (snd run)
           1920 1000 (browser 1920 1000 1920 400) 400).
  - lia.
  - lia.
  - reflexivity.
  - exact (surjective_pairing run).
  - vm_compute. reflexivity.
Defined.

(** * More of the capturer *)

Section Seamless.

Context {D : Type} `{WebDriver D}.

Implicit Types st : Session D.

(** ** The rows of a stitched image *)

(** Without a remainder no file is cropped. *)
Lemma full_items_exact len st fulls :
  forall i,
    Forall (fun sl => files st !! slice_path sl = Some (raw_image sl)) fulls ->
    Forall2 (fun ip e =>
               exists img, files st !! snd ip = Some img /\
                           e = effective 0 len (fst ip) img)
            (enumerate_from i (slice_path <$> fulls)) (raw_image <$> fulls).
Proof.
  induction fulls as [|sl fulls IH]; intros i Hfiles; [constructor|].
  apply Forall_cons in Hfiles as [Hsl Hfiles]. simpl in *.
  constructor; [|by apply IH].
  exists (raw_image sl). split; [done|]. simpl. unfold effective.
  by rewrite andb_false_r.
Qed.

(** The paste loop on the files of [fulls] followed by those of [fins]:
    the full slices land at multiples of [s], the final one (if any)
    below them, cropped to its bottom [remaining] rows. *)
Lemma stitch_rows full_width full_height remaining s st1 fulls fins img :
  0 < s -> 0 <= remaining < s ->
  screenshots st1 = slice_path <$> (fulls ++ fins) ->
  fulls ++ fins <> [] ->
  Forall (fun sl => files st1 !! slice_path sl = Some (raw_image sl)) fulls ->
  Forall (fun sl => height (raw_image sl) = s) (fulls ++ fins) ->
  Z.of_nat (length fulls) * s + remaining = full_height ->
  (0 < remaining /\
   exists fin, fins = [fin] /\
     files st1 !! slice_path fin = Some (crop_bottom (raw_image fin) remaining))
  \/ (remaining = 0 /\ fins = []) ->
  stitch full_width full_height remaining st1 = (Returned (Some img), st1) ->
  (forall (j : nat) sl,
     fulls !! j = Some sl ->
     forall x y,
       0 <= x < Z.min full_width (width (raw_image sl)) ->
       Z.of_nat j * s <= y < (Z.of_nat j + 1) * s ->
       getpixel img x y = getpixel (raw_image sl) x (y - Z.of_nat j * s)) /\
  (forall fin,
     fins = [fin] ->
     forall x y,
       0 <= x < Z.min full_width (width (raw_image fin)) ->
       Z.of_nat (length fulls) * s <= y < full_height ->
       getpixel img x y
       = getpixel (raw_image fin) x
           (s - remaining + (y - Z.of_nat (length fulls) * s))).
Proof.
  intros Hs Hrem Hshots Hne Hfiles Hheights Hsum Hfins Hst.
  apply Forall_app in Hheights as [Hfull_h Hfin_h].
  assert (screenshots st1 <> []) as Hne'.
  { rewrite Hshots. intros Hnil. apply fmap_nil_inv in Hnil. done. }
  rewrite (stitch_eq_recorded _ _ _ _ Hne') in Hst.
  destruct ((full_width <? 0) || (full_height <? 0)) eqn:Hneg; [done|].
  set (tail := match fins with
               | fin :: _ =>
                   [crop_bottom (crop_bottom (raw_image fin) remaining) remaining]
               | [] => []
               end).
  destruct (stitch_loop_content (enumerate (screenshots st1))
              (Z.of_nat (length (screenshots st1))) full_height remaining st1
              ((raw_image <$> fulls) ++ tail)
              (mkImage full_width full_height (fun _ _ => black)) 0)
    as (out & Hout & Hw & Hh & _ & Hbands).
  { rewrite Hshots, fmap_app. unfold enumerate. rewrite enumerate_from_app.
    apply Forall2_app.
    - destruct Hfins as [[Hpos (fin & -> & _)]|[-> ->]].
      + apply full_items; [done|]. rewrite length_app, !length_fmap. simpl. lia.
      + by apply full_items_exact.
    - destruct Hfins as [[Hpos (fin & -> & Hfile)]|[-> ->]]; [|constructor].
      simpl. constructor; [|constructor].
      exists (crop_bottom (raw_image fin) remaining). split; [done|]. simpl.
      unfold effective. rewrite length_app, !length_fmap. simpl.
      rewrite (proj2 (Z.eqb_eq _ _)) by lia.
      by rewrite (proj2 (Z.ltb_lt _ _)) by lia. }
  { apply Forall_app. split.
    - apply Forall_fmap. eapply Forall_impl; [exact Hfull_h|].
      simpl. intros sl Hsl. lia.
    - destruct Hfins as [[Hpos (fin & -> & _)]|[-> ->]]; [|constructor].
      apply Forall_singleton.
      destruct (crop_bottom_size (crop_bottom (raw_image fin) remaining) remaining)
        as [_ ->]. done. }
  { rewrite sum_heights_app, (sum_heights_full s) by done.
    destruct Hfins as [[Hpos (fin & -> & _)]|[-> ->]]; subst tail; cbv beta iota.
    - rewrite sum_heights_cons. change (sum_heights []) with 0.
      destruct (crop_bottom_size (crop_bottom (raw_image fin) remaining) remaining)
        as [_ ->]. lia.
    - change (sum_heights []) with 0. lia. }
  destruct (stitch_loop _ _ _ _ _ _ st1) as [[o|e] s1]; [|done].
  cbn [fst] in Hout.
  assert (o = out) as -> by congruence.
  assert (img = crop out (0, 0, full_width, full_height)) as -> by congruence.
  clear Hst Hout. simpl in Hw, Hh.
  split.
  - intros j sl Hj x y Hx Hy.
    pose proof (lookup_lt_Some _ _ _ Hj) as Hjlt.
    rewrite crop_document_pixel by nia.
    assert (((raw_image <$> fulls) ++ tail) !! j = Some (raw_image sl)) as Hj'.
    { rewrite lookup_app_l by (by rewrite length_fmap).
      by rewrite list_lookup_fmap, Hj. }
    specialize (Hbands _ _ Hj' x y).
    rewrite take_app_le in Hbands by (rewrite length_fmap; lia).
    rewrite <- fmap_take in Hbands.
    rewrite (sum_heights_full s) in Hbands by (by apply Forall_take).
    rewrite length_take in Hbands.
    replace (y - (0 + Z.of_nat (j `min` length fulls) * s))
      with (y - Z.of_nat j * s) in Hbands by lia.
    apply Hbands. unfold in_image.
    rewrite (Forall_lookup_1 _ _ _ _ Hfull_h Hj). lia.
  - intros fin -> x y Hx Hy.
    destruct Hfins as [[Hpos (fin' & [= <-] & _)]|[_ ?]]; [|done].
    rewrite Forall_singleton in Hfin_h.
    rewrite crop_document_pixel by lia.
    set (cc := crop_bottom (crop_bottom (raw_image fin) remaining) remaining).
    assert (((raw_image <$> fulls) ++ [cc]) !! length fulls = Some cc) as Hj.
    { apply list_lookup_middle. by rewrite length_fmap. }
    specialize (Hbands _ _ Hj x y).
    rewrite take_app_length' in Hbands by (by rewrite length_fmap).
    rewrite (sum_heights_full s), Z.add_0_l in Hbands by done.
    destruct (crop_bottom_twice (raw_image fin) remaining x
                (y - Z.of_nat (length fulls) * s))
      as [Hin Hpx]; [lia..|].
    fold cc in Hin, Hpx. rewrite Hbands, Hpx by done. f_equal. lia.
Qed.

(** The slices of a run: the full ones, then the final one if there is
    a remainder. *)
Lemma planned_split crf_name output_dir full_height s slices :
  planned crf_name output_dir full_height s slices ->
  exists fulls fins,
    slices = fulls ++ fins /\
    length fulls = Z.to_nat (num_full_scrolls full_height s) /\
    Forall (fun sl => is_final sl = false) fulls /\
    scroll_offset <$> fulls
    = (fun i => i * s) <$> seqZ 0 (num_full_scrolls full_height s) /\
    ((0 < remaining_height full_height s /\
      exists fin, fins = [fin] /\ is_final fin = true /\
                  scroll_offset fin = full_height - s)
     \/ (remaining_height full_height s <= 0 /\ fins = [])).
Proof.
  intros (Hoff & _ & Hfin). unfold plan_offsets, plan_finals in *.
  apply fmap_app_inv in Hfin as (fulls & fins & Hfulls & Hfins & ->).
  assert (length fulls = Z.to_nat (num_full_scrolls full_height s)) as Hlen.
  { apply (f_equal length) in Hfulls.
    by rewrite !length_fmap, length_seqZ in Hfulls. }
  rewrite fmap_app in Hoff.
  apply app_inj_1 in Hoff as [Hoff1 Hoff2];
    [|by rewrite !length_fmap, length_seqZ].
  exists fulls, fins. split; [done|]. split; [done|]. split.
  { eapply fmap_const_Forall. by symmetry. }
  split; [done|].
  destruct (0 <? remaining_height full_height s) eqn:Hrem.
  - left. split; [lia|].
    symmetry in Hfins. apply fmap_cons_inv in Hfins as (fin & rest & Hf & Hrest & ->).
    symmetry in Hrest. apply fmap_nil_inv in Hrest as ->.
    exists fin. simpl in Hoff2. by simplify_eq.
  - right. split; [lia|]. symmetry in Hfins. by apply fmap_nil_inv in Hfins.
Qed.

Lemma slices_widths w pre slices :
  snapshots_wide w (pre ++ flat_map slice_events slices) = true ->
  Forall (fun sl => w <= width (raw_image sl)) slices.
Proof.
  unfold snapshots_wide. rewrite forallb_app.
  intros [_ Hall]%andb_prop.
  induction slices as [|sl slices IH]; [constructor|].
  simpl in Hall. apply andb_prop in Hall as [Hsl Hall].
  constructor; [lia|by apply IH].
Qed.

Lemma slices_show_tail doc e tr :
  slices_show doc (e :: tr) -> slices_show doc tr.
Proof.
  destruct e as [o|p img|h]; [|done..].
  destruct tr as [|[o2|p img|h] tr]; [done..| |done].
  simpl. tauto.
Qed.

Lemma slices_show_suffix doc tr1 tr2 :
  slices_show doc (tr1 ++ tr2) -> slices_show doc tr2.
Proof.
  induction tr1 as [|e tr1 IH]; [done|].
  intros Hall. by apply IH, (slices_show_tail doc e).
Qed.

Lemma slices_show_each doc slices :
  slices_show doc (flat_map slice_events slices) ->
  Forall (fun sl => shows doc (scroll_offset sl) (raw_image sl)) slices.
Proof.
  induction slices as [|sl slices IH]; [constructor|].
  simpl. intros [Hsl Hrest]. constructor; [done|by apply IH].
Qed.

Lemma discovered_trace output_dir st s sta :
  discovered output_dir st s sta ->
  exists disc, trace sta = trace st ++ disc.
Proof.
  intros (_ & _ & _ & [(_ & -> & _)|(_ & d & img & d' & _ & _ & -> & _)]).
  - exists []. by rewrite List.app_nil_r.
  - by eexists.
Qed.

(** X1. If the viewport keeps its height [s] and is as wide as the
    document, and every slice snapshot of the call shows the document at
    the offset the call scrolled to, then the stitched image is the
    document: no seam, no repeated row, no blank row. *)
Theorem seamless_stitching crf_name output_dir st img st'
    full_width full_height d s doc :
  0 < s ->
  script_page_dimensions (driver st) = (Some (full_width, full_height), d) ->
  capture_full_page crf_name output_dir st = (Returned (Some img), st') ->
  actual_screenshot_height st' = Some s ->
  snapshots_have_height s (trace st') = true ->
  snapshots_wide full_width (trace st') = true ->
  slices_show doc (drop (length (trace st)) (trace st')) ->
  forall x y,
    0 <= x < full_width -> 0 <= y < full_height ->
    getpixel img x y = doc x y.
Proof.
  intros Hs Hdims Hrun Hcache Hheights Hwide Hshow x y Hx Hy.
  destruct (capture_completed _ _ _ _ _ Hrun)
    as (W & Hh & d0 & s0 & sta & st1 & slices
        & Hdims0 & Hdisc & Hc & Hp & Hst & Hcl); [done|done|].
  rewrite Hdims in Hdims0. simplify_eq.
  pose proof (completed_height _ _ _ _ _ _ _ _ Hdisc Hc Hcl) as Hs0.
  rewrite Hcache in Hs0. simplify_eq.
  pose proof (full_scrolls_and_remainder Hh s0 ltac:(lia)) as Hdiv.
  pose proof (Z.mod_pos_bound Hh s0 Hs) as Hrem.
  fold (remaining_height Hh s0) in Hrem.
  assert (0 <= num_full_scrolls Hh s0) as Hq by (apply Z.div_pos; lia).
  pose proof (plan_paths_NoDup crf_name output_dir Hh s0) as Hnd.
  destruct (planned_split _ _ _ _ _ Hp)
    as (fulls & fins & -> & Hlen & Hnf & Hoffs & Hfins).
  destruct Hp as (_ & Hpaths & _). rewrite <- Hpaths in Hnd.
  apply cleaned_same in Hcl as (_ & Htr' & _).
  destruct Hc as (Htr & Hshots & Hfiles & _).
  destruct (discovered_trace _ _ _ _ Hdisc) as [disc Hdisc_tr].
  destruct Hdisc as (_ & _ & Hempty & _).
  rewrite Hempty in Hshots. simpl in Hshots.
  rewrite Htr', Htr in Hheights, Hwide.
  apply slices_heights in Hheights. apply slices_widths in Hwide.
  rewrite Htr', Htr, Hdisc_tr, <- List.app_assoc, drop_app_length in Hshow.
  apply slices_show_suffix, slices_show_each in Hshow.
  assert (Z.of_nat (length fulls) = num_full_scrolls Hh s0) as Hlenq by lia.
  assert (Forall (fun sl => files st1 !! slice_path sl = Some (raw_image sl)) fulls)
    as Hfull_files.
  { apply Forall_lookup. intros j sl Hj. rewrite Hfiles.
    rewrite (write_slices_lookup _ (files sta) (fulls ++ fins) j sl Hnd).
    - unfold slice_file. by rewrite (Forall_lookup_1 _ _ _ _ Hnf Hj).
    - by apply lookup_app_l_Some. }
  destruct (stitch_rows W Hh (remaining_height Hh s0) s0 st1 fulls fins img)
    as [Hfull_rows Hfin_rows]; try done.
  { intros Hnil. apply app_eq_nil in Hnil as [-> ->].
    destruct Hfins as [[? (fin & ? & _)]|[? _]]; [done|]. simpl in Hlenq. lia. }
  { lia. }
  { destruct Hfins as [[Hpos (fin & -> & Hfin & _)]|[Hzero ->]]; [left|right].
    - split; [done|]. exists fin. split; [done|]. rewrite Hfiles.
      rewrite (write_slices_lookup _ (files sta) (fulls ++ [fin])
                 (length fulls) fin Hnd).
      + unfold slice_file. by rewrite Hfin.
      + by apply list_lookup_middle.
    - split; [lia|done]. }
  apply Forall_app in Hwide as [Hfull_w Hfin_w].
  apply Forall_app in Hshow as [Hfull_s Hfin_s].
  apply Forall_app in Hheights as [Hfull_h Hfin_h].
  destruct (decide (y < num_full_scrolls Hh s0 * s0)) as [Hlow|Hhigh].
  - (* a row of a full slice *)
    set (j := Z.to_nat (y / s0)).
    assert (0 <= y / s0 < num_full_scrolls Hh s0) as Hj.
    { split; [apply Z.div_pos; lia|]. apply Z.div_lt_upper_bound; lia. }
    pose proof (Z.div_mod y s0 ltac:(lia)) as Hy_div.
    pose proof (Z.mod_pos_bound y s0 Hs) as Hy_mod.
    destruct (lookup_lt_is_Some_2 fulls j) as [sl Hsl]; [lia|].
    pose proof (Forall_lookup_1 _ _ _ _ Hfull_w Hsl) as Hw. simpl in Hw.
    pose proof (Forall_lookup_1 _ _ _ _ Hfull_s Hsl) as Hsh. simpl in Hsh.
    pose proof (Forall_lookup_1 _ _ _ _ Hfull_h Hsl) as Hhe. simpl in Hhe.
    assert (scroll_offset sl = Z.of_nat j * s0) as Hoff.
    { apply (f_equal (fun l => l !! j)) in Hoffs.
      rewrite !list_lookup_fmap, Hsl, lookup_seqZ_lt in Hoffs by lia.
      simpl in Hoffs. injection Hoffs as ->. lia. }
    rewrite (Hfull_rows j sl Hsl x y) by lia.
    rewrite Hsh, Hoff; [f_equal; lia|].
    unfold in_image. rewrite Hhe. lia.
  - (* a row of the final slice *)
    destruct Hfins as [[Hpos (fin & -> & Hfin & Hoff)]|[Hzero ->]]; [|lia].
    rewrite Forall_singleton in Hfin_w, Hfin_s, Hfin_h.
    rewrite (Hfin_rows fin eq_refl x y) by lia.
    rewrite Hfin_s, Hoff; [f_equal; lia|].
    unfold in_image. rewrite Hfin_h. lia.
Qed.

End Seamless.

Section Files.

Context {D : Type} `{WebDriver D}.

Implicit Types st : Session D.

(** ** Which files a call touches *)

(** From [st0] to [st1] only slice files changed, and only slice files
    are recorded. *)
Definition slice_files_only (crf_name output_dir : string) st0 st1 : Prop :=
  (forall p, ~ is_slice_path crf_name output_dir p ->
             files st1 !! p = files st0 !! p) /\
  Forall (is_slice_path crf_name output_dir) (screenshots st1).

Lemma full_scroll_files crf_name output_dir s i st0 st :
  slice_files_only crf_name output_dir st0 st ->
  wp (scrollTo (i * s);;
      save_screenshot (temp_path output_dir crf_name i);;
      screenshots_append (temp_path output_dir crf_name i))
     (fun _ st1 => slice_files_only crf_name output_dir st0 st1) st.
Proof.
  intros [Hkept Hrec].
  assert (is_slice_path crf_name output_dir (temp_path output_dir crf_name i))
    as Hslice by (right; by exists i).
  unfold wp, mbind, M_bind, bind, scrollTo, save_screenshot, screenshots_append.
  destruct (script_scroll_to (i * s) (driver st)) as [[[]|] d1]; simpl.
  - destruct (screenshot_png d1) as [[img|] d2]; simpl.
    + split; simpl.
      * intros p Hp. rewrite lookup_insert_ne; [by apply Hkept|].
        by intros <-.
      * apply Forall_app. split; [done|]. by constructor.
    + by split.
  - by split.
Qed.

Lemma final_scroll_files crf_name output_dir full_height s st0 st :
  slice_files_only crf_name output_dir st0 st ->
  wp (scrollTo (full_height - s);;
      save_screenshot (final_path output_dir crf_name);;
      img ← Image_open (final_path output_dir crf_name);
      let crop_y := height img - remaining_height full_height s in
      let cropped := crop img (0, crop_y, width img, height img) in
      Image_save cropped (final_path output_dir crf_name);;
      screenshots_append (final_path output_dir crf_name))
     (fun _ st1 => slice_files_only crf_name output_dir st0 st1) st.
Proof.
  intros [Hkept Hrec].
  assert (is_slice_path crf_name output_dir (final_path output_dir crf_name))
    as Hslice by (by left).
  unfold wp, mbind, M_bind, bind, scrollTo, save_screenshot, Image_open,
    Image_save, screenshots_append.
  destruct (script_scroll_to (full_height - s) (driver st)) as [[[]|] d1]; simpl.
  - destruct (screenshot_png d1) as [[raw|] d2]; simpl.
    + rewrite lookup_insert_eq. simpl. split; simpl.
      * intros p Hp. rewrite !lookup_insert_ne by (by intros <-).
        by apply Hkept.
      * apply Forall_app. split; [done|]. by constructor.
    + by split.
  - by split.
Qed.

Lemma capture_slices_files crf_name output_dir full_height s st0 st :
  slice_files_only crf_name output_dir st0 st ->
  wp (capture_slices crf_name output_dir full_height s)
     (fun _ st1 => slice_files_only crf_name output_dir st0 st1) st.
Proof.
  intros Hst. unfold capture_slices. apply wp_bind.
  eapply wp_mono.
  - apply (wp_for_each _ (fun _ st1 => slice_files_only crf_name output_dir st0 st1)
             (fun _ st1 => slice_files_only crf_name output_dir st0 st1)
             (seqZ 0 (num_full_scrolls full_height s))) with (done := []);
      [|exact Hst].
    intros _ i st1 Hst1.
    eapply wp_mono; [by apply full_scroll_files|].
    by intros [[]|e] st2.
  - intros [[]|e] st1 Hst1; [|done].
    destruct (0 <? remaining_height full_height s).
    + by apply final_scroll_files.
    + by apply wp_ret.
Qed.

Lemma capture_with_height_files crf_name output_dir full_width full_height s st p :
  ~ is_slice_path crf_name output_dir p ->
  files (snd (capture_with_height crf_name output_dir full_width full_height s st))
  !! p = files st !! p.
Proof.
  intros Hp.
  assert (wp (capture_with_height crf_name output_dir full_width full_height s)
             (fun _ st' => files st' !! p = files st !! p) st) as Hwp; [|exact Hwp].
  unfold capture_with_height.
  apply wp_bind. unfold wp at 1. simpl.
  apply wp_try_finally, wp_bind.
  eapply wp_mono.
  - apply (capture_slices_files crf_name output_dir full_height s
             (set_screenshots [] st)). split; [done|]. simpl. constructor.
  - intros r st1 [Hkept Hrec]. simpl in Hkept.
    assert (forall r0 : Outcome (option Image),
              wp cleanup
                (fun r2 st2 =>
                   match r2 with
                   | Returned _ | Raised _ => files st2 !! p = files st !! p
                   end) st1) as Hclean.
    { intros _. eapply wp_mono; [apply cleanup_spec|].
      intros r2 st2 [-> ->]. simpl.
      rewrite remove_all_other; [by apply Hkept|].
      intros Hin. apply Hp. by apply (proj1 (Forall_forall _ _) Hrec). }
    destruct r as [[]|e].
    + pose proof (stitch_state full_width full_height
                    (remaining_height full_height s) st1) as Hsame.
      unfold wp at 1.
      destruct (stitch _ _ _ st1) as [r1 st1'] eqn:Hstitch.
      simpl in Hsame. subst st1'. simpl.
      eapply wp_mono; [exact (Hclean r1)|]. by intros [?|?] st2.
    + eapply wp_mono; [exact (Hclean (Raised e))|]. by intros [?|?] st2.
Qed.

Lemma capture_full_page_files crf_name output_dir st p :
  ~ is_slice_path crf_name output_dir p ->
  p <> test_path output_dir ->
  files (snd (capture_full_page crf_name output_dir st)) !! p = files st !! p.
Proof.
  intros Hp Htest.
  unfold capture_full_page, enter_frame.
  unfold mbind at 1 2 3 4 5, M_bind at 1 2 3 4 5, bind at 1 2 3 4 5.
  unfold put_screenshots at 1, get_page_dimensions, get_screenshot_height.
  simpl.
  destruct (script_page_dimensions (driver st)) as [[[full_width full_height]|] d];
    simpl; [|done].
  destruct (truthy (actual_screenshot_height st)) eqn:Htruthy; simpl.
  - unfold read_divisor, mbind, M_bind, bind, get_screenshot_height. simpl.
    destruct (actual_screenshot_height st) as [s|] eqn:Hs; [|done].
    destruct (s =? 0); [done|]. unfold ret. simpl.
    by rewrite capture_with_height_files.
  - unfold discover_screenshot_height, read_divisor.
    unfold mbind, M_bind, bind, save_screenshot, Image_open,
      put_screenshot_height, os_remove, get_screenshot_height. simpl.
    destruct (screenshot_png d) as [[img|] d'] eqn:Hshot; simpl; [|done].
    rewrite lookup_insert_eq. simpl. rewrite lookup_insert_eq. simpl.
    destruct (height img =? 0); unfold raise, ret; simpl.
    + rewrite lookup_delete_ne, lookup_insert_ne by done. done.
    + rewrite capture_with_height_files by done. simpl.
      rewrite lookup_delete_ne, lookup_insert_ne by done. done.
Qed.

(** X2. A call changes no file other than its own slice files and the
    discovery file: whatever else is on disk is there afterwards, as it
    was, however the call ended. *)
Theorem other_files_untouched crf_name output_dir st p :
  ~ is_slice_path crf_name output_dir p ->
  p <> test_path output_dir ->
  files (snd (capture_full_page crf_name output_dir st)) !! p = files st !! p.
Proof. apply capture_full_page_files. Qed.

(** X3. A call that discovered the screenshot height leaves no
    [test_screenshot.png] behind, also when one was there before and
    also when the call raised later on. *)
Theorem discovery_file_removed crf_name output_dir st :
  let st' := snd (capture_full_page crf_name output_dir st) in
  cached_heights (trace st') <> cached_heights (trace st) ->
  files st' !! test_path output_dir = None.
Proof.
  intros st'. subst st'.
  destruct (cache_step crf_name output_dir st)
    as [[_ [_ Hf]]|[Hfalsy _]]; [simpl in Hf; done|].
  destruct (capture_full_page crf_name output_dir st) as [r st'] eqn:Hrun.
  simpl. revert Hrun.
  unfold capture_full_page, enter_frame.
  unfold mbind at 1 2 3 4 5, M_bind at 1 2 3 4 5, bind at 1 2 3 4 5.
  unfold put_screenshots at 1, get_page_dimensions, get_screenshot_height.
  simpl.
  destruct (script_page_dimensions (driver st)) as [[[full_width full_height]|] d];
    simpl; [|by intros ?; simplify_eq].
  rewrite Hfalsy. simpl.
  unfold discover_screenshot_height, read_divisor.
  unfold mbind, M_bind, bind, save_screenshot, Image_open,
    put_screenshot_height, os_remove, get_screenshot_height. simpl.
  destruct (screenshot_png d) as [[img|] d'] eqn:Hshot; simpl;
    [|by intros ?; simplify_eq].
  rewrite lookup_insert_eq. simpl. rewrite lookup_insert_eq. simpl.
  destruct (height img =? 0); unfold raise, ret; simpl.
  - intros Hrun _. injection Hrun as _ <-. simpl. apply lookup_delete_eq.
  - intros Hrun _.
    match type of Hrun with
    | capture_with_height _ _ _ _ _ ?stx = _ =>
        pose proof (capture_with_height_files crf_name output_dir full_width
                      full_height (height img) stx (test_path output_dir)
                      (test_path_not_slice crf_name output_dir)) as Hkept
    end.
    rewrite Hrun in Hkept. simpl in Hkept. rewrite Hkept.
    apply lookup_delete_eq.
Qed.

End Files.

Section Plans.

Context {D : Type} `{WebDriver D}.

Implicit Types st : Session D.

(** ** Documents of no height *)

(** X4. For a document height that is not positive, the driver apart,
    the call does one of two things.  A height the viewport height
    divides (0 among them) takes no snapshot and answers [None].  Any
    other negative height takes the one final snapshot, scrolled to a
    negative offset, and then raises [ValueError] when the canvas is
    allocated. *)
Theorem nonpositive_height crf_name output_dir st r st'
    full_width full_height d s :
  full_height <= 0 -> 0 < s ->
  script_page_dimensions (driver st) = (Some (full_width, full_height), d) ->
  capture_full_page crf_name output_dir st = (r, st') ->
  actual_screenshot_height st' = Some s ->
  r = Raised WebDriverException \/
  (full_height mod s = 0 /\ r = Returned None /\
   screenshots st' = [] /\
   scroll_offsets (trace st') = scroll_offsets (trace st)) \/
  (full_height mod s <> 0 /\ r = Raised ValueError /\
   screenshots st' = [final_path output_dir crf_name] /\
   scroll_offsets (trace st') = scroll_offsets (trace st) ++ [full_height - s]).
Proof.
  intros Hh Hs Hdims Hrun Hcache.
  destruct (capture_full_page_spec _ _ _ _ _ Hrun)
    as [(_ & _ & [[-> _]|(-> & _ & Hzero & _)])
       |(W & Hh0 & d0 & s0 & sta & st1 & Hdims0 & Hdisc & Hacq & Hcl)].
  - by left.
  - rewrite Hcache in Hzero. simplify_eq. lia.
  - rewrite Hdims in Hdims0. simplify_eq.
    destruct Hacq as [[-> _]|(slices & Hc & Hp & Hst)]; [by left|].
    pose proof (completed_height _ _ _ _ _ _ _ _ Hdisc Hc Hcl) as Hs0.
    rewrite Hcache in Hs0. simplify_eq.
    pose proof (discovered_scrolls _ _ _ _ Hdisc) as Hsc.
    apply cleaned_same in Hcl as (Hshots & Htr & _).
    destruct Hc as (Htr1 & Hshots1 & _ & _), Hp as (Ho & Hpa & _).
    destruct Hdisc as (_ & _ & Hempty & _).
    rewrite Hempty in Hshots1. simpl in Hshots1.
    assert (scroll_offsets (trace st')
            = scroll_offsets (trace st) ++ plan_offsets Hh0 s0) as Hoffs.
    { by rewrite Htr, Htr1, scroll_offsets_app, scroll_offsets_slices, Ho, Hsc. }
    assert (screenshots st1 = plan_paths crf_name output_dir Hh0 s0) as Hpaths.
    { by rewrite Hshots1, Hpa. }
    unfold plan_offsets in Hoffs. unfold plan_paths in Hpaths.
    unfold num_full_scrolls, remaining_height in *.
    assert (Hh0 / s0 <= 0) as Hq by (apply Z.div_le_upper_bound; lia).
    rewrite (seqZ_nil 0 (Hh0 / s0)) in Hoffs, Hpaths by done.
    simpl in Hoffs, Hpaths.
    pose proof (Z.mod_pos_bound Hh0 s0 Hs) as Hmod.
    right. destruct (0 <? Hh0 mod s0) eqn:Hrem.
    + right. apply Z.ltb_lt in Hrem.
      split; [lia|]. split; [|by rewrite Hshots, Hpaths].
      rewrite stitch_eq_recorded in Hst by (by rewrite Hpaths).
      assert (Hh0 < 0) as Hneg.
      { destruct (decide (Hh0 = 0)) as [->|]; [|lia].
        rewrite Z.mod_0_l in Hrem; lia. }
      replace ((W <? 0) || (Hh0 <? 0)) with true in Hst
        by (symmetry; apply orb_true_iff; right; lia).
      congruence.
    + left. apply Z.ltb_ge in Hrem.
      split; [lia|]. rewrite List.app_nil_r in Hoffs.
      rewrite stitch_nothing in Hst by done.
      split; [congruence|]. split; [by rewrite Hshots, Hpaths|done].
Qed.

(** ** The order of the snapshots *)

Lemma plan_offsets_lookup full_height s i a :
  0 < s -> 0 <= full_height ->
  plan_offsets full_height s !! i = Some a ->
  (Z.of_nat i < full_height / s /\ a = Z.of_nat i * s) \/
  (Z.of_nat i = full_height / s /\ 0 < full_height mod s /\
   a = full_height - s).
Proof.
  intros Hs Hh. unfold plan_offsets, num_full_scrolls, remaining_height.
  assert (0 <= full_height / s) as Hq by (apply Z.div_pos; lia).
  intros Hl. apply lookup_app_Some in Hl as [Hl|[Hlen Hl]].
  - left. rewrite list_lookup_fmap in Hl.
    destruct (seqZ 0 (full_height / s) !! i) as [k|] eqn:Hk; [|done].
    apply lookup_seqZ in Hk as [-> Hk]. simpl in Hl. simplify_eq.
    split; [done|]. lia.
  - right. rewrite length_fmap, length_seqZ in Hlen, Hl.
    destruct (0 <? full_height mod s) eqn:Hrem; [|done].
    apply Z.ltb_lt in Hrem.
    apply list_lookup_singleton_Some in Hl as [Hi <-].
    split; [lia|done].
Qed.

(** X5. A completed call on a document of positive height scrolls
    strictly downwards.  When the document is at least one viewport
    high, the first snapshot is taken at the top, the last one ends at
    the bottom of the document, and no offset lies outside the range the
    page can scroll to. *)
Theorem scrolls_top_to_bottom crf_name output_dir st res st'
    full_width full_height d s :
  0 < full_height -> 0 < s ->
  script_page_dimensions (driver st) = (Some (full_width, full_height), d) ->
  capture_full_page crf_name output_dir st = (Returned res, st') ->
  actual_screenshot_height st' = Some s ->
  exists offs,
    scroll_offsets (trace st') = scroll_offsets (trace st) ++ offs /\
    (forall i j a b, (i < j)%nat ->
       offs !! i = Some a -> offs !! j = Some b -> a < b) /\
    (s <= full_height ->
     head offs = Some 0 /\ last offs = Some (full_height - s) /\
     Forall (fun y => 0 <= y <= full_height - s) offs).
Proof.
  intros Hh Hs Hdims Hrun Hcache.
  destruct (capture_follows_plan _ _ _ _ _ _ _ _ _ Hdims Hrun Hcache)
    as [Hoff _].
  exists (plan_offsets full_height s). split; [exact Hoff|].
  pose proof (Z.div_mod full_height s ltac:(lia)) as Hdm.
  pose proof (Z.mod_pos_bound full_height s Hs) as Hmod.
  assert (0 <= full_height / s) as Hq by (apply Z.div_pos; lia).
  assert (0 <= full_height) as Hh' by lia.
  split.
  - intros i j a b Hij Ha Hb.
    destruct (plan_offsets_lookup _ _ _ _ Hs Hh' Ha) as [[Hi ->]|(Hi & Hrem & ->)];
      destruct (plan_offsets_lookup _ _ _ _ Hs Hh' Hb) as [[Hj ->]|(Hj & Hrem' & ->)].
    + apply Z.mul_lt_mono_pos_r; lia.
    + nia.
    + lia.
    + lia.
  - intros Hle.
    assert (0 < full_height / s) as Hq1 by (apply Z.div_str_pos; lia).
    split; [|split].
    + unfold plan_offsets, num_full_scrolls.
      rewrite seqZ_cons by done. done.
    + unfold plan_offsets, num_full_scrolls, remaining_height.
      destruct (0 <? full_height mod s) eqn:Hrem.
      * by rewrite last_snoc.
      * apply Z.ltb_ge in Hrem. rewrite List.app_nil_r, fmap_last.
        replace (full_height / s) with (Z.of_nat (S (Z.to_nat (full_height / s - 1))))
          at 1 by lia.
        rewrite seqZ_S, last_snoc. simpl. f_equal. nia.
    + apply Forall_lookup. intros i a Ha.
      destruct (plan_offsets_lookup _ _ _ _ Hs Hh' Ha) as [[Hi ->]|(Hi & Hrem & ->)];
        [nia|lia].
Qed.

End Plans.

(** On the scripted browser, a 1920 x 1000 document through a 1920 x 400
    viewport: row 900 of the image, which comes from the cropped final
    slice, is row 900 of the document. *)
Lemma seamless_stitching_witness :
  let b := browser 1920 1000 1920 400 in
  let img := image_of (returned_image (fst (capture_full_page "crf" "out" (fresh b)))) in
  getpixel img 7 900 = doc_pixel b 7 900.
Proof.
  intros b img.
  refine (seamless_stitching "crf" "out" (fresh b) img
            (snd (capture_full_page "crf" "out" (fresh b))) 1920 1000 b 400
            (doc_pixel b) _ _ _ _ _ _ _ 7 900 _ _).
  - lia.
  - reflexivity.
  - refine (run_has_image (capture_full_page "crf" "out" (fresh b)) _).
    vm_compute. reflexivity.
  - vm_compute. reflexivity.
  - vm_compute. reflexivity.
  - vm_compute. reflexivity.
  - vm_compute. repeat split; intros x y _; reflexivity.
  - lia.
  - lia.
Defined.

(** A bitmap that was in the output directory before the call is there
    after it. *)
Lemma other_files_untouched_witness :
  let st := PageCapturer_init (browser 1920 1000 1920 400)
              (<["out/earlier.png" := slice_a]> ∅) in
  files (snd (capture_full_page "crf" "out" st)) !! "out/earlier.png"
  = files st !! "out/earlier.png".
Proof.
  intros st.
  apply (other_files_untouched "crf" "out" st "out/earlier.png").
  - intros [Hfinal|[i Htemp]].
    + vm_compute in Hfinal. discriminate.
    + unfold temp_path, os_path_join in Htemp. simpl in Htemp. discriminate.
  - vm_compute. discriminate.
Defined.

(** The first call of a session discovers the height; a stale discovery
    file is gone afterwards. *)
Lemma discovery_file_removed_witness :
  let st := PageCapturer_init (browser 1920 1000 1920 400)
              (<["out/test_screenshot.png" := slice_a]> ∅) in
  files (snd (capture_full_page "crf" "out" st)) !! test_path "out" = None.
Proof.
  intros st.
  apply (discovery_file_removed "crf" "out" st).
  vm_compute. discriminate.
Defined.

(** A driver that reports a height of -100 through a 400 high viewport:
    -100 mod 400 is 300 in Python, so the final snapshot is taken. *)
Lemma nonpositive_height_witness :
  let st := fresh (browser 1920 (-100) 1920 400) in
  let run := capture_full_page "crf" "out" st in
  fst run = Raised WebDriverException \/
  ((-100) mod 400 = 0 /\ fst run = Returned None /\
   screenshots (snd run) = [] /\
   scroll_offsets (trace (snd run)) = scroll_offsets (trace st)) \/
  ((-100) mod 400 <> 0 /\ fst run = Raised ValueError /\
   screenshots (snd run) = [final_path "out" "crf"] /\
   scroll_offsets (trace (snd run)) = scroll_offsets (trace st) ++ [-100 - 400]).
Proof.
  intros st run.
  apply (nonpositive_height "crf" "out" st (fst run) (snd run)
           1920 (-100) (browser 1920 (-100) 1920 400) 400).
  - lia.
  - lia.
  - reflexivity.
  - exact (surjective_pairing run).
  - vm_compute. reflexivity.
Defined.

(** A 1920 x 1000 document through a 1920 x 400 viewport: offsets 0,
    400 and 600. *)
Lemma scrolls_top_to_bottom_witness :
  let st := fresh (browser 1920 1000 1920 400) in
  let st' := snd (capture_full_page "crf" "out" st) in
  exists offs,
    scroll_offsets (trace st') = scroll_offsets (trace st) ++ offs /\
    (forall i j a b, (i < j)%nat ->
       offs !! i = Some a -> offs !! j = Some b -> a < b) /\
    (400 <= 1000 ->
     head offs = Some 0 /\ last offs = Some (1000 - 400) /\
     Forall (fun y => 0 <= y <= 1000 - 400) offs).
Proof.
  intros st st'.
  apply (scrolls_top_to_bottom "crf" "out" st
           (returned_image (fst (capture_full_page "crf" "out" st))) st'
           1920 1000 (browser 1920 1000 1920 400) 400).
  - lia.
  - lia.
  - reflexivity.
  - refine (run_returned (capture_full_page "crf" "out" st) _).
    vm_compute. reflexivity.
  - vm_compute. reflexivity.
Defined.

(** * sanitize_filename *)

Lemma re_sub_invalid_clean name : no_invalid_char (re_sub_invalid name) = true.
Proof.
  induction name as [|c name IH]; [done|]. simpl. rewrite IH.
  by destruct (invalid_char c) eqn:Hc; rewrite ?Hc.
Qed.

Lemma re_sub_invalid_id name :
  no_invalid_char name = true -> re_sub_invalid name = name.
Proof.
  induction name as [|c name IH]; [done|]. simpl.
  intros [Hc Hrest]%andb_true_iff.
  apply negb_true_iff in Hc. rewrite Hc. f_equal. auto.
Qed.

Lemma lstrip_clean s : no_invalid_char s = true -> no_invalid_char (lstrip s) = true.
Proof.
  induction s as [|c s IH]; [done|]. simpl.
  intros Hs. destruct (isspace c); [|done].
  apply andb_true_iff in Hs as [_ Hs]. auto.
Qed.

Lemma rstrip_clean s : no_invalid_char s = true -> no_invalid_char (rstrip s) = true.
Proof.
  induction s as [|c s IH]; [done|]. simpl.
  intros [Hc Hs]%andb_true_iff. specialize (IH Hs).
  destruct (rstrip s) as [|c' kept].
  - destruct (isspace c); [done|]. simpl. by rewrite Hc.
  - simpl in *. by rewrite Hc, IH.
Qed.

Lemma lstrip_first s : from_option isspace false (first_char (lstrip s)) = false.
Proof.
  induction s as [|c s IH]; [done|]. simpl.
  by destruct (isspace c) eqn:Hc.
Qed.

Lemma rstrip_last s : from_option isspace false (last_char (rstrip s)) = false.
Proof.
  induction s as [|c s IH]; [done|]. simpl.
  destruct (rstrip s) as [|c' kept] eqn:Hk.
  - by destruct (isspace c) eqn:Hc.
  - exact IH.
Qed.

(** What [rstrip] keeps starts as the string did. *)
Lemma rstrip_first s :
  from_option isspace false (first_char s) = false ->
  from_option isspace false (first_char (rstrip s)) = false.
Proof.
  destruct s as [|c s]; [done|]. simpl. intros Hc.
  destruct (rstrip s); [by rewrite Hc|done].
Qed.

Lemma lstrip_id s :
  from_option isspace false (first_char s) = false -> lstrip s = s.
Proof. destruct s as [|c s]; [done|]. simpl. by intros ->. Qed.

Lemma rstrip_id s :
  from_option isspace false (last_char s) = false -> rstrip s = s.
Proof.
  induction s as [|c s IH]; [done|]. simpl.
  destruct s as [|c' s].
  - simpl. by intros ->.
  - intros Hl. rewrite (IH Hl). done.
Qed.

Lemma strip_stripped s : stripped (strip s) = true.
Proof.
  unfold stripped, strip.
  by rewrite rstrip_last, (rstrip_first _ (lstrip_first s)).
Qed.

Lemma strip_id s : stripped s = true -> strip s = s.
Proof.
  unfold stripped, strip.
  intros [Hf Hl]%andb_true_iff.
  apply negb_true_iff in Hf, Hl.
  by rewrite (lstrip_id _ Hf), (rstrip_id _ Hl).
Qed.

Lemma sanitize_filename_clean_name name :
  clean_name (sanitize_filename name) = true.
Proof.
  unfold clean_name, sanitize_filename.
  rewrite strip_stripped, andb_true_r.
  apply rstrip_clean, lstrip_clean, re_sub_invalid_clean.
Qed.

Lemma sanitize_filename_id name :
  clean_name name = true -> sanitize_filename name = name.
Proof.
  unfold clean_name, sanitize_filename.
  intros [Hc Hs]%andb_true_iff.
  by rewrite (re_sub_invalid_id _ Hc), (strip_id _ Hs).
Qed.

(** X6. A sanitized name holds none of the nine characters, and it
    neither starts nor ends with white space. *)
Theorem sanitize_filename_valid name :
  no_invalid_char (sanitize_filename name) = true /\
  stripped (sanitize_filename name) = true.
Proof.
  apply andb_true_iff. exact (sanitize_filename_clean_name name).
Qed.

(** X7. The names [sanitize_filename] leaves as they are are exactly
    those that hold none of the nine characters and have no white space
    at either end. *)
Theorem sanitize_filename_fixed_points name :
  String.eqb (sanitize_filename name) name = clean_name name.
Proof.
  destruct (clean_name name) eqn:Hclean.
  - apply String.eqb_eq. by apply sanitize_filename_id.
  - apply String.eqb_neq. intros Heq.
    pose proof (sanitize_filename_clean_name name) as Hc.
    rewrite Heq in Hc. congruence.
Qed.

(** X8. Sanitizing twice is sanitizing once. *)
Theorem sanitize_filename_idempotent name :
  sanitize_filename (sanitize_filename name) = sanitize_filename name.
Proof. apply sanitize_filename_id, sanitize_filename_clean_name. Qed.

(** * Paths and bookmarks *)

Lemma rfind_bounds x s : -1 <= rfind x s < Z.of_nat (String.length s).
Proof.
  induction s as [|c s IH]; simpl; [lia|].
  destruct (0 <=? rfind x s) eqn:Hr; [lia|].
  destruct (Ascii.eqb c x); lia.
Qed.

Lemma rfind_absent x s : occurs x s = false -> rfind x s = -1.
Proof.
  induction s as [|c s IH]; [done|]. simpl.
  intros [Hc Hs]%orb_false_iff. rewrite (IH Hs), Hc. done.
Qed.

Lemma rfind_app x a b :
  rfind x (a +:+ b)
  = if 0 <=? rfind x b then Z.of_nat (String.length a) + rfind x b
    else rfind x a.
Proof.
  pose proof (rfind_bounds x b) as Hb.
  induction a as [|c a IH].
  - change ("" +:+ b) with b. simpl String.length. simpl rfind.
    destruct (0 <=? rfind x b) eqn:Hr; lia.
  - change (String c a +:+ b) with (String c (a +:+ b)).
    simpl rfind. rewrite IH. simpl String.length.
    destruct (0 <=? rfind x b) eqn:Hr; [|done].
    replace (0 <=? Z.of_nat (String.length a) + rfind x b) with true by lia.
    lia.
Qed.

Lemma string_drop_app a b : string_drop (String.length a) (a +:+ b) = b.
Proof.
  induction a as [|c a IH]; [by destruct b|].
  change (String c a +:+ b) with (String c (a +:+ b)). exact IH.
Qed.

Lemma string_take_app a b : string_take (String.length a) (a +:+ b) = a.
Proof.
  induction a as [|c a IH]; [by destruct b|].
  change (String c a +:+ b) with (String c (a +:+ b)). simpl. by rewrite IH.
Qed.

Lemma occurs_app x a b : occurs x (a +:+ b) = occurs x a || occurs x b.
Proof.
  induction a as [|c a IH]; [done|].
  change (String c a +:+ b) with (String c (a +:+ b)). simpl.
  by rewrite IH, orb_assoc.
Qed.

Lemma no_invalid_char_sep s : no_invalid_char s = true -> occurs "/" s = false.
Proof.
  induction s as [|c s IH]; [done|]. simpl.
  intros [Hc Hs]%andb_true_iff. rewrite (IH Hs), orb_false_r.
  destruct (Ascii.eqb c "/") eqn:Heq; [|done].
  apply Ascii.eqb_eq in Heq. by subst c.
Qed.

Lemma ends_with_sep_rfind a :
  ends_with_sep a = true -> rfind "/" a = Z.of_nat (String.length a) - 1.
Proof.
  induction a as [|c a IH]; [done|].
  destruct a as [|c' a].
  - simpl. by intros ->.
  - intros Hend. specialize (IH Hend).
    change (rfind "/" (String c (String c' a)))
      with (let r := rfind "/" (String c' a) in
            if 0 <=? r then r + 1 else if Ascii.eqb c "/" then 0 else -1).
    cbv zeta. rewrite IH.
    replace (0 <=? Z.of_nat (String.length (String c' a)) - 1) with true
      by (symmetry; apply Z.leb_le; cbn [String.length]; lia).
    cbn [String.length]. lia.
Qed.

Lemma starts_with_sep_absent p : occurs "/" p = false -> starts_with_sep p = false.
Proof. destruct p as [|c p]; [done|]. simpl. by intros [-> _]%orb_false_iff. Qed.

Lemma string_drop_app_cons a c b :
  string_drop (S (String.length a)) (a +:+ String c b) = b.
Proof.
  induction a as [|c' a IH]; [by destruct b|].
  change (String c' a +:+ String c b) with (String c' (a +:+ String c b)).
  exact IH.
Qed.

(** The last component of a joined path is the component joined on,
    when that holds no separator. *)
Lemma basename_join a p :
  occurs "/" p = false -> basename (os_path_join a p) = p.
Proof.
  intros Hp. unfold os_path_join, basename.
  rewrite (starts_with_sep_absent _ Hp).
  destruct (String.eqb a "") eqn:Ha.
  - apply String.eqb_eq in Ha as ->. cbn [orb].
    change ("" +:+ p) with p.
    rewrite (rfind_absent _ _ Hp). done.
  - cbn [orb]. destruct (ends_with_sep a) eqn:Hend.
    + rewrite rfind_app, (rfind_absent _ _ Hp).
      replace (0 <=? -1) with false by done.
      rewrite (ends_with_sep_rfind _ Hend).
      replace (Z.to_nat (Z.of_nat (String.length a) - 1 + 1))
        with (String.length a) by lia.
      apply string_drop_app.
    + rewrite rfind_app.
      assert (rfind "/" ("/" +:+ p) = 0) as Hsep.
      { change ("/" +:+ p) with (String "/" p). simpl rfind.
        by rewrite (rfind_absent _ _ Hp). }
      rewrite Hsep.
      replace (0 <=? 0) with true by done.
      replace (Z.to_nat (Z.of_nat (String.length a) + 0 + 1))
        with (S (String.length a)) by lia.
      apply string_drop_app_cons.
Qed.

Lemma splitext_pdf crf_name :
  occurs "/" crf_name = false ->
  splitext (crf_name +:+ ".pdf")
  = if all_dots crf_name then (crf_name +:+ ".pdf", EmptyString)
    else (crf_name, ".pdf").
Proof.
  intros Hsep. unfold splitext.
  assert (occurs "/" (crf_name +:+ ".pdf") = false) as Hsep'.
  { by rewrite occurs_app, Hsep. }
  rewrite (rfind_absent _ _ Hsep'), rfind_app.
  change (rfind "." ".pdf") with 0.
  replace (0 <=? 0) with true by done.
  replace (-1 + 1) with 0 by done.
  rewrite Z.add_0_r, Z.sub_0_r, Nat2Z.id.
  change (Z.to_nat 0) with 0%nat.
  change (string_drop 0 (crf_name +:+ ".pdf")) with (crf_name +:+ ".pdf").
  rewrite string_take_app, string_drop_app.
  assert ((-1 <? Z.of_nat (String.length crf_name)) = true) as -> by (apply Z.ltb_lt; lia).
  cbn [andb]. by destruct (all_dots crf_name).
Qed.

(** X9. The PDF of a row lies in the output directory under the
    sanitized name, whatever the sheet held; and its bookmark in the
    casebook is the sanitized name, unless that consists of dots only
    (the empty name among them), when the bookmark keeps the [.pdf]. *)
Theorem bookmark_is_crf_name output_dir name :
  let crf_name := sanitize_filename name in
  basename (pdf_path output_dir crf_name) = crf_name +:+ ".pdf" /\
  basename (png_path output_dir crf_name) = crf_name +:+ ".png" /\
  bookmark_name (pdf_path output_dir crf_name)
  = if all_dots crf_name then crf_name +:+ ".pdf" else crf_name.
Proof.
  intros crf_name.
  assert (occurs "/" crf_name = false) as Hsep.
  { apply no_invalid_char_sep.
    exact (proj1 (proj1 (andb_true_iff _ _) (sanitize_filename_clean_name name))). }
  assert (forall ext, occurs "/" ext = false ->
            basename (os_path_join output_dir (crf_name +:+ ext))
            = crf_name +:+ ext) as Hbase.
  { intros ext Hext. apply basename_join. by rewrite occurs_app, Hsep. }
  split; [by apply Hbase|]. split; [by apply Hbase|].
  unfold bookmark_name, pdf_path. rewrite Hbase by done.
  rewrite (splitext_pdf _ Hsep). by destruct (all_dots crf_name).
Qed.

(** * The rows of the sheet, the casebook and the clean-up *)

Lemma dom_rows_same (X Y : gset string) (p : string) (l : list string) :
  X ⊆ Y ∪ list_to_set l -> X ⊆ Y ∪ list_to_set (p :: l).
Proof.
  intros HX x Hx. apply HX in Hx. rewrite list_to_set_cons.
  rewrite !elem_of_union in *. tauto.
Qed.

Lemma dom_rows_insert (X Y : gset string) (p : string) (l : list string) :
  X ⊆ ({[p]} ∪ Y) ∪ list_to_set l -> X ⊆ Y ∪ list_to_set (p :: l).
Proof.
  intros HX x Hx. apply HX in Hx. rewrite list_to_set_cons.
  rewrite !elem_of_union in *. tauto.
Qed.

(** ** The extension PIL finds in the path of a PNG *)

Lemma string_app_assoc (a b c : string) : (a +:+ b) +:+ c = a +:+ (b +:+ c).
Proof.
  induction a as [|x a IH]; [done|].
  change (String x a +:+ b) with (String x (a +:+ b)).
  change (String x (a +:+ b) +:+ c) with (String x ((a +:+ b) +:+ c)).
  change (String x a +:+ (b +:+ c)) with (String x (a +:+ (b +:+ c))).
  by rewrite IH.
Qed.

(** A joined path is a directory part that ends at its last separator,
    and the component joined on. *)
Lemma os_path_join_split a p :
  occurs "/" p = false ->
  exists pre,
    os_path_join a p = pre +:+ p /\
    rfind "/" (pre +:+ p) = Z.of_nat (String.length pre) - 1.
Proof.
  intros Hp. unfold os_path_join.
  rewrite (starts_with_sep_absent _ Hp).
  destruct (String.eqb a "") eqn:Ha.
  - apply String.eqb_eq in Ha as ->. exists "". split; [done|].
    change ("" +:+ p) with p. by rewrite (rfind_absent _ _ Hp).
  - cbn [orb]. destruct (ends_with_sep a) eqn:Hend.
    + exists a. split; [done|].
      rewrite rfind_app, (rfind_absent _ _ Hp).
      replace (0 <=? -1) with false by done.
      by apply ends_with_sep_rfind.
    + exists (a +:+ "/"). split; [by rewrite string_app_assoc|].
      rewrite string_app_assoc, rfind_app.
      assert (rfind "/" ("/" +:+ p) = 0) as ->.
      { change ("/" +:+ p) with (String "/" p). simpl rfind.
        by rewrite (rfind_absent _ _ Hp). }
      replace (0 <=? 0) with true by done.
      rewrite string_length_app. simpl String.length. lia.
Qed.

(** The extension of the PNG of a row: [.png], unless the name consists
    of dots only, when [splitext] finds none. *)
Lemma splitext_png output_dir crf_name :
  occurs "/" crf_name = false ->
  snd (splitext (png_path output_dir crf_name))
  = if all_dots crf_name then EmptyString else ".png".
Proof.
  intros Hsep. unfold png_path.
  assert (occurs "/" (crf_name +:+ ".png") = false) as Hsep'.
  { by rewrite occurs_app, Hsep. }
  destruct (os_path_join_split output_dir _ Hsep') as (pre & -> & Hslash).
  unfold splitext. rewrite Hslash.
  rewrite (rfind_app "." pre), (rfind_app "." crf_name).
  change (rfind "." ".png") with 0.
  replace (0 <=? 0) with true by done.
  rewrite Z.add_0_r.
  assert ((0 <=? Z.of_nat (String.length crf_name)) = true) as ->
    by (apply Z.leb_le; lia).
  assert ((Z.of_nat (String.length pre) - 1
           <? Z.of_nat (String.length pre) + Z.of_nat (String.length crf_name))
          = true) as -> by (apply Z.ltb_lt; lia).
  replace (Z.to_nat (Z.of_nat (String.length pre) - 1 + 1))
    with (String.length pre) by lia.
  replace (Z.to_nat (Z.of_nat (String.length pre)
                     + Z.of_nat (String.length crf_name)
                     - (Z.of_nat (String.length pre) - 1 + 1)))
    with (String.length crf_name) by lia.
  rewrite string_drop_app, string_take_app.
  destruct (all_dots crf_name); [done|]. cbn [andb negb snd].
  replace (Z.to_nat (Z.of_nat (String.length pre)
                     + Z.of_nat (String.length crf_name)))
    with (String.length (pre +:+ crf_name))
    by (rewrite string_length_app; lia).
  rewrite <- string_app_assoc. apply string_drop_app.
Qed.

Section MainRuns.

Context {D : Type} `{WebDriver D} `{PageDriver D} `{Img2pdf}.

Implicit Types st : Session D.
Implicit Types ms : MainState D.

(** ** One row *)

Lemma driver_call_frame call st :
  let st' := snd (driver_call call st) in
  files st' = files st /\ trace st' = trace st /\
  actual_screenshot_height st' = actual_screenshot_height st.
Proof. unfold driver_call. by destruct (call (driver st)) as [[[]|] d]. Qed.

(** [prepare_page] is between the driver and the page. *)
Lemma prepare_page_frame url st :
  let st' := snd (prepare_page url st) in
  files st' = files st /\ trace st' = trace st /\
  actual_screenshot_height st' = actual_screenshot_height st.
Proof.
  assert (wp (prepare_page url)
            (fun _ st' => files st' = files st /\ trace st' = trace st /\
               actual_screenshot_height st' = actual_screenshot_height st) st)
    as Hwp; [|exact Hwp].
  assert (forall call st0,
            (files st0 = files st /\ trace st0 = trace st /\
             actual_screenshot_height st0 = actual_screenshot_height st) ->
            wp (driver_call call)
              (fun _ st' => files st' = files st /\ trace st' = trace st /\
                 actual_screenshot_height st' = actual_screenshot_height st) st0)
    as Hcall.
  { intros call st0 (Hf & Ht & Hh).
    destruct (driver_call_frame call st0) as (Hf' & Ht' & Hh').
    unfold wp. by rewrite Hf', Ht', Hh'. }
  unfold prepare_page.
  apply wp_bind; eapply wp_mono; [by apply Hcall|].
  intros [[]|e] st1 Hst1; [|exact Hst1].
  apply wp_bind; eapply wp_mono; [by apply Hcall|].
  intros [[]|e] st2 Hst2; [|exact Hst2].
  apply wp_bind; eapply wp_mono; [by apply Hcall|].
  intros [[]|e] st3 Hst3; [|exact Hst3].
  by apply Hcall.
Qed.

(** Saving the bitmap either raises and changes nothing, or writes the
    one file. *)
Lemma Image_save_png_cases img path st :
  Image_save_png img path st = (Raised ValueError, st) \/
  Image_save_png img path st
  = (Returned tt, set_files (<[path := img]> (files st)) st).
Proof.
  unfold Image_save_png.
  destruct (String.eqb (snd (splitext path)) ".png"); [by right|by left].
Qed.

(** What a row does to the capturer: nothing, or the page is prepared
    and, if that went well, captured, and the bitmap, if there is one,
    saved. *)
Lemma process_named_row_capturer output_dir crf_name url ms :
  let c := capturer (process_named_row output_dir crf_name url ms) in
  let st1 := snd (prepare_page url (capturer ms)) in
  let st2 := snd (capture_full_page crf_name output_dir st1) in
  c = capturer ms \/ c = st1 \/ c = st2 \/
  exists img, c = set_files (<[png_path output_dir crf_name := img]> (files st2)) st2.
Proof.
  intros c st1 st2. subst c. unfold process_named_row.
  case_bool_decide; [by left|]. right.
  unfold mbind, M_bind, bind. simpl.
  subst st1 st2.
  destruct (prepare_page url (capturer ms)) as [[[]|e] st1]; simpl.
  - destruct (capture_full_page crf_name output_dir st1) as [[[img|]|e] st2]; simpl.
    + unfold save_page. simpl.
      destruct (Image_save_png_cases img (png_path output_dir crf_name) st2)
        as [-> | ->].
      * by right; left.
      * right. right. exists img. by destruct (img2pdf_accepts img).
    + by right; left.
    + by right; left.
  - by left.
Qed.

(** What a row does to the PDF files and to the list. *)
Lemma process_named_row_pdfs output_dir crf_name url ms :
  let pdf := pdf_path output_dir crf_name in
  let ms' := process_named_row output_dir crf_name url ms in
  (is_Some (pdfs ms !! pdf) /\ pdfs ms' = pdfs ms /\
   pdf_files ms' = pdf_files ms ++ [pdf]) \/
  (pdfs ms !! pdf = None /\ pdf_files ms' = pdf_files ms /\
   (pdfs ms' = pdfs ms \/ pdfs ms' = <[pdf := Unreadable]> (pdfs ms))) \/
  (pdfs ms !! pdf = None /\ pdf_files ms' = pdf_files ms ++ [pdf] /\
   exists img, pdfs ms' = <[pdf := Document [img] []]> (pdfs ms)).
Proof.
  intros pdf ms'. subst ms'. unfold process_named_row. fold pdf.
  case_bool_decide as Hex; [by left|]. right.
  apply eq_None_not_Some in Hex.
  unfold mbind, M_bind, bind. simpl.
  destruct (prepare_page url (capturer ms)) as [[[]|e] st1]; simpl.
  - destruct (capture_full_page _ output_dir st1) as [[[img|]|e] st2]; simpl.
    + unfold save_page. fold pdf. simpl.
      destruct (Image_save_png_cases img (png_path output_dir crf_name) st2)
        as [-> | ->].
      * left. split; [done|]. split; [done|]. by left.
      * destruct (img2pdf_accepts img); simpl.
        -- right. split; [done|]. split; [done|]. exists img.
           by rewrite insert_insert_eq.
        -- left. split; [done|]. split; [done|]. by right.
    + left. split; [done|]. split; [done|]. by left.
    + left. split; [done|]. split; [done|]. by left.
  - left. split; [done|]. split; [done|]. by left.
Qed.

(** A PDF that exists is neither overwritten nor removed by a row. *)
Lemma process_named_row_keeps output_dir crf_name url ms :
  pdfs ms ⊆ pdfs (process_named_row output_dir crf_name url ms).
Proof.
  destruct (process_named_row_pdfs output_dir crf_name url ms)
    as [(_ & -> & _)|[(Hnone & _ & [->| ->])|(Hnone & _ & img & ->)]];
    try done; by apply insert_subseteq.
Qed.

(** ** The row loop *)

Lemma process_rows_text output_dir name url rows ms :
  process_rows output_dir ((Text name, url) :: rows) ms
  = process_rows output_dir rows
      (process_named_row output_dir (sanitize_filename name) url ms).
Proof. done. Qed.

Lemma process_rows_not_text output_dir url rows ms :
  process_rows output_dir ((NotText, url) :: rows) ms = (Some CrfTypeError, ms).
Proof. done. Qed.

(** The loop stops at a CRF cell that is not text, and nowhere else. *)
Lemma process_rows_stop output_dir rows ms :
  match fst (process_rows output_dir rows ms) with
  | None => Forall (fun row => is_Some (row_name row)) rows
  | Some crash =>
      crash = CrfTypeError /\ Exists (fun row => fst row = NotText) rows
  end.
Proof.
  revert ms. induction rows as [|[[name|] url] rows IH]; intros ms.
  - simpl. constructor.
  - rewrite process_rows_text.
    specialize (IH (process_named_row output_dir (sanitize_filename name) url ms)).
    destruct (fst (process_rows output_dir rows _)) as [crash|].
    + destruct IH as [-> Hex]. split; [done|]. by apply Exists_cons_tl.
    + apply Forall_cons. split; [by eexists|done].
  - rewrite process_rows_not_text. simpl. split; [done|]. by apply Exists_cons_hd.
Qed.

Lemma process_rows_all_text output_dir rows ms :
  Forall (fun row => is_Some (row_name row)) rows ->
  fst (process_rows output_dir rows ms) = None.
Proof.
  intros Hall.
  pose proof (process_rows_stop output_dir rows ms) as Hstop.
  destruct (fst (process_rows output_dir rows ms)) as [crash|]; [|done].
  destruct Hstop as [_ Hex].
  apply Exists_exists in Hex as (row & Hin & Hrow).
  apply (proj1 (Forall_forall _ _) Hall) in Hin.
  unfold row_name in Hin. rewrite Hrow in Hin. by destruct Hin.
Qed.

Lemma process_rows_keeps output_dir rows ms :
  pdfs ms ⊆ pdfs (snd (process_rows output_dir rows ms)).
Proof.
  revert ms. induction rows as [|[[name|] url] rows IH]; intros ms; [done| |done].
  rewrite process_rows_text.
  etrans; [apply (process_named_row_keeps output_dir (sanitize_filename name) url)
          |apply IH].
Qed.

Lemma process_rows_listing output_dir rows ms :
  let ms' := snd (process_rows output_dir rows ms) in
  dom (pdfs ms') ⊆ dom (pdfs ms) ∪ list_to_set (omap (row_pdf output_dir) rows) /\
  exists new,
    pdf_files ms' = pdf_files ms ++ new /\
    new `sublist_of` omap (row_pdf output_dir) rows /\
    Forall (fun pdf => is_Some (pdfs ms' !! pdf)) new.
Proof.
  revert ms. induction rows as [|[[name|] url] rows IH]; intros ms.
  - simpl. split; [apply union_subseteq_l|]. exists []. by rewrite List.app_nil_r.
  - rewrite process_rows_text.
    set (crf_name := sanitize_filename name).
    change (omap (row_pdf output_dir) ((Text name, url) :: rows))
      with (pdf_path output_dir crf_name :: omap (row_pdf output_dir) rows).
    set (ms1 := process_named_row output_dir crf_name url ms).
    cbv zeta.
    destruct (IH ms1) as (Hdom & new & Hnew & Hsub & Hex).
    pose proof (process_rows_keeps output_dir rows ms1) as Hkeep.
    destruct (process_named_row_pdfs output_dir crf_name url ms)
      as [(Hsome & Hpdfs & Hlist)
         |[(Hnone & Hlist & Hpdfs)|(Hnone & Hlist & img & Hpdfs)]];
      fold ms1 in Hpdfs, Hlist.
    + split; [rewrite Hpdfs in Hdom; by apply dom_rows_same|].
      exists (pdf_path output_dir crf_name :: new).
      split; [by rewrite Hnew, Hlist, <- List.app_assoc|].
      split; [by apply sublist_skip|].
      apply Forall_cons. split; [|done].
      eapply lookup_weaken_is_Some; [|exact Hkeep]. by rewrite Hpdfs.
    + split.
      * destruct Hpdfs as [Hpdfs|Hpdfs]; rewrite Hpdfs in Hdom;
          [by apply dom_rows_same
          |rewrite dom_insert_L in Hdom; by apply dom_rows_insert].
      * exists new. split; [by rewrite Hnew, Hlist|].
        split; [by apply sublist_cons|done].
    + split; [rewrite Hpdfs, dom_insert_L in Hdom; by apply dom_rows_insert|].
      exists (pdf_path output_dir crf_name :: new).
      split; [by rewrite Hnew, Hlist, <- List.app_assoc|].
      split; [by apply sublist_skip|].
      apply Forall_cons. split; [|done].
      eapply lookup_weaken_is_Some; [|exact Hkeep].
      rewrite Hpdfs, lookup_insert_eq. by eexists.
  - rewrite process_rows_not_text. simpl.
    split; [apply union_subseteq_l|]. exists [].
    split; [by rewrite List.app_nil_r|]. split; [apply sublist_nil_l|constructor].
Qed.

(** X10. The row loop neither overwrites nor removes a PDF that exists,
    and creates PDFs at the paths of the rows only; the files it lists
    are PDFs of rows, in the order of the sheet, and each of them
    exists.  This holds also of a loop that a CRF cell stopped. *)
Theorem rows_list_existing_pdfs output_dir rows ms :
  let ms' := snd (process_rows output_dir rows ms) in
  pdfs ms ⊆ pdfs ms' /\
  dom (pdfs ms') ⊆ dom (pdfs ms) ∪ list_to_set (omap (row_pdf output_dir) rows) /\
  exists new,
    pdf_files ms' = pdf_files ms ++ new /\
    new `sublist_of` omap (row_pdf output_dir) rows /\
    Forall (fun pdf => is_Some (pdfs ms' !! pdf)) new.
Proof.
  split; [apply process_rows_keeps|apply process_rows_listing].
Qed.

(** X11. When the PDF of every row exists already, the row loop asks
    nothing of the browser, writes no file and prints nothing: it lists
    the PDFs of the rows, in order. *)
Theorem finished_rows_are_skipped output_dir rows ms :
  Forall (fun row => exists pdf, row_pdf output_dir row = Some pdf /\
                                 is_Some (pdfs ms !! pdf)) rows ->
  process_rows output_dir rows ms
  = (None,
     mkMain (capturer ms) (pdfs ms)
       (pdf_files ms ++ omap (row_pdf output_dir) rows) (stdout ms)).
Proof.
  revert ms. induction rows as [|[[name|] url] rows IH]; intros ms Hall.
  - simpl. rewrite List.app_nil_r. by destruct ms.
  - apply Forall_cons in Hall as [(pdf & Hpdf & Hrow) Hall].
    rewrite process_rows_text.
    change (row_pdf output_dir (Text name, url))
      with (Some (pdf_path output_dir (sanitize_filename name))) in Hpdf.
    injection Hpdf as <-.
    assert (process_named_row output_dir (sanitize_filename name) url ms
            = pdf_files_append (pdf_path output_dir (sanitize_filename name)) ms)
      as ->.
    { unfold process_named_row. by rewrite bool_decide_eq_true_2. }
    rewrite IH by done. simpl. by rewrite <- List.app_assoc.
  - apply Forall_cons in Hall as [(pdf & Hpdf & _) _]. done.
Qed.

(** ** Merging *)

Lemma merger_append_all_spec fs listed merger :
  match merger_append_all fs listed merger with
  | inr merged =>
      Forall (readable fs) listed /\
      merged = (fst merger ++ concat (pages_of fs <$> listed),
                snd merger ++ (bookmark_name <$> listed))
  | inl crash =>
      exists pdf, pdf ∈ listed /\
        ((crash = PdfNotFound pdf /\ fs !! pdf = None) \/
         (crash = PdfReadError pdf /\ fs !! pdf = Some Unreadable))
  end.
Proof.
  revert merger. induction listed as [|pdf listed IH]; intros merger; simpl.
  - split; [constructor|]. rewrite !List.app_nil_r. by destruct merger.
  - unfold merger_append at 1, pages_of at 1.
    destruct (fs !! pdf) as [[|pages outline]|] eqn:Hpdf.
    + exists pdf. split; [left|]. by right.
    + specialize (IH (merger.1 ++ pages, merger.2 ++ [bookmark_name pdf])).
      destruct (merger_append_all fs listed _) as [crash|merged].
      * destruct IH as (p & Hin & Hcrash). exists p. split; [by right|done].
      * destruct IH as [Hall ->]. split.
        -- apply Forall_cons. split; [by exists pages, outline|done].
        -- simpl. by rewrite <- !List.app_assoc.
    + exists pdf. split; [left|]. by left.
Qed.

Lemma merge_pdfs_spec output_dir ms :
  match merge_pdfs output_dir ms with
  | (Some crash, ms') =>
      ms' = ms /\
      exists pdf, pdf ∈ pdf_files ms /\
        ((crash = PdfNotFound pdf /\ pdfs ms !! pdf = None) \/
         (crash = PdfReadError pdf /\ pdfs ms !! pdf = Some Unreadable))
  | (None, ms') =>
      Forall (readable (pdfs ms)) (pdf_files ms) /\
      ((pdf_files ms = [] /\ ms' = ms) \/
       (pdf_files ms <> [] /\
        ms' = print (Merged (merged_pdf_path output_dir))
                (set_pdfs
                   (<[merged_pdf_path output_dir :=
                        Document (concat (pages_of (pdfs ms) <$> pdf_files ms))
                                 (bookmark_name <$> pdf_files ms)]> (pdfs ms))
                   ms)))
  end.
Proof.
  unfold merge_pdfs.
  destruct (pdf_files ms) as [|pdf listed] eqn:Hlisted.
  - split; [constructor|]. by left.
  - pose proof (merger_append_all_spec (pdfs ms) (pdf :: listed) ([], [])) as Hm.
    destruct (merger_append_all (pdfs ms) (pdf :: listed) ([], []))
      as [crash|[pages outline]].
    + done.
    + destruct Hm as [Hall Heq]. simpl in Heq. simplify_eq.
      split; [done|]. right. done.
Qed.

(** ** Cleaning up *)

Lemma cleanup_pdfs_eq ms :
  cleanup_pdfs ms
  = set_pdfs (foldl (fun fs pdf => delete pdf fs) (pdfs ms) (pdf_files ms)) ms.
Proof.
  unfold cleanup_pdfs.
  assert (forall l ms0,
            foldl (fun ms pdf =>
                     if bool_decide (is_Some (pdfs ms !! pdf))
                     then set_pdfs (delete pdf (pdfs ms)) ms else ms) ms0 l
            = set_pdfs (foldl (fun fs pdf => delete pdf fs) (pdfs ms0) l) ms0)
    as Hgen; [|apply Hgen].
  induction l as [|pdf l IH]; intros ms0; simpl; [by destruct ms0|].
  rewrite IH. case_bool_decide as Hex; [done|].
  apply eq_None_not_Some in Hex. by rewrite (delete_id _ _ Hex).
Qed.

Lemma delete_all_lookup (fs : gmap string PdfFile) l p :
  foldl (fun fs pdf => delete pdf fs) fs l !! p
  = if bool_decide (p ∈ l) then None else fs !! p.
Proof.
  revert fs. induction l as [|q l IH]; intros fs; simpl; [done|].
  rewrite IH. case_bool_decide as Hin.
  - by rewrite bool_decide_eq_true_2 by (by right).
  - destruct (decide (p = q)) as [->|Hne].
    + rewrite bool_decide_eq_true_2 by left. apply lookup_delete_eq.
    + rewrite bool_decide_eq_false_2 by (rewrite elem_of_cons; tauto).
      by apply lookup_delete_ne.
Qed.

(** A row whose PDF exists is listed, if the loop gets through. *)
Lemma process_rows_lists output_dir rows ms row pdf :
  row ∈ rows -> row_pdf output_dir row = Some pdf ->
  is_Some (pdfs ms !! pdf) ->
  fst (process_rows output_dir rows ms) = None ->
  pdf ∈ pdf_files (snd (process_rows output_dir rows ms)).
Proof.
  revert ms. induction rows as [|[[name|] url] rows IH]; intros ms Hin Hpdf Hex Hrun.
  - by apply elem_of_nil in Hin.
  - rewrite process_rows_text in *.
    set (crf_name := sanitize_filename name) in *.
    set (ms1 := process_named_row output_dir crf_name url ms) in *.
    apply elem_of_cons in Hin as [->|Hin].
    + change (row_pdf output_dir (Text name, url))
        with (Some (pdf_path output_dir crf_name)) in Hpdf.
      injection Hpdf as <-.
      destruct (process_rows_listing output_dir rows ms1) as (_ & new & -> & _).
      apply elem_of_app. left.
      destruct (process_named_row_pdfs output_dir crf_name url ms)
        as [(_ & _ & Hlist)|[(Hnone & _)|(Hnone & _)]].
      * fold ms1 in Hlist. rewrite Hlist. apply elem_of_app. right. by left.
      * rewrite Hnone in Hex. by destruct Hex.
      * rewrite Hnone in Hex. by destruct Hex.
    + apply IH; [done|done| |done].
      eapply lookup_weaken_is_Some; [exact Hex|].
      apply process_named_row_keeps.
  - by rewrite process_rows_not_text in Hrun.
Qed.

(** With no two rows of one name and no unreadable PDF at the path of
    a row, what the loop lists is readable. *)
Lemma process_rows_readable output_dir rows ms :
  NoDup (omap (row_pdf output_dir) rows) ->
  Forall (fun pdf => pdfs ms !! pdf <> Some Unreadable)
         (omap (row_pdf output_dir) rows) ->
  exists new,
    pdf_files (snd (process_rows output_dir rows ms)) = pdf_files ms ++ new /\
    Forall (readable (pdfs (snd (process_rows output_dir rows ms)))) new.
Proof.
  revert ms. induction rows as [|[[name|] url] rows IH]; intros ms Hnd Hall.
  - exists []. by rewrite List.app_nil_r.
  - rewrite process_rows_text.
    set (crf_name := sanitize_filename name).
    change (omap (row_pdf output_dir) ((Text name, url) :: rows))
      with (pdf_path output_dir crf_name :: omap (row_pdf output_dir) rows)
      in Hnd, Hall.
    set (ms1 := process_named_row output_dir crf_name url ms).
    apply NoDup_cons in Hnd as [Hnotin Hnd].
    apply Forall_cons in Hall as [Hrow Hall].
    pose proof (process_rows_keeps output_dir rows ms1) as Hkeep.
    assert (forall fs : gmap string PdfFile,
              (forall p, p <> pdf_path output_dir crf_name ->
                         fs !! p = pdfs ms !! p) ->
              Forall (fun pdf => fs !! pdf <> Some Unreadable)
                     (omap (row_pdf output_dir) rows))
      as Hrest.
    { intros fs Hfs. apply Forall_forall. intros p Hp.
      rewrite Hfs; [by apply (proj1 (Forall_forall _ _) Hall)|].
      by intros ->. }
    destruct (process_named_row_pdfs output_dir crf_name url ms)
      as [(Hsome & Hpdfs & Hlist)
         |[(Hnone & Hlist & Hpdfs)|(Hnone & Hlist & img & Hpdfs)]];
      fold ms1 in Hpdfs, Hlist.
    + destruct (IH ms1 Hnd) as (new & Hnew & Hread).
      { rewrite Hpdfs. by apply Hrest. }
      exists (pdf_path output_dir crf_name :: new).
      split; [by rewrite Hnew, Hlist, <- List.app_assoc|].
      apply Forall_cons. split; [|done].
      destruct Hsome as [[|pages outline] Hdoc]; [done|].
      exists pages, outline.
      eapply lookup_weaken; [|exact Hkeep]. by rewrite Hpdfs.
    + destruct (IH ms1 Hnd) as (new & Hnew & Hread).
      { destruct Hpdfs as [-> | ->]; apply Hrest; [done|].
        intros p Hp. by apply lookup_insert_ne. }
      exists new. by rewrite Hnew, Hlist.
    + destruct (IH ms1 Hnd) as (new & Hnew & Hread).
      { rewrite Hpdfs. apply Hrest. intros p Hp. by apply lookup_insert_ne. }
      exists (pdf_path output_dir crf_name :: new).
      split; [by rewrite Hnew, Hlist, <- List.app_assoc|].
      apply Forall_cons. split; [|done].
      exists [img], [].
      eapply lookup_weaken; [|exact Hkeep]. by rewrite Hpdfs, lookup_insert_eq.
  - rewrite process_rows_not_text. simpl. exists [].
    split; [by rewrite List.app_nil_r|constructor].
Qed.

(** ** main *)

(** The ways [main] ends, by what the row loop and the merge did. *)
Lemma main_cases output_dir rows d bitmaps documents :
  let ms0 := mkMain (PageCapturer_init d bitmaps) documents [] [] in
  let loop := process_rows output_dir rows ms0 in
  let run := main output_dir rows d bitmaps documents in
  (exists crash, fst loop = Some crash /\ run = (Some crash, snd loop)) \/
  (fst loop = None /\
   exists crash, merge_pdfs output_dir (snd loop) = (Some crash, snd loop) /\
                 run = (Some crash, snd loop)) \/
  (fst loop = None /\
   exists ms2, merge_pdfs output_dir (snd loop) = (None, ms2) /\
     run = (None,
            print Completed
              (set_capturer
                 (set_driver (driver_quit (driver (capturer (cleanup_pdfs ms2))))
                    (capturer (cleanup_pdfs ms2)))
                 (cleanup_pdfs ms2)))).
Proof.
  intros ms0 loop run. subst run. unfold main. fold ms0. fold loop.
  destruct loop as [[crash|] ms1]; simpl.
  - left. by exists crash.
  - right.
    pose proof (merge_pdfs_spec output_dir ms1) as Hm.
    destruct (merge_pdfs output_dir ms1) as [[crash|] ms2].
    + left. split; [done|]. exists crash. by destruct Hm as [-> _].
    + right. split; [done|]. by exists ms2.
Qed.

(** X12. If [main] stops, it is at a CRF cell that is not text, line
    229 being outside the [try], or in the merge, on a listed PDF of a
    row that PyPDF2 cannot read, never on a missing file.  Either way
    the clean-up has not run and the browser was not quit: the state is
    the one the row loop left, with every PDF that was there at the
    start. *)
Theorem merge_crash output_dir rows d bitmaps documents crash :
  let ms0 := mkMain (PageCapturer_init d bitmaps) documents [] [] in
  let loop := process_rows output_dir rows ms0 in
  let run := main output_dir rows d bitmaps documents in
  fst run = Some crash ->
  snd run = snd loop /\
  documents ⊆ pdfs (snd run) /\
  ((fst loop = Some CrfTypeError /\ crash = CrfTypeError /\
    Exists (fun row => fst row = NotText) rows) \/
   (fst loop = None /\
    exists pdf,
      crash = PdfReadError pdf /\
      pdf ∈ omap (row_pdf output_dir) rows /\
      pdf ∈ pdf_files (snd run) /\
      pdfs (snd run) !! pdf = Some Unreadable)).
Proof.
  intros ms0 loop run Hcrash. subst run loop ms0.
  destruct (main_cases output_dir rows d bitmaps documents)
    as [(c & Hloop & Hrun)|[(Hloop & c & Hmerge & Hrun)|(Hloop & ms2 & Hmerge & Hrun)]];
    set (ms0 := mkMain (PageCapturer_init d bitmaps) documents [] []) in *;
    pose proof (process_rows_keeps output_dir rows ms0) as Hkeep;
    pose proof (process_rows_stop output_dir rows ms0) as Hstop;
    rewrite Hrun in *; simpl in Hcrash; simplify_eq.
  - rewrite Hloop in Hstop. destruct Hstop as [-> Hex].
    split; [done|]. split; [done|]. by left.
  - split; [done|]. split; [done|]. right. split; [done|].
    pose proof (merge_pdfs_spec output_dir (snd (process_rows output_dir rows ms0)))
      as Hm.
    rewrite Hmerge in Hm. destruct Hm as (_ & pdf & Hin & Hwhy).
    destruct (process_rows_listing output_dir rows ms0)
      as (_ & new & Hnew & Hsub & Hex).
    simpl in Hnew. simpl. rewrite Hnew in Hin.
    exists pdf.
    destruct Hwhy as [[-> Hnone]|[-> Hun]].
    + apply (proj1 (Forall_forall _ _) Hex) in Hin. rewrite Hnone in Hin.
      by destruct Hin.
    + split; [done|]. split; [|by rewrite Hnew].
      eapply sublist_subseteq; [exact Hsub|done].
Qed.

(** X13. With an unreadable PDF, an empty file for one, at the path of
    a row, [main] does not return: it stops in the merge on an
    unreadable PDF, unless a CRF cell that is not text has stopped it in
    the row loop before. *)
Theorem unreadable_pdf_stops_main output_dir rows d bitmaps documents row pdf :
  row ∈ rows ->
  row_pdf output_dir row = Some pdf ->
  documents !! pdf = Some Unreadable ->
  let run := main output_dir rows d bitmaps documents in
  (exists pdf', fst run = Some (PdfReadError pdf') /\
                Forall (fun row => is_Some (row_name row)) rows) \/
  (fst run = Some CrfTypeError /\ Exists (fun row => fst row = NotText) rows).
Proof.
  intros Hin Hpdf Hun run. subst run.
  destruct (main_cases output_dir rows d bitmaps documents)
    as [(c & Hloop & Hrun)|[(Hloop & c & Hmerge & Hrun)|(Hloop & ms2 & Hmerge & Hrun)]];
    set (ms0 := mkMain (PageCapturer_init d bitmaps) documents [] []) in *;
    pose proof (process_rows_keeps output_dir rows ms0) as Hkeep;
    pose proof (process_rows_stop output_dir rows ms0) as Hstop;
    rewrite Hrun; simpl.
  - rewrite Hloop in Hstop. destruct Hstop as [-> Hex]. by right.
  - left. rewrite Hloop in Hstop.
    pose proof (merge_pdfs_spec output_dir (snd (process_rows output_dir rows ms0)))
      as Hm.
    rewrite Hmerge in Hm. destruct Hm as (_ & p & Hp & [[-> Hnone]|[-> _]]).
    + destruct (process_rows_listing output_dir rows ms0)
        as (_ & new & Hnew & _ & Hex).
      simpl in Hnew. rewrite Hnew in Hp.
      apply (proj1 (Forall_forall _ _) Hex) in Hp. rewrite Hnone in Hp.
      by destruct Hp.
    + by exists p.
  - exfalso.
    pose proof (merge_pdfs_spec output_dir (snd (process_rows output_dir rows ms0)))
      as Hm.
    rewrite Hmerge in Hm. destruct Hm as [Hall _].
    assert (pdf ∈ pdf_files (snd (process_rows output_dir rows ms0))) as Hlisted.
    { apply (process_rows_lists output_dir rows ms0 row); [done|done| |done].
      simpl. by rewrite Hun. }
    apply (proj1 (Forall_forall _ _) Hall) in Hlisted as (pages & outline & Hdoc).
    pose proof (lookup_weaken _ _ _ _ Hun Hkeep) as Hun'. simpl in Hun'.
    congruence.
Qed.

(** X14. When [main] returns and no row is named like the casebook:
    every listed PDF is gone, those that were there before the run
    among them; if anything was listed, the casebook holds the pages of
    the listed PDFs in the order of the sheet, with one bookmark for
    each; no other PDF has changed since the row loop; and the last
    line printed is the last line of [main]. *)
Theorem casebook_and_cleanup output_dir rows d bitmaps documents :
  let ms1 := snd (process_rows output_dir rows
                    (mkMain (PageCapturer_init d bitmaps) documents [] [])) in
  let run := main output_dir rows d bitmaps documents in
  fst run = None ->
  merged_pdf_path output_dir ∉ omap (row_pdf output_dir) rows ->
  pdf_files (snd run) = pdf_files ms1 /\
  Forall (fun pdf => pdfs (snd run) !! pdf = None) (pdf_files ms1) /\
  pdfs (snd run) !! merged_pdf_path output_dir
  = (if bool_decide (pdf_files ms1 = [])
     then pdfs ms1 !! merged_pdf_path output_dir
     else Some (Document (concat (pages_of (pdfs ms1) <$> pdf_files ms1))
                         (bookmark_name <$> pdf_files ms1))) /\
  (forall p, p ∉ pdf_files ms1 -> p <> merged_pdf_path output_dir ->
             pdfs (snd run) !! p = pdfs ms1 !! p) /\
  last (stdout (snd run)) = Some Completed.
Proof.
  intros ms1 run Hrun Hcase. subst run ms1.
  destruct (main_cases output_dir rows d bitmaps documents)
    as [(c & _ & Heq)|[(_ & c & _ & Heq)|(_ & ms2 & Hmerge & Heq)]];
    set (ms0 := mkMain (PageCapturer_init d bitmaps) documents [] []) in *;
    set (ms1 := snd (process_rows output_dir rows ms0)) in *;
    rewrite Heq in *; [done|done|].
  assert (merged_pdf_path output_dir ∉ pdf_files ms1) as Hnot.
  { destruct (process_rows_listing output_dir rows ms0)
      as (_ & new & Hnew & Hsub & _).
    fold ms1 in Hnew. simpl in Hnew. rewrite Hnew. intros Hin. apply Hcase.
    eapply sublist_subseteq; [exact Hsub|done]. }
  clear Hrun Heq. simpl.
  pose proof (merge_pdfs_spec output_dir ms1) as Hm. rewrite Hmerge in Hm.
  rewrite cleanup_pdfs_eq. simpl.
  destruct Hm as [_ [[Hnil ->]|[Hne ->]]]; simpl.
  - split; [done|]. split; [|split; [|split]].
    + apply Forall_forall. intros p Hp. rewrite delete_all_lookup.
      by rewrite bool_decide_eq_true_2.
    + rewrite delete_all_lookup, bool_decide_eq_false_2 by done.
      by rewrite bool_decide_eq_true_2.
    + intros p Hp _. by rewrite delete_all_lookup, bool_decide_eq_false_2.
    + apply last_snoc.
  - split; [done|]. split; [|split; [|split]].
    + apply Forall_forall. intros p Hp. rewrite delete_all_lookup.
      by rewrite bool_decide_eq_true_2.
    + rewrite delete_all_lookup, bool_decide_eq_false_2 by done.
      rewrite lookup_insert_eq. by rewrite bool_decide_eq_false_2.
    + intros p Hp Hmerged.
      rewrite delete_all_lookup, bool_decide_eq_false_2 by done.
      by apply lookup_insert_ne.
    + apply last_snoc.
Qed.

(** X15. When every CRF cell of the sheet is text, no two rows have one
    sanitized name, no row is named like the casebook and no unreadable
    PDF lies at the path of a row, [main] gets through the rows and the
    merge and returns. *)
Theorem main_returns output_dir rows d bitmaps documents :
  Forall (fun row => is_Some (row_name row)) rows ->
  NoDup (omap (row_pdf output_dir) rows) ->
  merged_pdf_path output_dir ∉ omap (row_pdf output_dir) rows ->
  Forall (fun pdf => documents !! pdf <> Some Unreadable)
         (omap (row_pdf output_dir) rows) ->
  fst (main output_dir rows d bitmaps documents) = None.
Proof.
  intros Htext Hnd _ Hall.
  destruct (main_cases output_dir rows d bitmaps documents)
    as [(c & Hloop & Hrun)|[(Hloop & c & Hmerge & Hrun)|(Hloop & ms2 & Hmerge & Hrun)]];
    set (ms0 := mkMain (PageCapturer_init d bitmaps) documents [] []) in *;
    pose proof (process_rows_all_text output_dir rows ms0 Htext) as Hloop0;
    rewrite Hrun; simpl.
  - congruence.
  - exfalso.
    destruct (process_rows_readable output_dir rows ms0 Hnd Hall)
      as (new & Hnew & Hread).
    simpl in Hnew.
    pose proof (merge_pdfs_spec output_dir (snd (process_rows output_dir rows ms0)))
      as Hm.
    rewrite Hmerge in Hm. destruct Hm as (_ & pdf & Hpdf & Hcrash).
    rewrite Hnew in Hpdf.
    apply (proj1 (Forall_forall _ _) Hread) in Hpdf as (pages & outline & Hdoc).
    destruct Hcrash as [[_ Hc]|[_ Hc]]; congruence.
  - done.
Qed.

(** X16. Take a row whose CRF cell is text and whose sanitized name
    does not consist of dots only, with no PDF yet.  When its page is
    captured and [img2pdf] refuses the stitched image, the PDF of the
    row is left behind empty and is not listed, and the bitmap stays.  A
    later row of the same name, in this run or the next, finds that
    file, lists it without capturing anything, and the merge stops on
    it. *)
Theorem failed_conversion_leaves_empty_pdf output_dir row crf_name ms stitched st' :
  row_name row = Some crf_name ->
  all_dots crf_name = false ->
  pdfs ms !! pdf_path output_dir crf_name = None ->
  (prepare_page (snd row);; capture_full_page crf_name output_dir) (capturer ms)
  = (Returned (Some stitched), st') ->
  img2pdf_accepts stitched = false ->
  let ms' := snd (process_row output_dir row ms) in
  fst (process_row output_dir row ms) = None /\
  pdfs ms' = <[pdf_path output_dir crf_name := Unreadable]> (pdfs ms) /\
  pdf_files ms' = pdf_files ms /\
  files (capturer ms') !! png_path output_dir crf_name = Some stitched /\
  process_row output_dir row ms'
  = (None, pdf_files_append (pdf_path output_dir crf_name) ms') /\
  is_Some (fst (merge_pdfs output_dir (snd (process_row output_dir row ms')))).
Proof.
  intros Hname Hdots Hnone Hrun Hrej ms'.
  destruct row as [[name|] url]; [|done].
  injection Hname as Hname. simpl in Hrun.
  assert (forall ms0, process_row output_dir (Text name, url) ms0
                      = (None, process_named_row output_dir crf_name url ms0))
    as Hrow by (intros ms0; unfold process_row; simpl; by rewrite Hname).
  assert (occurs "/" crf_name = false) as Hsep.
  { rewrite <- Hname. apply no_invalid_char_sep.
    exact (proj1 (proj1 (andb_true_iff _ _) (sanitize_filename_clean_name name))). }
  assert (ms' = print (ErrorProcessing crf_name)
                  (set_pdfs (<[pdf_path output_dir crf_name := Unreadable]> (pdfs ms))
                     (set_capturer
                        (set_files
                           (<[png_path output_dir crf_name := stitched]> (files st'))
                           st')
                        (print (Processing crf_name) ms))))
    as Hms'.
  { subst ms'. rewrite Hrow. simpl. unfold process_named_row.
    rewrite bool_decide_eq_false_2 by (rewrite Hnone; by intros [? ?]).
    simpl. rewrite Hrun. unfold save_page, Image_save_png.
    rewrite (splitext_png _ _ Hsep), Hdots. simpl. by rewrite Hrej. }
  assert (process_named_row output_dir crf_name url ms'
          = pdf_files_append (pdf_path output_dir crf_name) ms') as Hagain.
  { unfold process_named_row at 1.
    rewrite bool_decide_eq_true_2; [done|].
    rewrite Hms'. simpl. rewrite lookup_insert_eq. by eexists. }
  split; [by rewrite Hrow|].
  split; [by rewrite Hms'|]. split; [by rewrite Hms'|].
  split; [rewrite Hms'; simpl; by rewrite lookup_insert_eq|].
  split; [by rewrite Hrow, Hagain|].
  rewrite Hrow, Hagain. simpl.
  pose proof (merge_pdfs_spec output_dir
                (pdf_files_append (pdf_path output_dir crf_name) ms')) as Hm.
  destruct (merge_pdfs output_dir _) as [[c|] ms2]; simpl; [by eexists|].
  destruct Hm as [Hall _]. simpl in Hall.
  apply Forall_app in Hall as [_ Hall].
  apply Forall_singleton in Hall as (pages & outline & Hdoc).
  rewrite Hms' in Hdoc. simpl in Hdoc. rewrite lookup_insert_eq in Hdoc. done.
Qed.

(** ** The capturer through a run of main *)

Lemma process_named_row_bitmaps output_dir crf_name url ms p :
  ~ is_slice_path crf_name output_dir p ->
  p <> png_path output_dir crf_name ->
  p <> test_path output_dir ->
  files (capturer (process_named_row output_dir crf_name url ms)) !! p
  = files (capturer ms) !! p.
Proof.
  intros Hslice Hpng Htest.
  destruct (prepare_page_frame url (capturer ms)) as (Hprep & _).
  pose proof (capture_full_page_files crf_name output_dir
                (snd (prepare_page url (capturer ms))) p Hslice Htest)
    as Hcap.
  destruct (process_named_row_capturer output_dir crf_name url ms)
    as [Hc|[Hc|[Hc|[img Hc]]]]; rewrite Hc; simpl.
  - done.
  - by rewrite Hprep.
  - by rewrite Hcap, Hprep.
  - rewrite lookup_insert_ne by done. by rewrite Hcap, Hprep.
Qed.

Lemma process_rows_bitmaps output_dir rows ms p :
  Forall (fun crf_name =>
            ~ is_slice_path crf_name output_dir p /\
            p <> png_path output_dir crf_name) (omap row_name rows) ->
  p <> test_path output_dir ->
  files (capturer (snd (process_rows output_dir rows ms))) !! p
  = files (capturer ms) !! p.
Proof.
  intros Hall Htest. revert ms Hall.
  induction rows as [|[[name|] url] rows IH]; intros ms Hall; [done| |done].
  rewrite process_rows_text.
  change (omap row_name ((Text name, url) :: rows))
    with (sanitize_filename name :: omap row_name rows) in Hall.
  apply Forall_cons in Hall as [[Hslice Hpng] Hall].
  rewrite IH by done. by apply process_named_row_bitmaps.
Qed.

(** After the row loop [main] leaves the capturer alone, but for
    quitting the driver. *)
Lemma main_capturer output_dir rows d bitmaps documents :
  let c1 := capturer (snd (process_rows output_dir rows
                             (mkMain (PageCapturer_init d bitmaps) documents [] [])))
  in
  let c := capturer (snd (main output_dir rows d bitmaps documents)) in
  files c = files c1 /\ trace c = trace c1 /\
  actual_screenshot_height c = actual_screenshot_height c1.
Proof.
  intros c1 c. subst c c1.
  destruct (main_cases output_dir rows d bitmaps documents)
    as [(crash & _ & ->)|[(_ & crash & _ & ->)|(_ & ms2 & Hmerge & ->)]];
    [done|done|].
  set (ms1 := snd (process_rows output_dir rows _)) in *.
  pose proof (merge_pdfs_spec output_dir ms1) as Hm. rewrite Hmerge in Hm.
  simpl. rewrite cleanup_pdfs_eq. simpl.
  by destruct Hm as [_ [[_ ->]|[_ ->]]].
Qed.

(** X17. [main] changes no bitmap file other than the PNG of a row, the
    slice files of a row and the discovery file. *)
Theorem main_keeps_other_bitmaps output_dir rows d bitmaps documents p :
  Forall (fun crf_name =>
            ~ is_slice_path crf_name output_dir p /\
            p <> png_path output_dir crf_name) (omap row_name rows) ->
  p <> test_path output_dir ->
  files (capturer (snd (main output_dir rows d bitmaps documents))) !! p
  = bitmaps !! p.
Proof.
  intros Hall Htest.
  destruct (main_capturer output_dir rows d bitmaps documents) as (-> & _).
  by rewrite process_rows_bitmaps.
Qed.

Lemma process_named_row_heights output_dir crf_name url ms :
  let c := capturer ms in
  let c' := capturer (process_named_row output_dir crf_name url ms) in
  (exists ext, cached_heights (trace c') = cached_heights (trace c) ++ ext) /\
  (height_invariant c ->
   Forall (fun h => h <> 0) (cached_heights (trace c')) ->
   height_invariant c').
Proof.
  intros c c'. subst c c'.
  destruct (prepare_page_frame url (capturer ms)) as (_ & Htr & Hh).
  set (st1 := snd (prepare_page url (capturer ms))) in *.
  pose proof (call_heights_grow crf_name output_dir st1) as [ext Hext].
  pose proof (call_keeps_invariant crf_name output_dir st1) as Hstep.
  simpl in Hstep.
  set (st2 := snd (capture_full_page crf_name output_dir st1)) in *.
  assert (height_invariant (capturer ms) -> height_invariant st1) as Hinv1.
  { unfold height_invariant. by rewrite Htr, Hh. }
  destruct (process_named_row_capturer output_dir crf_name url ms)
    as [Hc|[Hc|[Hc|[img Hc]]]]; rewrite Hc; fold st1; fold st2.
  - split; [exists []; by rewrite List.app_nil_r|done].
  - split; [exists []; by rewrite Htr, List.app_nil_r|auto].
  - split; [exists ext; by rewrite Hext, Htr|auto].
  - split; [exists ext; simpl; by rewrite Hext, Htr|].
    intros Hinv Hnz. simpl in Hnz. by apply Hstep; auto.
Qed.

Lemma process_rows_heights output_dir rows ms :
  exists ext,
    cached_heights (trace (capturer (snd (process_rows output_dir rows ms))))
    = cached_heights (trace (capturer ms)) ++ ext.
Proof.
  revert ms. induction rows as [|[[name|] url] rows IH]; intros ms.
  - exists []. by rewrite List.app_nil_r.
  - rewrite process_rows_text.
    destruct (IH (process_named_row output_dir (sanitize_filename name) url ms))
      as [ext2 ->].
    destruct (process_named_row_heights output_dir (sanitize_filename name) url ms)
      as [[ext1 ->] _].
    exists (ext1 ++ ext2). by rewrite List.app_assoc.
  - exists []. by rewrite List.app_nil_r.
Qed.

Lemma process_rows_invariant output_dir rows ms :
  height_invariant (capturer ms) ->
  Forall (fun h => h <> 0)
    (cached_heights (trace (capturer (snd (process_rows output_dir rows ms))))) ->
  height_invariant (capturer (snd (process_rows output_dir rows ms))).
Proof.
  revert ms. induction rows as [|[[name|] url] rows IH]; intros ms Hinv Hnz;
    [done| |done].
  rewrite process_rows_text in *. apply IH; [|done].
  apply (process_named_row_heights output_dir (sanitize_filename name) url ms);
    [done|].
  destruct (process_rows_heights output_dir rows
              (process_named_row output_dir (sanitize_filename name) url ms))
    as [ext Hext].
  rewrite Hext in Hnz. by apply Forall_app in Hnz as [Hnz _].
Qed.

(** X18. In a whole run of [main] whose discoveries measured a height
    other than 0, the screenshot height is discovered at most once, by
    the first row that gets as far, and it is what the capturer holds
    at the end: no row discovers it again. *)
Theorem main_discovers_height_once output_dir rows d bitmaps documents :
  let c := capturer (snd (main output_dir rows d bitmaps documents)) in
  heights_nonzero (trace c) = true ->
  (length (cached_heights (trace c)) <= 1)%nat /\
  actual_screenshot_height c = head (cached_heights (trace c)).
Proof.
  intros c. subst c.
  destruct (main_capturer output_dir rows d bitmaps documents) as (_ & -> & ->).
  intros Hnz. apply heights_nonzero_Forall in Hnz.
  destruct (process_rows_invariant output_dir rows
              (mkMain (PageCapturer_init d bitmaps) documents [] []))
    as [Hhead Hlen]; [|done|done].
  split; simpl; [done|lia].
Qed.

(** ** What the rows print *)

Lemma process_named_row_report output_dir crf_name url ms :
  let ms' := process_named_row output_dir crf_name url ms in
  exists report,
    (report = [] \/
     report = [Processing crf_name; Created (pdf_path output_dir crf_name)] \/
     report = [Processing crf_name; FailedToCapture crf_name] \/
     report = [Processing crf_name; ErrorProcessing crf_name]) /\
    stdout ms' = stdout ms ++ report /\
    pdf_files ms' = pdf_files ms
                    ++ (if lists_row report then [pdf_path output_dir crf_name]
                        else []).
Proof.
  intros ms'. subst ms'. unfold process_named_row.
  case_bool_decide as Hex.
  - exists []. simpl. rewrite List.app_nil_r. auto.
  - unfold mbind, M_bind, bind. simpl.
    destruct (prepare_page url (capturer ms)) as [[[]|e] st1]; simpl.
    + destruct (capture_full_page _ output_dir st1) as [[[img|]|e] st2]; simpl.
      * unfold save_page. simpl.
        destruct (Image_save_png_cases img (png_path output_dir crf_name) st2)
          as [-> | ->]; simpl.
        -- eexists. split; [right; right; right; reflexivity|].
           split; [by rewrite <- List.app_assoc|]. simpl.
           by rewrite List.app_nil_r.
        -- destruct (img2pdf_accepts img); simpl.
           ++ eexists. split; [right; left; reflexivity|].
              split; [by rewrite <- List.app_assoc|done].
           ++ eexists. split; [right; right; right; reflexivity|].
              split; [by rewrite <- List.app_assoc|]. simpl.
              by rewrite List.app_nil_r.
      * eexists. split; [right; right; left; reflexivity|].
        split; [by rewrite <- List.app_assoc|]. simpl.
        by rewrite List.app_nil_r.
      * eexists. split; [right; right; right; reflexivity|].
        split; [by rewrite <- List.app_assoc|]. simpl.
        by rewrite List.app_nil_r.
    + eexists. split; [right; right; right; reflexivity|].
      split; [by rewrite <- List.app_assoc|]. simpl.
      by rewrite List.app_nil_r.
Qed.

(** X19. The row loop gets through the sheet as far as the first CRF
    cell that is not text, whatever the rows before it raise inside the
    [try]: each of them either prints nothing, its PDF being there, or
    is announced and gets exactly one verdict, and the PDFs listed are
    those of the rows that printed nothing or were reported created, in
    the order of the sheet.  At a CRF cell that is not text the loop
    stops, line 229 being outside the [try]; with no such cell it gets
    through the whole sheet. *)
Theorem every_row_is_accounted_for output_dir rows ms :
  let run := process_rows output_dir rows ms in
  exists processed rest reports,
    rows = processed ++ rest /\
    Forall2 (row_report output_dir) processed reports /\
    stdout (snd run) = stdout ms ++ concat reports /\
    pdf_files (snd run) = pdf_files ms ++ listed_rows output_dir processed reports /\
    ((fst run = None /\ rest = []) \/
     (fst run = Some CrfTypeError /\
      exists url rest', rest = (NotText, url) :: rest')).
Proof.
  revert ms. induction rows as [|[[name|] url] rows IH]; intros ms.
  - exists [], [], []. simpl. rewrite !List.app_nil_r.
    split; [done|]. split; [constructor|]. split; [done|]. split; [done|].
    by left.
  - cbv zeta. rewrite process_rows_text.
    set (crf_name := sanitize_filename name).
    destruct (IH (process_named_row output_dir crf_name url ms))
      as (processed & rest & reports & -> & Hall & Hout & Hlist & Hend).
    destruct (process_named_row_report output_dir crf_name url ms)
      as (report & Hrep & Hout1 & Hlist1).
    exists ((Text name, url) :: processed), rest, (report :: reports).
    split; [done|].
    split; [constructor; [by exists crf_name|done]|].
    split; [simpl; by rewrite Hout, Hout1, <- List.app_assoc|].
    split; [|exact Hend].
    rewrite Hlist, Hlist1, <- List.app_assoc. f_equal.
    unfold listed_rows. simpl. by destruct (lists_row report).
  - cbv zeta. rewrite process_rows_not_text. simpl.
    exists [], ((NotText, url) :: rows), []. simpl. rewrite !List.app_nil_r.
    split; [done|]. split; [constructor|]. split; [done|]. split; [done|].
    right. split; [done|]. by exists url, rows.
Qed.

End MainRuns.

(** * main on the scripted browser *)

(** A sheet of one row whose PDF is there already. *)
Lemma finished_rows_are_skipped_witness :
  let rows := [(Text "A", Text "https://rave/a")] in
  let ms := mkMain (fresh (browser 1920 1000 1920 400))
              (<["out/A.pdf" := Document [slice_a] []]> ∅) [] [] in
  process_rows "out" rows ms
  = (None,
     mkMain (capturer ms) (pdfs ms)
       (pdf_files ms ++ omap (row_pdf "out") rows) (stdout ms)).
Proof.
  intros rows ms.
  apply (finished_rows_are_skipped "out" rows ms).
  repeat constructor. exists "out/A.pdf".
  split; [vm_compute; reflexivity|]. vm_compute. by eexists.
Defined.

(** An empty [out/A.pdf] from an earlier run. *)
Lemma merge_crash_witness :
  let rows := [(Text "A", Text "https://rave/a")] in
  let documents : gmap string PdfFile := <["out/A.pdf" := Unreadable]> ∅ in
  let d := browser 1920 1000 1920 400 in
  let loop := process_rows "out" rows (mkMain (PageCapturer_init d ∅) documents [] []) in
  let run := main "out" rows d ∅ documents in
  snd run = snd loop /\
  documents ⊆ pdfs (snd run) /\
  ((fst loop = Some CrfTypeError /\ PdfReadError "out/A.pdf" = CrfTypeError /\
    Exists (fun row => fst row = NotText) rows) \/
   (fst loop = None /\
    exists pdf,
      PdfReadError "out/A.pdf" = PdfReadError pdf /\
      pdf ∈ omap (row_pdf "out") rows /\
      pdf ∈ pdf_files (snd run) /\
      pdfs (snd run) !! pdf = Some Unreadable)).
Proof.
  intros rows documents d loop run.
  apply (merge_crash "out" rows d ∅ documents (PdfReadError "out/A.pdf")).
  vm_compute. reflexivity.
Defined.

Lemma unreadable_pdf_stops_main_witness :
  let rows := [(Text "A", Text "https://rave/a"); (Text "B", Text "https://rave/b")] in
  let run := main "out" rows (browser 1920 1000 1920 400) ∅
               (<["out/B.pdf" := Unreadable]> ∅) in
  (exists pdf', fst run = Some (PdfReadError pdf') /\
                Forall (fun row => is_Some (row_name row)) rows) \/
  (fst run = Some CrfTypeError /\ Exists (fun row => fst row = NotText) rows).
Proof.
  intros rows.
  apply (unreadable_pdf_stops_main "out" rows (browser 1920 1000 1920 400) ∅
           (<["out/B.pdf" := Unreadable]> ∅)
           (Text "B", Text "https://rave/b") "out/B.pdf").
  - apply elem_of_cons. right. apply elem_of_cons. by left.
  - vm_compute. reflexivity.
  - vm_compute. reflexivity.
Defined.

(** Two pages of 1920 x 1000 through a 1920 x 400 viewport, into an
    empty directory. *)
Lemma casebook_and_cleanup_witness :
  let rows := [(Text "A", Text "https://rave/a"); (Text "B", Text "https://rave/b")] in
  let d := browser 1920 1000 1920 400 in
  let ms1 := snd (process_rows "out" rows (mkMain (PageCapturer_init d ∅) ∅ [] [])) in
  let run := main "out" rows d ∅ ∅ in
  pdf_files (snd run) = pdf_files ms1 /\
  Forall (fun pdf => pdfs (snd run) !! pdf = None) (pdf_files ms1) /\
  pdfs (snd run) !! merged_pdf_path "out"
  = (if bool_decide (pdf_files ms1 = [])
     then pdfs ms1 !! merged_pdf_path "out"
     else Some (Document (concat (pages_of (pdfs ms1) <$> pdf_files ms1))
                         (bookmark_name <$> pdf_files ms1))) /\
  (forall p, p ∉ pdf_files ms1 -> p <> merged_pdf_path "out" ->
             pdfs (snd run) !! p = pdfs ms1 !! p) /\
  last (stdout (snd run)) = Some Completed.
Proof.
  intros rows d ms1 run.
  apply (casebook_and_cleanup "out" rows d ∅ ∅).
  - vm_compute. reflexivity.
  - apply (bool_decide_unpack _). vm_compute. exact I.
Defined.

Lemma main_returns_witness :
  fst (main "out" [(Text "A", Text "https://rave/a"); (Text "B", Text "https://rave/b")]
         (browser 1920 1000 1920 400) ∅ ∅) = None.
Proof.
  apply (main_returns "out"
           [(Text "A", Text "https://rave/a"); (Text "B", Text "https://rave/b")]
           (browser 1920 1000 1920 400) ∅ ∅).
  - repeat constructor; vm_compute; by eexists.
  - apply (bool_decide_unpack _). vm_compute. exact I.
  - apply (bool_decide_unpack _). vm_compute. exact I.
  - repeat constructor; vm_compute; discriminate.
Defined.

(** A page 2 pixels wide is 1.5 points wide. *)
Lemma failed_conversion_leaves_empty_pdf_witness :
  let row := (Text "A", Text "https://rave/a") in
  let ms := mkMain (fresh (browser 2 1000 1920 400)) ∅ [] [] in
  let run := (prepare_page (snd row);; capture_full_page "A" "out") (capturer ms) in
  let stitched := image_of (returned_image (fst run)) in
  let ms' := snd (process_row "out" row ms) in
  fst (process_row "out" row ms) = None /\
  pdfs ms' = <[pdf_path "out" "A" := Unreadable]> (pdfs ms) /\
  pdf_files ms' = pdf_files ms /\
  files (capturer ms') !! png_path "out" "A" = Some stitched /\
  process_row "out" row ms' = (None, pdf_files_append (pdf_path "out" "A") ms') /\
  is_Some (fst (merge_pdfs "out" (snd (process_row "out" row ms')))).
Proof.
  intros row ms run stitched.
  apply (failed_conversion_leaves_empty_pdf "out" row "A" ms stitched (snd run)).
  - vm_compute. reflexivity.
  - vm_compute. reflexivity.
  - vm_compute. reflexivity.
  - refine (run_has_image run _). vm_compute. reflexivity.
  - vm_compute. reflexivity.
Defined.

(** A file of notes in the output directory. *)
Lemma main_keeps_other_bitmaps_witness :
  let bitmaps : gmap string Image := <["out/notes.png" := slice_a]> ∅ in
  files (capturer (snd (main "out" [(Text "A", Text "https://rave/a")]
                          (browser 1920 1000 1920 400) bitmaps ∅)))
  !! "out/notes.png"
  = bitmaps !! "out/notes.png".
Proof.
  intros bitmaps.
  apply (main_keeps_other_bitmaps "out" [(Text "A", Text "https://rave/a")]
           (browser 1920 1000 1920 400) bitmaps ∅ "out/notes.png").
  - repeat constructor.
    + intros [Hfinal|[i Htemp]].
      * vm_compute in Hfinal. discriminate.
      * unfold temp_path, os_path_join in Htemp. simpl in Htemp. discriminate.
    + vm_compute. discriminate.
  - vm_compute. discriminate.
Defined.

Lemma main_discovers_height_once_witness :
  let c := capturer (snd (main "out"
                            [(Text "A", Text "https://rave/a");
                             (Text "B", Text "https://rave/b")]
                            (browser 1920 1000 1920 400) ∅ ∅)) in
  (length (cached_heights (trace c)) <= 1)%nat /\
  actual_screenshot_height c = head (cached_heights (trace c)).
Proof.
  intros c.
  apply (main_discovers_height_once "out"
           [(Text "A", Text "https://rave/a"); (Text "B", Text "https://rave/b")]
           (browser 1920 1000 1920 400) ∅ ∅).
  vm_compute. reflexivity.
Defined.
